(** * The crime-data pipeline of [pipeline.py]

    A shallow embedding of the staging, primary and reporting layers of
    [pipeline.py], of its ingestion step and of its orchestrator [main],
    together with the behaviour of the pandas operations the code calls
    (label lookup, left merge, row-wise apply, column drop, group-by size).

    Frames hold what [pd.read_csv] produces for the police data set: text
    cells and IEEE doubles.  A missing entry is the double NaN, as in pandas:
    [read_csv] reads an empty field as NaN and a left merge fills the
    unmatched right-hand columns with NaN. *)

From Stdlib Require Import List String Ascii Bool Arith ZArith Lia Floats.
From Stdlib Require Import Sorted.
Import ListNotations.
Local Open Scope string_scope.
Local Open Scope list_scope.

(** ** Python values held in a frame *)

Inductive value : Type :=
| VStr (s : string)
| VFloat (f : float).

(** [np.nan], the missing entry. *)
Definition NaN : value := VFloat nan.

(** [pd.notnull] on a scalar. *)
Definition pd_notnull (v : value) : bool :=
  match v with
  | VStr _ => true
  | VFloat f => negb (is_nan f)
  end.

(** Python [==] between a frame value and a string literal. *)
Definition eq_str (v : value) (s : string) : bool :=
  match v with
  | VStr t => String.eqb t s
  | VFloat _ => false
  end.

(** [v in [s1, ..., sn]] for a list of string literals. *)
Definition py_in (v : value) (l : list string) : bool :=
  existsb (eq_str v) l.

(** ** Exceptions *)

Inductive exn_kind : Type :=
| KeyError | ValueError | TypeError | AttributeError | OSError | SyntaxError.

Record exn : Type := mkExn { kind : exn_kind; message : string }.

Inductive result (A : Type) : Type :=
| Ok (a : A)
| Raise (e : exn).
Arguments Ok {A} a.
Arguments Raise {A} e.

Definition bind {A B : Type} (r : result A) (k : A -> result B) : result B :=
  match r with
  | Ok a => k a
  | Raise e => Raise e
  end.

Declare Scope result_scope.
Delimit Scope result_scope with result.
Notation "'let!' x ':=' c 'in' k" := (bind c (fun x => k))
  (at level 61, x pattern, c at next level, right associativity) : result_scope.
Local Open Scope result_scope.

Fixpoint traverse {A B : Type} (f : A -> result B) (l : list A) : result (list B) :=
  match l with
  | [] => Ok []
  | a :: l' =>
      let! b := f a in
      let! bs := traverse f l' in
      Ok (b :: bs)
  end.

(** ** Frames *)

(** A [DataFrame]: the column labels in order, and the rows in index order,
    each row holding one value per label. *)
Record DataFrame : Type := mkFrame {
  columns : list string;
  rows : list (list value)
}.

(** Every row has one value per label. *)
Definition aligned (df : DataFrame) : Prop :=
  Forall (fun r => List.length r = List.length (columns df)) (rows df).

Definition well_formed (df : DataFrame) : Prop :=
  NoDup (columns df) /\ aligned df.

Definition mem (label : string) (labels : list string) : bool :=
  existsb (String.eqb label) labels.

(** [label in df.columns] *)
Definition has_column (df : DataFrame) (label : string) : bool :=
  mem label (columns df).

Fixpoint row_lookup (cols : list string) (r : list value) (label : string)
  : option value :=
  match cols, r with
  | c :: cs, v :: vs => if String.eqb c label then Some v else row_lookup cs vs label
  | _, _ => None
  end.

(** [row[label]] *)
Definition row_getitem (cols : list string) (r : list value) (label : string)
  : result value :=
  match row_lookup cols r label with
  | Some v => Ok v
  | None => Raise (mkExn KeyError label)
  end.

(** [df[label]]: the values of one column, in row order. *)
Definition getitem (df : DataFrame) (label : string) : result (list value) :=
  if has_column df label
  then traverse (fun r => row_getitem (columns df) r label) (rows df)
  else Raise (mkExn KeyError label).

(** One row of [df[label] = values]: the entry under [label] is replaced, or
    appended when the label is new. *)
Fixpoint row_set (cols : list string) (r : list value) (label : string) (v : value)
  : list value :=
  match cols, r with
  | c :: cs, x :: xs =>
      if String.eqb c label then v :: xs else x :: row_set cs xs label v
  | _, _ => [v]
  end.

(** [df[label] = values], for a column of values that has one entry per
    row, as every column assigned in [pipeline.py] has. *)
Definition setitem (df : DataFrame) (label : string) (vals : list value)
  : DataFrame :=
  {| columns := if has_column df label then columns df else columns df ++ [label];
     rows := map (fun rv => row_set (columns df) (fst rv) label (snd rv))
                 (combine (rows df) vals) |}.

Fixpoint row_drop (cols : list string) (r : list value) (labels : list string)
  : list value :=
  match cols, r with
  | c :: cs, x :: xs =>
      if mem c labels then row_drop cs xs labels else x :: row_drop cs xs labels
  | _, _ => []
  end.

(** [df.drop(columns=labels)]: every label has to be present. *)
Definition drop_columns (df : DataFrame) (labels : list string) : result DataFrame :=
  match filter (fun l => negb (has_column df l)) labels with
  | [] =>
      Ok {| columns := filter (fun c => negb (mem c labels)) (columns df);
            rows := map (fun r => row_drop (columns df) r labels) (rows df) |}
  | missing :: _ => Raise (mkExn KeyError (missing ++ " not found in axis"))
  end.

(** [df[[l1, ..., ln]]]: the listed columns, in the listed order. *)
Definition select_columns (df : DataFrame) (labels : list string) : result DataFrame :=
  match filter (fun l => negb (has_column df l)) labels with
  | [] =>
      let! rs := traverse
                   (fun r => traverse (fun l => row_getitem (columns df) r l) labels)
                   (rows df) in
      Ok {| columns := labels; rows := rs |}
  | missing :: _ => Raise (mkExn KeyError (missing ++ " not in index"))
  end.

(** ** Left merge on one key *)

(** Equality of join and group keys: text by characters, doubles by value,
    and a missing key matches a missing key (pandas, unlike SQL, pairs NaN
    keys with each other). *)
Definition key_eqb (a b : value) : bool :=
  match a, b with
  | VStr s, VStr t => String.eqb s t
  | VFloat x, VFloat y => (x =? y)%float || (is_nan x && is_nan y)
  | _, _ => false
  end.

(** A label that both sides have besides the key gets a suffix, [_x] on the
    left and [_y] on the right. *)
Definition suffixed (overlap : list string) (suffix : string) (c : string) : string :=
  if mem c overlap then c ++ suffix else c.

(** The right-hand rows whose key equals [k], in their order. *)
Definition matching (rcols : list string) (rrows : list (list value))
           (on : string) (k : value) : list (list value) :=
  filter (fun rr => match row_lookup rcols rr on with
                    | Some k' => key_eqb k k'
                    | None => false
                    end) rrows.

(** The merged rows one left row gives: one per matching right row, or a
    single row padded with NaN when nothing matches. *)
Definition merge_row (lcols rcols : list string) (rrows : list (list value))
           (on : string) (l : list value) : result (list (list value)) :=
  let! k := row_getitem lcols l on in
  match matching rcols rrows on k with
  | [] => Ok [l ++ map (fun _ => NaN) (filter (fun c => negb (String.eqb c on)) rcols)]
  | ms => Ok (map (fun m => l ++ row_drop rcols m [on]) ms)
  end.

(** [pd.merge(left, right, how='left', on=on)] *)
Definition pd_merge_left (left right : DataFrame) (on : string) : result DataFrame :=
  if negb (has_column left on) || negb (has_column right on)
  then Raise (mkExn KeyError on)
  else
    let rest := filter (fun c => negb (String.eqb c on)) (columns right) in
    let overlap := filter (fun c => mem c rest)
                          (filter (fun c => negb (String.eqb c on)) (columns left)) in
    let! blocks := traverse (merge_row (columns left) (columns right) (rows right) on)
                            (rows left) in
    Ok {| columns := map (suffixed overlap "_x") (columns left)
                     ++ map (suffixed overlap "_y") rest;
          rows := List.concat blocks |}.

(** ** The staging layer *)

Definition merge_data (df df_outcomes : DataFrame) : result DataFrame :=
  let! picked := select_columns df_outcomes ["Crime ID"; "Outcome type"] in
  pd_merge_left df picked "Crime ID".

(** The lambda of [finaloutcome], applied to one row. *)
Definition final_outcome_of_row (cols : list string) (r : list value) : result value :=
  let! outcome_type := row_getitem cols r "Outcome type" in
  if pd_notnull outcome_type
  then Ok outcome_type
  else row_getitem cols r "Last outcome category".

(** [df.apply(f, axis=1)]: [f] on every row, in order; the first row on
    which [f] raises ends the call. *)
Definition apply_rows (df : DataFrame) (f : list string -> list value -> result value)
  : result (list value) :=
  traverse (f (columns df)) (rows df).

Definition finaloutcome (df : DataFrame) : result DataFrame :=
  let! vals := apply_rows df final_outcome_of_row in
  Ok (setitem df "Final Outcome" vals).

Definition categorize_outcome (outcome : value) : string :=
  if py_in outcome ["Unable to prosecute suspect";
                    "Investigation complete; no suspect identified";
                    "Status update unavailable"]
  then "No Further Action"
  else if py_in outcome ["Local resolution";
                         "Offender given a caution";
                         "Action to be taken by another organisation";
                         "Awaiting court outcome"]
  then "Non-criminal Outcome"
  else if py_in outcome ["Further investigation is not in the public interest";
                         "Further action is not in the public interest";
                         "Formal action is not in the public interest"]
  then "Public Interest Consideration"
  else "Unknown".

Definition apply_categorization (df : DataFrame) : result DataFrame :=
  let! final := getitem df "Final Outcome" in
  Ok (setitem df "Broad Outcome Category"
              (map (fun v => VStr (categorize_outcome v)) final)).

Definition cols_to_delete : list string :=
  ["Reported by"; "Context"; "Location"; "Last outcome category";
   "Outcome type"; "Final Outcome"].

Definition del_values_street (df : DataFrame) : result DataFrame :=
  drop_columns df cols_to_delete.

(** The four transformations of [stage_data], before the write. *)
Definition staged_table (df df_outcomes : DataFrame) : result DataFrame :=
  let! df := merge_data df df_outcomes in
  let! df := finaloutcome df in
  let! df := apply_categorization df in
  del_values_street df.

(** ** The primary layer *)

(** [series.astype('category')] changes the representation of a column and
    none of its values; the text file the primary table is written to does
    not keep the representation. *)
Definition astype_category (vals : list value) : list value := vals.

(** One entry of [left + right] on two columns: doubles add as IEEE doubles
    (so NaN on either side gives NaN), text concatenates, a missing entry
    next to text gives a missing entry, and text next to a number is a
    [TypeError]. *)
Definition add_values (a b : value) : result value :=
  match a, b with
  | VFloat x, VFloat y => Ok (VFloat (x + y))
  | VStr s, VStr t => Ok (VStr (s ++ t))
  | VStr _, VFloat y =>
      if is_nan y then Ok NaN
      else Raise (mkExn TypeError "can only concatenate str (not 'float') to str")
  | VFloat x, VStr _ =>
      if is_nan x then Ok NaN
      else Raise (mkExn TypeError "unsupported operand type(s) for +: 'float' and 'str'")
  end.

Definition series_add (xs ys : list value) : result (list value) :=
  traverse (fun xy => add_values (fst xy) (snd xy)) (combine xs ys).

Definition primary_transformations (df : DataFrame) : result DataFrame :=
  let! crime_type := getitem df "Crime type" in
  let df := setitem df "Crime type" (astype_category crime_type) in
  let! broad := getitem df "Broad Outcome Category" in
  let df := setitem df "Broad Outcome Category" (astype_category broad) in
  if has_column df "Latitude" && has_column df "Longitude"
  then
    let! latitude := getitem df "Latitude" in
    let! longitude := getitem df "Longitude" in
    let! total := series_add latitude longitude in
    Ok (setitem df "Location Sum" total)
  else Ok df.

(** ** The reporting layer *)

(** A row of the aggregated frame, whose columns are [Crime type],
    [Broad Outcome Category] and [Count]. *)
Record ReportRow : Type := mkReportRow {
  crime_type : value;
  broad_outcome_category : value;
  Count : nat
}.

(** The order in which group keys are sorted: numbers before text, numbers
    by value, text by characters. *)
Definition value_ltb (a b : value) : bool :=
  match a, b with
  | VFloat x, VFloat y => (x <? y)%float
  | VFloat _, VStr _ => true
  | VStr _, VFloat _ => false
  | VStr s, VStr t => String.ltb s t
  end.

Definition group_eqb (k1 k2 : value * value) : bool :=
  key_eqb (fst k1) (fst k2) && key_eqb (snd k1) (snd k2).

Definition group_ltb (k1 k2 : value * value) : bool :=
  value_ltb (fst k1) (fst k2)
  || (key_eqb (fst k1) (fst k2) && value_ltb (snd k1) (snd k2)).

(** Count one more row under key [k], keeping the groups sorted by key. *)
Fixpoint count_key (k : value * value) (groups : list ReportRow) : list ReportRow :=
  match groups with
  | [] => [mkReportRow (fst k) (snd k) 1]
  | g :: rest =>
      let k' := (crime_type g, broad_outcome_category g) in
      if group_eqb k k'
      then mkReportRow (crime_type g) (broad_outcome_category g) (S (Count g)) :: rest
      else if group_ltb k k'
      then mkReportRow (fst k) (snd k) 1 :: groups
      else g :: count_key k rest
  end.

(** The rows a group-by keeps: those whose keys are both present
    ([dropna=True], the default of [groupby]). *)
Definition grouped_keys (keys : list (value * value)) : list (value * value) :=
  filter (fun k => pd_notnull (fst k) && pd_notnull (snd k)) keys.

(** [df.groupby([a, b]).size().reset_index(name='Count')] on columns of
    text and numbers, as a frame read from a file has: one row per pair of
    keys that occurs, in the order of the keys. *)
Definition groupby_size (df : DataFrame) (a b : string) : result (list ReportRow) :=
  let! ka := getitem df a in
  let! kb := getitem df b in
  Ok (fold_left (fun groups k => count_key k groups)
                (grouped_keys (combine ka kb)) []).

Definition reporting_aggregation (df : DataFrame) : result (list ReportRow) :=
  groupby_size df "Crime type" "Broad Outcome Category".

Definition total_count (agg : list ReportRow) : nat :=
  fold_right (fun g n => Count g + n) 0 agg.

(** ** Files and the log *)

Inductive level : Type := INFO | ERROR | CRITICAL.

(** The part of the world the pipeline acts on: the regular files under the
    working directory, by path, and the calls made to [logging], oldest
    first.  Where a handler sends the entries is a matter of configuration,
    of which the file has none. *)
Record World : Type := mkWorld {
  files : string -> option string;
  log : list (level * string)
}.

(** A computation that reads and changes the world and may raise. *)
Definition io (A : Type) : Type := World -> result A * World.

Definition ret {A : Type} (a : A) : io A := fun w => (Ok a, w).

Definition raise {A : Type} (e : exn) : io A := fun w => (Raise e, w).

Definition io_bind {A B : Type} (c : io A) (k : A -> io B) : io B :=
  fun w => match c w with
           | (Ok a, w') => k a w'
           | (Raise e, w') => (Raise e, w')
           end.

Declare Scope io_scope.
Delimit Scope io_scope with io.
Notation "x <- c ;; k" := (io_bind c (fun x => k))
  (at level 100, c at next level, right associativity) : io_scope.
Notation "c ;; k" := (io_bind c (fun _ => k))
  (at level 100, right associativity) : io_scope.

Definition lift {A : Type} (r : result A) : io A := fun w => (r, w).

(** [try: body / except Exception as e: handler(e)] *)
Definition try_except {A : Type} (body : io A) (handler : exn -> io A) : io A :=
  fun w => match body w with
           | (Ok a, w') => (Ok a, w')
           | (Raise e, w') => handler e w'
           end.

Definition logging (l : level) (msg : string) : io unit :=
  fun w => (Ok tt, {| files := files w; log := log w ++ [(l, msg)] |}).

Definition os_path_exists (path : string) : io bool :=
  fun w => (Ok (match files w path with Some _ => true | None => false end), w).

Definition read_file (path : string) : io string :=
  fun w => match files w path with
           | Some text => (Ok text, w)
           | None => (Raise (mkExn OSError ("No such file or directory: " ++ path)), w)
           end.

Definition write_file (path : string) (text : string) : io unit :=
  fun w => (Ok tt,
            {| files := fun p => if String.eqb p path then Some text else files w p;
               log := log w |}).

Definition is_value_error (e : exn) : bool :=
  match kind e with ValueError => true | _ => false end.

(** ** Constants *)

Definition LOCAL_DATA_PATH : string := "./".
Definition LOG_FILE : string := LOCAL_DATA_PATH ++ "pipeline.log".
Definition RAW_DATA_FILE : string := LOCAL_DATA_PATH ++ "2022-01-cheshire-street.csv".
Definition OUTCOMES_DATA_FILE : string := LOCAL_DATA_PATH ++ "2022-01-cheshire-outcomes.csv".
Definition STAGED_DATA_FILE : string := LOCAL_DATA_PATH ++ "staged_cheshire_street.csv".
Definition PRIMARY_DATA_FILE : string := LOCAL_DATA_PATH ++ "primary_cheshire_street.csv".
Definition REPORTING_DATA_FILE : string := LOCAL_DATA_PATH ++ "reporting_cheshire_street.csv".

(** ** The stages and the orchestrator *)

Section Stages.

Local Open Scope io_scope.

(** The text format of pandas is not part of the program.  [read_csv] is
    the parser on the text of a file: it gives a frame or raises, a
    [ValueError] (pandas' [ParserError] and [EmptyDataError] are
    [ValueError]s) on malformed content, or any other exception.
    [to_csv] and [agg_to_csv] are [DataFrame.to_csv(index=False)] on a
    frame and on the aggregated frame. *)
Variable read_csv : string -> result DataFrame.
Variable to_csv : DataFrame -> string.
Variable agg_to_csv : list ReportRow -> string.

Definition ingest_data (file_path : string) : io (option DataFrame) :=
  logging INFO ("Starting data ingestion from " ++ file_path) ;;
  found <- os_path_exists file_path ;;
  if negb found
  then
    logging ERROR ("File not found: " ++ file_path) ;;
    ret None
  else
    text <- read_file file_path ;;
    match read_csv text with
    | Ok df =>
        logging INFO ("Data ingestion from " ++ file_path ++ " completed successfully") ;;
        ret (Some df)
    | Raise e =>
        if is_value_error e
        then
          logging ERROR ("Error reading the CSV file " ++ file_path ++ ": " ++ message e) ;;
          ret None
        else raise e
    end.

Definition stage_data (df df_outcomes : DataFrame) (output_file : string) : io unit :=
  logging INFO "Starting data staging" ;;
  try_except
    (df <- lift (merge_data df df_outcomes) ;;
     df <- lift (finaloutcome df) ;;
     df <- lift (apply_categorization df) ;;
     df <- lift (del_values_street df) ;;
     write_file output_file (to_csv df) ;;
     logging INFO "Data staging completed successfully")
    (fun e => logging ERROR ("Error during data staging: " ++ message e)).

(** What a stage finds in place of a frame when the ingestion before it
    returned [None]. *)
Definition subscript (df : option DataFrame) : result DataFrame :=
  match df with
  | Some d => Ok d
  | None => Raise (mkExn TypeError "'NoneType' object is not subscriptable")
  end.

Definition attribute (df : option DataFrame) : result DataFrame :=
  match df with
  | Some d => Ok d
  | None => Raise (mkExn AttributeError "'NoneType' object has no attribute 'groupby'")
  end.

Definition primary_data (df : option DataFrame) (output_file : string) : io unit :=
  logging INFO "Starting primary data transformation" ;;
  try_except
    (df <- lift (let! d := subscript df in primary_transformations d) ;;
     write_file output_file (to_csv df) ;;
     logging INFO "Primary data transformation completed successfully")
    (fun e => logging ERROR ("Error during primary data transformation: " ++ message e)).

Definition reporting_data (df : option DataFrame) (output_file : string) : io unit :=
  logging INFO "Starting reporting data aggregation" ;;
  try_except
    (agg_df <- lift (let! d := attribute df in reporting_aggregation d) ;;
     write_file output_file (agg_to_csv agg_df) ;;
     logging INFO "Reporting data aggregation completed successfully")
    (fun e => logging ERROR ("Error during reporting data aggregation: " ++ message e)).

Definition main : io unit :=
  logging INFO "Pipeline execution started" ;;
  try_except
    (df <- ingest_data RAW_DATA_FILE ;;
     df_outcomes <- ingest_data OUTCOMES_DATA_FILE ;;
     match df, df_outcomes with
     | Some df, Some df_outcomes =>
         stage_data df df_outcomes STAGED_DATA_FILE ;;
         df_staged <- ingest_data STAGED_DATA_FILE ;;
         primary_data df_staged PRIMARY_DATA_FILE ;;
         df_primary <- ingest_data PRIMARY_DATA_FILE ;;
         reporting_data df_primary REPORTING_DATA_FILE
     | _, _ => ret tt
     end ;;
     logging INFO "Pipeline execution completed successfully")
    (fun e => logging CRITICAL ("Pipeline execution failed: " ++ message e)).

End Stages.

(** ** The module as a whole *)

(** Python compiles the whole text of a module before it runs its first
    statement.  The statements of [pipeline.py] that the sections above
    embed are kept by what they do when run; the last line of the file is
    kept as text and read by a lexer and a recogniser for the one form of
    statement it could be: a call on names and string literals. *)

Inductive token : Type :=
| NAME (s : string)
| STRING (s : string)
| LPAR
| RPAR
| COMMA
| ERRORTOKEN (c : ascii).

Definition is_name_char (c : ascii) : bool :=
  let n := nat_of_ascii c in
  (Nat.leb 65 n && Nat.leb n 90) || (Nat.leb 97 n && Nat.leb n 122)
  || (Nat.leb 48 n && Nat.leb n 57) || Nat.eqb n 95.

Inductive lexing : Type :=
| Between
| InName (s : string)
| InString (s : string).

(** The token that ends when the lexer leaves state [st]. *)
Definition flush (st : lexing) : list token :=
  match st with
  | InName s => [NAME s]
  | _ => []
  end.

Definition name_so_far (st : lexing) : string :=
  match st with
  | InName s => s
  | _ => ""
  end.

(** The token of a character that is neither part of a name nor a quote. *)
Definition symbol (c : ascii) : list token :=
  if Ascii.eqb c " " then []
  else if Ascii.eqb c "(" then [LPAR]
  else if Ascii.eqb c ")" then [RPAR]
  else if Ascii.eqb c "," then [COMMA]
  else [ERRORTOKEN c].

Fixpoint tokenize (st : lexing) (src : string) : list token :=
  match src with
  | EmptyString =>
      match st with
      | InString _ => [ERRORTOKEN "'"]
      | _ => flush st
      end
  | String c rest =>
      match st with
      | InString s =>
          if Ascii.eqb c "'"
          then STRING s :: tokenize Between rest
          else tokenize (InString (s ++ String c "")) rest
      | _ =>
          if is_name_char c
          then tokenize (InName (name_so_far st ++ String c "")) rest
          else if Ascii.eqb c "'"
          then flush st ++ tokenize (InString "") rest
          else flush st ++ symbol c ++ tokenize Between rest
      end
  end.

Definition is_atom (t : token) : bool :=
  match t with
  | NAME _ | STRING _ => true
  | _ => false
  end.

(** The rest of a call after its opening parenthesis: atoms separated by
    commas, then the closing parenthesis and the end of the line. *)
Fixpoint arguments (ts : list token) : bool :=
  match ts with
  | a :: RPAR :: [] => is_atom a
  | a :: COMMA :: rest => is_atom a && arguments rest
  | _ => false
  end.

Definition call_statement (ts : list token) : bool :=
  match ts with
  | NAME _ :: LPAR :: RPAR :: [] => true
  | NAME _ :: LPAR :: rest => arguments rest
  | _ => false
  end.

(** A top-level statement: one of the embedded ones, given by its run under
    [__name__ == '__main__'] or under an import, or a line of text. *)
Inductive statement : Type :=
| Embedded (run : bool -> io unit)
| Text (line : string).

Definition compiles (s : statement) : bool :=
  match s with
  | Embedded _ => true
  | Text line => call_statement (tokenize Between line)
  end.

(** A line of text that compiles is a call whose output goes to the
    terminal, which is not part of [World]. *)
Definition run_statement (is_main : bool) (s : statement) : io unit :=
  match s with
  | Embedded run => run is_main
  | Text _ => ret tt
  end.

Fixpoint run_statements (is_main : bool) (body : list statement) : io unit :=
  match body with
  | [] => ret tt
  | s :: rest => io_bind (run_statement is_main s) (fun _ => run_statements is_main rest)
  end.

(** Running a file as a script ([is_main]) or importing it. *)
Definition run_module (body : list statement) (is_main : bool) : io unit :=
  if forallb compiles body
  then run_statements is_main body
  else raise (mkExn SyntaxError "invalid syntax").

Section Script.

Variable read_csv : string -> result DataFrame.
Variable to_csv : DataFrame -> string.
Variable agg_to_csv : list ReportRow -> string.

(** The imports, the constants and the function definitions change
    neither the files nor the log. *)
Definition definitions : statement := Embedded (fun _ => ret tt).

(** [if __name__ == '__main__': main()] *)
Definition main_guard : statement :=
  Embedded (fun is_main => if is_main then main read_csv to_csv agg_to_csv else ret tt).

Definition last_line : string := "print( Hello Noah! )".

Definition pipeline_py : list statement :=
  [definitions; main_guard; Text last_line].

(** The file without its last line. *)
Definition pipeline_py_without_last_line : list statement :=
  [definitions; main_guard].

End Script.

(** ** Notions the properties are stated with *)

Fixpoint distinct (labels : list string) : bool :=
  match labels with
  | [] => true
  | l :: ls => negb (mem l ls) && distinct ls
  end.

(** [well_formed], decided. *)
Definition well_formedb (df : DataFrame) : bool :=
  distinct (columns df)
  && forallb (fun r => Nat.eqb (List.length r) (List.length (columns df))) (rows df).

(** The rows of the outcomes table whose [Crime ID] equals [k]. *)
Definition outcome_matches (df_outcomes : DataFrame) (k : value) : list (list value) :=
  matching (columns df_outcomes) (rows df_outcomes) "Crime ID" k.

(** The rows of a table that a group-by on [a] and [b] counts: those where
    both labels hold a value that is not missing. *)
Definition keyed_rows (df : DataFrame) (a b : string) : list (list value) :=
  filter (fun r => match row_lookup (columns df) r a, row_lookup (columns df) r b with
                   | Some x, Some y => pd_notnull x && pd_notnull y
                   | _, _ => false
                   end) (rows df).

(** The block of merged rows that one incident row gives. *)
Definition block_of (df df_outcomes : DataFrame) (l : list value)
           (block : list (list value)) : Prop :=
  exists k,
    row_lookup (columns df) l "Crime ID" = Some k /\
    (outcome_matches df_outcomes k = [] -> block = [l ++ [NaN]]) /\
    (outcome_matches df_outcomes k <> [] ->
     Forall2 (fun o merged_row =>
                exists outcome_type,
                  row_lookup (columns df_outcomes) o "Outcome type" = Some outcome_type /\
                  merged_row = l ++ [outcome_type])
             (outcome_matches df_outcomes k) block).

(** ** The classification as the glossary words it *)

Module Glossary.

Definition No_Further_Action : list string :=
  ["Unable to prosecute suspect";
   "Investigation complete; no suspect identified";
   "Status update unavailable"].

Definition Non_criminal_Outcome : list string :=
  ["Local resolution";
   "Offender given a caution";
   "Action to be taken by another organisation";
   "Awaiting court outcome"].

Definition Public_Interest_Consideration : list string :=
  ["Further investigation is not in the public interest";
   "Further action is not in the public interest";
   "Formal action is not in the public interest"].

Definition categories : list string :=
  ["No Further Action"; "Non-criminal Outcome";
   "Public Interest Consideration"; "Unknown"].

Definition named (s : string) : Prop :=
  In s No_Further_Action \/ In s Non_criminal_Outcome
  \/ In s Public_Interest_Consideration.

End Glossary.

(** ** Sample data *)

Module Sample.

(** Three incidents as the street file gives them: one without an outcome
    row, one with two, and one whose identifier and crime type are
    missing. *)
Definition incidents : DataFrame :=
  {| columns := ["Crime ID"; "Reported by"; "Longitude"; "Latitude"; "Location";
                 "Crime type"; "Last outcome category"; "Context"];
     rows := [[VStr "A1"; VStr "Cheshire Constabulary"; VFloat (-2.5)%float;
               VFloat 53.25%float; VStr "On or near Mill Lane"; VStr "Burglary";
               VStr "Under investigation"; NaN];
              [VStr "A2"; VStr "Cheshire Constabulary"; VFloat (-2.75)%float;
               NaN; VStr "On or near High Street"; VStr "Theft";
               VStr "Local resolution"; NaN];
              [NaN; VStr "Cheshire Constabulary"; VFloat (-2.5)%float;
               VFloat 53.5%float; VStr "On or near Park Road"; NaN;
               NaN; NaN]] |}.

Definition outcomes : DataFrame :=
  {| columns := ["Crime ID"; "Month"; "Outcome type"];
     rows := [[VStr "A2"; VStr "2022-01"; VStr "Unable to prosecute suspect"];
              [VStr "A2"; VStr "2022-01"; VStr "Offender given a caution"];
              [VStr "A9"; VStr "2022-01"; VStr "Local resolution"]] |}.

(** The incidents without their [Context] column. *)
Definition incidents_without_context : DataFrame :=
  {| columns := ["Crime ID"; "Reported by"; "Location"; "Crime type";
                 "Last outcome category"];
     rows := [[VStr "A1"; VStr "Cheshire Constabulary"; VStr "On or near Mill Lane";
               VStr "Burglary"; VStr "Under investigation"]] |}.

Definition merged : DataFrame :=
  {| columns := columns incidents ++ ["Outcome type"];
     rows := [[VStr "A1"; VStr "Cheshire Constabulary"; VFloat (-2.5)%float;
               VFloat 53.25%float; VStr "On or near Mill Lane"; VStr "Burglary";
               VStr "Under investigation"; NaN; NaN];
              [VStr "A2"; VStr "Cheshire Constabulary"; VFloat (-2.75)%float;
               NaN; VStr "On or near High Street"; VStr "Theft";
               VStr "Local resolution"; NaN; VStr "Unable to prosecute suspect"];
              [VStr "A2"; VStr "Cheshire Constabulary"; VFloat (-2.75)%float;
               NaN; VStr "On or near High Street"; VStr "Theft";
               VStr "Local resolution"; NaN; VStr "Offender given a caution"];
              [NaN; VStr "Cheshire Constabulary"; VFloat (-2.5)%float;
               VFloat 53.5%float; VStr "On or near Park Road"; NaN;
               NaN; NaN; NaN]] |}.

Definition staged : DataFrame :=
  {| columns := ["Crime ID"; "Longitude"; "Latitude"; "Crime type";
                 "Broad Outcome Category"];
     rows := [[VStr "A1"; VFloat (-2.5)%float; VFloat 53.25%float;
               VStr "Burglary"; VStr "Unknown"];
              [VStr "A2"; VFloat (-2.75)%float; NaN;
               VStr "Theft"; VStr "No Further Action"];
              [VStr "A2"; VFloat (-2.75)%float; NaN;
               VStr "Theft"; VStr "Non-criminal Outcome"];
              [NaN; VFloat (-2.5)%float; VFloat 53.5%float;
               NaN; VStr "Unknown"]] |}.

(** A staged table that has no [Latitude] and already carries a column
    named [Location Sum]. *)
Definition staged_with_location_sum : DataFrame :=
  {| columns := ["Crime ID"; "Longitude"; "Crime type";
                 "Broad Outcome Category"; "Location Sum"];
     rows := [[VStr "A1"; VFloat (-2.5)%float; VStr "Burglary";
               VStr "Unknown"; VFloat 50.75%float]] |}.

(** A primary table of one row whose crime type is missing. *)
Definition primary_without_crime_type : DataFrame :=
  {| columns := ["Crime ID"; "Crime type"; "Broad Outcome Category"];
     rows := [[VStr "A3"; NaN; VStr "Unknown"]] |}.

(** The pandas text format stood in for by fixed texts: every frame is
    written as [frame] and the text [frame] is read back as the staged
    sample, the text [ragged] is rejected as malformed, and any other text
    cannot be read at all. *)
Definition to_csv (_ : DataFrame) : string := "frame".
Definition agg_to_csv (_ : list ReportRow) : string := "counts".
Definition read_csv (text : string) : result DataFrame :=
  if String.eqb text "frame" then Ok staged
  else if String.eqb text "ragged" then Raise (mkExn ValueError "Error tokenizing data")
  else Raise (mkExn OSError "Permission denied").

Definition empty_directory : World :=
  {| files := fun _ => None; log := [] |}.

(** Neither input is there except an outcomes file that cannot be read. *)
Definition unreadable_outcomes : World :=
  {| files := fun p => if String.eqb p OUTCOMES_DATA_FILE then Some "locked" else None;
     log := [] |}.

(** A raw file whose rows do not fit its header, next to a good outcomes
    file. *)
Definition ragged_raw : World :=
  {| files := fun p => if String.eqb p RAW_DATA_FILE then Some "ragged"
                       else if String.eqb p OUTCOMES_DATA_FILE then Some "frame"
                       else None;
     log := [] |}.

End Sample.

(** ** Notions for the runs of the stages *)

(** Between [w] and [w'] only files at [paths] may have changed, and the
    log has only grown. *)
Definition writes_only (paths : list string) (w w' : World) : Prop :=
  (forall p, ~ In p paths -> files w' p = files w p) /\
  exists entries, log w' = log w ++ entries.

(** The three files the pipeline produces. *)
Definition output_files : list string :=
  [STAGED_DATA_FILE; PRIMARY_DATA_FILE; REPORTING_DATA_FILE].

(** The keys of the rows of an aggregated frame. *)
Definition group_key (g : ReportRow) : value * value :=
  (crime_type g, broad_outcome_category g).

(** A reporting row whose two keys are text. *)
Definition text_keys (g : ReportRow) : Prop :=
  exists a b, group_key g = (VStr a, VStr b).

(** The order of the reporting rows: by key. *)
Definition before (g h : ReportRow) : Prop :=
  group_ltb (group_key g) (group_key h) = true.

(** How often the key [k] occurs among [keys]. *)
Definition occurrences (k : value * value) (keys : list (value * value)) : nat :=
  List.length (filter (fun k' => group_eqb k k') keys).

(** The count that a list of groups holds for the key [k]. *)
Definition count_of (k : value * value) (groups : list ReportRow) : nat :=
  match find (fun g => group_eqb k (group_key g)) groups with
  | Some g => Count g
  | None => 0
  end.

(** The rows of a primary table that have both keys and the keys of the
    reporting row [g]. *)
Definition rows_of_group (df : DataFrame) (g : ReportRow) : list (list value) :=
  filter (fun r => match row_lookup (columns df) r "Crime type",
                         row_lookup (columns df) r "Broad Outcome Category" with
                   | Some x, Some y => group_eqb (group_key g) (x, y)
                   | _, _ => false
                   end)
         (keyed_rows df "Crime type" "Broad Outcome Category").

(** ** A directory with both inputs *)

Module Scenario.

(** A text format stood in for by fixed texts: the two input files hold the
    sample incidents and outcomes, and every frame the pipeline writes is
    read back as the staged sample. *)
Definition read_csv (text : string) : result DataFrame :=
  if String.eqb text "incidents" then Ok Sample.incidents
  else if String.eqb text "outcomes" then Ok Sample.outcomes
  else if String.eqb text "frame" then Ok Sample.staged
  else Raise (mkExn ValueError "No columns to parse from file").


(** The raw file holds the outcomes by mistake. *)
Definition swapped_inputs : World :=
  {| files := fun p => if String.eqb p RAW_DATA_FILE then Some "outcomes"
                       else if String.eqb p OUTCOMES_DATA_FILE then Some "outcomes"
                       else None;
     log := [] |}.


(** The primary table of the staged sample. *)
Definition primary : DataFrame :=
  {| columns := ["Crime ID"; "Longitude"; "Latitude"; "Crime type";
                 "Broad Outcome Category"; "Location Sum"];
     rows := [[VStr "A1"; VFloat (-2.5)%float; VFloat 53.25%float;
               VStr "Burglary"; VStr "Unknown"; VFloat 50.75%float];
              [VStr "A2"; VFloat (-2.75)%float; NaN;
               VStr "Theft"; VStr "No Further Action"; NaN];
              [VStr "A2"; VFloat (-2.75)%float; NaN;
               VStr "Theft"; VStr "Non-criminal Outcome"; NaN];
              [NaN; VFloat (-2.5)%float; VFloat 53.5%float;
               NaN; VStr "Unknown"; VFloat 51%float]] |}.

(** The aggregation of the staged sample. *)
Definition report : list ReportRow :=
  [mkReportRow (VStr "Burglary") (VStr "Unknown") 1;
   mkReportRow (VStr "Theft") (VStr "No Further Action") 1;
   mkReportRow (VStr "Theft") (VStr "Non-criminal Outcome") 1].

(** Outcomes in which no [Crime ID] occurs twice. *)
Definition single_outcomes : DataFrame :=
  {| columns := ["Crime ID"; "Outcome type"];
     rows := [[VStr "A2"; VStr "Unable to prosecute suspect"];
              [VStr "A9"; VStr "Local resolution"]] |}.

(** Incidents that bring an [Outcome type] column of their own. *)
Definition incidents_with_outcome_type : DataFrame :=
  {| columns := ["Crime ID"; "Reported by"; "Location"; "Crime type";
                 "Last outcome category"; "Context"; "Outcome type"];
     rows := [[VStr "A1"; VStr "Cheshire Constabulary"; VStr "On or near Mill Lane";
               VStr "Burglary"; VStr "Under investigation"; NaN;
               VStr "Local resolution"]] |}.


(** The merged sample with its [Final Outcome] column. *)
Definition with_final_outcome : DataFrame :=
  Eval vm_compute in
    match finaloutcome Sample.merged with
    | Ok a => a
    | Raise _ => Sample.merged
    end.

End Scenario.

(** * Properties *)

(** ** Lists, rows and labels *)

(** Closes a goal from [H : In s [l1; ...; ln]] when [s] is a literal other
    than the [li]. *)
Ltac not_among H :=
  simpl in H; repeat (destruct H as [H|H]; [discriminate H|]); destruct H.

Lemma mem_In (l : string) (ls : list string) : mem l ls = true <-> In l ls.
Proof.
  unfold mem. rewrite existsb_exists. split.
  - intros [x [Hin Heq]]. apply String.eqb_eq in Heq. now subst.
  - intros Hin. exists l. split; [assumption | apply String.eqb_refl].
Qed.

Lemma mem_false (l : string) (ls : list string) : mem l ls = false <-> ~ In l ls.
Proof.
  split; intros H.
  - intros Hin. apply mem_In in Hin. congruence.
  - destruct (mem l ls) eqn:E; [|reflexivity].
    exfalso. apply H. now apply mem_In.
Qed.

Lemma traverse_Forall2 {A B : Type} (f : A -> result B) (l : list A) (bs : list B) :
  traverse f l = Ok bs -> Forall2 (fun a b => f a = Ok b) l bs.
Proof.
  revert bs. induction l as [|a l IH]; intros bs H; simpl in H.
  - injection H as <-. constructor.
  - destruct (f a) as [b|e] eqn:Hfa; simpl in H; [|discriminate].
    destruct (traverse f l) as [bs'|e] eqn:Hl; simpl in H; [|discriminate].
    injection H as <-. constructor; [assumption | now apply IH].
Qed.

Lemma traverse_total {A B : Type} (f : A -> result B) (l : list A) :
  Forall (fun a => exists b, f a = Ok b) l -> exists bs, traverse f l = Ok bs.
Proof.
  induction 1 as [|a l [b Hb] _ [bs IH]]; simpl.
  - now exists [].
  - exists (b :: bs). now rewrite Hb, IH.
Qed.

Lemma Forall2_combine_map {A B C : Type} (R : A -> B -> Prop) (g : A * B -> C)
      (l : list A) (bs : list B) :
  Forall2 R l bs ->
  Forall2 (fun a c => exists b, R a b /\ c = g (a, b)) l (map g (combine l bs)).
Proof.
  induction 1 as [|a b l bs Hab _ IH]; simpl; constructor.
  - now exists b.
  - assumption.
Qed.

Lemma Forall2_weaken {A B : Type} (P Q : A -> B -> Prop) (l : list A) (l' : list B) :
  (forall a b, In a l -> P a b -> Q a b) -> Forall2 P l l' -> Forall2 Q l l'.
Proof.
  intros HPQ H. induction H as [|a b l l' Hab _ IH]; constructor.
  - apply HPQ; [now left | assumption].
  - apply IH. intros a' b' Hin. apply HPQ. now right.
Qed.

Lemma row_lookup_mem (cols : list string) (r : list value) (l : string) :
  List.length r = List.length cols ->
  mem l cols = true -> exists v, row_lookup cols r l = Some v.
Proof.
  revert r. induction cols as [|c cs IH]; intros r Hlen Hmem.
  - discriminate.
  - destruct r as [|x xs]; [discriminate|]. simpl in *.
    rewrite String.eqb_sym in Hmem.
    destruct (String.eqb c l).
    + now exists x.
    + apply IH; [now injection Hlen | assumption].
Qed.

Lemma row_set_length (cols : list string) (r : list value) (l : string) (v : value) :
  List.length r = List.length cols ->
  List.length (row_set cols r l v)
  = List.length (if mem l cols then cols else cols ++ [l]).
Proof.
  revert r. induction cols as [|c cs IH]; intros r Hlen.
  - destruct r; [reflexivity | discriminate].
  - destruct r as [|x xs]; [discriminate|]. simpl.
    rewrite (String.eqb_sym l c).
    destruct (String.eqb c l); simpl.
    + assumption.
    + rewrite IH by now injection Hlen.
      destruct (mem l cs); reflexivity.
Qed.

(** After [df[l] = v] the row holds [v] under [l]. *)
Lemma row_lookup_set_same (cols : list string) (r : list value) (l : string) (v : value) :
  List.length r = List.length cols ->
  row_lookup (if mem l cols then cols else cols ++ [l]) (row_set cols r l v) l = Some v.
Proof.
  revert r. induction cols as [|c cs IH]; intros r Hlen.
  - destruct r; [|discriminate]. simpl. now rewrite String.eqb_refl.
  - destruct r as [|x xs]; [discriminate|]. simpl.
    rewrite (String.eqb_sym l c).
    destruct (String.eqb c l) eqn:Hcl; simpl.
    + now rewrite Hcl.
    + specialize (IH xs). destruct (mem l cs); simpl; rewrite Hcl; apply IH;
        now injection Hlen.
Qed.

(** ... and what it held under every other label. *)
Lemma row_lookup_set_other (cols : list string) (r : list value) (l l' : string) (v : value) :
  List.length r = List.length cols ->
  l' <> l ->
  row_lookup (if mem l cols then cols else cols ++ [l]) (row_set cols r l v) l'
  = row_lookup cols r l'.
Proof.
  intros Hlen Hne. revert r Hlen. induction cols as [|c cs IH]; intros r Hlen.
  - destruct r; [|discriminate]. simpl.
    apply String.eqb_neq in Hne. rewrite String.eqb_sym in Hne. now rewrite Hne.
  - destruct r as [|x xs]; [discriminate|]. simpl.
    rewrite (String.eqb_sym l c).
    destruct (String.eqb c l) eqn:Hcl; simpl.
    + apply String.eqb_eq in Hcl. subst c.
      apply String.eqb_neq in Hne. rewrite String.eqb_sym in Hne. now rewrite Hne.
    + specialize (IH xs). destruct (mem l cs); simpl;
        destruct (String.eqb c l'); try reflexivity; apply IH; now injection Hlen.
Qed.

Lemma row_lookup_nil (cols : list string) (l : string) : row_lookup cols [] l = None.
Proof. now destruct cols. Qed.

(** A dropped label is gone from the row, every other label keeps its
    value. *)
Lemma row_lookup_drop (cols : list string) (r : list value) (labels : list string)
      (l : string) :
  row_lookup (filter (fun c => negb (mem c labels)) cols) (row_drop cols r labels) l
  = if mem l labels then None else row_lookup cols r l.
Proof.
  revert r. induction cols as [|c cs IH]; intros r.
  - simpl. destruct r; now destruct (mem l labels).
  - destruct r as [|x xs].
    + simpl row_drop. rewrite !row_lookup_nil. now destruct (mem l labels).
    + simpl. destruct (mem c labels) eqn:Hc; simpl.
      * rewrite IH. destruct (String.eqb_spec c l) as [->|_]; [|reflexivity].
        now rewrite Hc.
      * destruct (String.eqb_spec c l) as [->|_]; [now rewrite Hc | apply IH].
Qed.

(** ** Classification *)

Lemma py_in_str (s : string) (l : list string) : py_in (VStr s) l = true <-> In s l.
Proof.
  unfold py_in. rewrite existsb_exists. split.
  - intros [t [Hin Heq]]. simpl in Heq. apply String.eqb_eq in Heq. now subst.
  - intros Hin. exists s. split; [assumption | apply String.eqb_refl].
Qed.

Lemma py_in_float (f : float) (l : list string) : py_in (VFloat f) l = false.
Proof. induction l; [reflexivity | assumption]. Qed.

Lemma glossary_disjoint (s : string) :
  (In s Glossary.No_Further_Action -> ~ In s Glossary.Non_criminal_Outcome) /\
  (In s Glossary.No_Further_Action -> ~ In s Glossary.Public_Interest_Consideration) /\
  (In s Glossary.Non_criminal_Outcome -> ~ In s Glossary.Public_Interest_Consideration).
Proof.
  repeat split; intros H H'; simpl in H, H';
    repeat (destruct H as [H|H]; [subst s|]); try contradiction;
    repeat (destruct H' as [H'|H']; [discriminate H'|]); contradiction.
Qed.

(** On text, the cascade of [categorize_outcome] is the glossary's case
    distinction. *)
Lemma categorize_outcome_str (s : string) :
  (In s Glossary.No_Further_Action /\ categorize_outcome (VStr s) = "No Further Action") \/
  (In s Glossary.Non_criminal_Outcome /\ categorize_outcome (VStr s) = "Non-criminal Outcome") \/
  (In s Glossary.Public_Interest_Consideration
   /\ categorize_outcome (VStr s) = "Public Interest Consideration") \/
  (~ Glossary.named s /\ categorize_outcome (VStr s) = "Unknown").
Proof.
  assert (E : categorize_outcome (VStr s)
              = if py_in (VStr s) Glossary.No_Further_Action then "No Further Action"
                else if py_in (VStr s) Glossary.Non_criminal_Outcome
                     then "Non-criminal Outcome"
                     else if py_in (VStr s) Glossary.Public_Interest_Consideration
                          then "Public Interest Consideration"
                          else "Unknown") by reflexivity.
  rewrite E. clear E.
  destruct (py_in (VStr s) Glossary.No_Further_Action) eqn:H1.
  { left. split; [now apply py_in_str in H1 | reflexivity]. }
  destruct (py_in (VStr s) Glossary.Non_criminal_Outcome) eqn:H2.
  { right; left. split; [now apply py_in_str in H2 | reflexivity]. }
  destruct (py_in (VStr s) Glossary.Public_Interest_Consideration) eqn:H3.
  { right; right; left. split; [now apply py_in_str in H3 | reflexivity]. }
  right; right; right. split; [|reflexivity].
  intros [H|[H|H]]; apply py_in_str in H; congruence.
Qed.

Lemma categorize_outcome_float (f : float) : categorize_outcome (VFloat f) = "Unknown".
Proof. unfold categorize_outcome. now rewrite !py_in_float. Qed.

(** C2: [categorize_outcome] is total with values among the four fixed
    labels, which are distinct, so every input has exactly one of them; the
    three label sets of the code are the glossary's lists, which are pairwise
    disjoint; a value gets one of the three named labels exactly when it is a
    text of the corresponding list, and [Unknown] exactly when it is in none
    of them, as every missing value and the empty text are. *)
Theorem categorize_outcome_total_and_exact :
  (forall v, In (categorize_outcome v) Glossary.categories) /\
  NoDup Glossary.categories /\
  (forall s, (In s Glossary.No_Further_Action -> ~ In s Glossary.Non_criminal_Outcome) /\
             (In s Glossary.No_Further_Action -> ~ In s Glossary.Public_Interest_Consideration) /\
             (In s Glossary.Non_criminal_Outcome -> ~ In s Glossary.Public_Interest_Consideration)) /\
  (forall v, categorize_outcome v = "No Further Action"
             <-> exists s, v = VStr s /\ In s Glossary.No_Further_Action) /\
  (forall v, categorize_outcome v = "Non-criminal Outcome"
             <-> exists s, v = VStr s /\ In s Glossary.Non_criminal_Outcome) /\
  (forall v, categorize_outcome v = "Public Interest Consideration"
             <-> exists s, v = VStr s /\ In s Glossary.Public_Interest_Consideration) /\
  (forall v, categorize_outcome v = "Unknown"
             <-> ~ exists s, v = VStr s /\ Glossary.named s) /\
  (forall v, pd_notnull v = false -> categorize_outcome v = "Unknown") /\
  categorize_outcome (VStr "") = "Unknown" /\
  categorize_outcome (VStr "Unable to prosecute suspect") = "No Further Action".
Proof.
  assert (Hcases : forall v,
            (exists s, v = VStr s /\ In s Glossary.No_Further_Action
                       /\ categorize_outcome v = "No Further Action") \/
            (exists s, v = VStr s /\ In s Glossary.Non_criminal_Outcome
                       /\ categorize_outcome v = "Non-criminal Outcome") \/
            (exists s, v = VStr s /\ In s Glossary.Public_Interest_Consideration
                       /\ categorize_outcome v = "Public Interest Consideration") \/
            ((~ exists s, v = VStr s /\ Glossary.named s)
             /\ categorize_outcome v = "Unknown")).
  { intros [s|f].
    - destruct (categorize_outcome_str s) as [[H E]|[[H E]|[[H E]|[H E]]]].
      + left. now exists s.
      + right; left. now exists s.
      + right; right; left. now exists s.
      + right; right; right. split; [|assumption].
        intros [t [Heq Ht]]. injection Heq as <-. now apply H.
    - right; right; right. split; [|apply categorize_outcome_float].
      intros [t [Heq _]]. discriminate. }
  assert (Hnamed : forall v s, v = VStr s -> Glossary.named s ->
                               categorize_outcome v <> "Unknown").
  { intros v s -> Hs.
    destruct (categorize_outcome_str s) as [[_ E]|[[_ E]|[[_ E]|[H _]]]];
      try (rewrite E; discriminate). contradiction. }
  split; [|split; [|split; [|split; [|split; [|split; [|split; [|split; [|split]]]]]]]].
  - intros v. unfold Glossary.categories.
    destruct (Hcases v) as [[s [_ [_ E]]]|[[s [_ [_ E]]]|[[s [_ [_ E]]]|[_ E]]]];
      rewrite E; simpl; tauto.
  - unfold Glossary.categories.
    repeat constructor; simpl; intuition discriminate.
  - exact glossary_disjoint.
  - intros v. split.
    + intros E.
      destruct (Hcases v) as [[s [Hv [Hs _]]]|[[s [_ [_ E']]]|[[s [_ [_ E']]]|[_ E']]]];
        try (rewrite E in E'; discriminate). now exists s.
    + intros [s [-> Hs]].
      destruct (categorize_outcome_str s) as [[_ E]|[[H _]|[[H _]|[H _]]]];
        [assumption | | |].
      * now destruct (proj1 (glossary_disjoint s) Hs).
      * now destruct (proj1 (proj2 (glossary_disjoint s)) Hs).
      * exfalso. apply H. now left.
  - intros v. split.
    + intros E.
      destruct (Hcases v) as [[s [_ [_ E']]]|[[s [Hv [Hs _]]]|[[s [_ [_ E']]]|[_ E']]]];
        try (rewrite E in E'; discriminate). now exists s.
    + intros [s [-> Hs]].
      destruct (categorize_outcome_str s) as [[H _]|[[_ E]|[[H _]|[H _]]]];
        [ | assumption | |].
      * now destruct (proj1 (glossary_disjoint s) H).
      * now destruct (proj2 (proj2 (glossary_disjoint s)) Hs).
      * exfalso. apply H. right. now left.
  - intros v. split.
    + intros E.
      destruct (Hcases v) as [[s [_ [_ E']]]|[[s [_ [_ E']]]|[[s [Hv [Hs _]]]|[_ E']]]];
        try (rewrite E in E'; discriminate). now exists s.
    + intros [s [-> Hs]].
      destruct (categorize_outcome_str s) as [[H _]|[[H _]|[[_ E]|[H _]]]];
        [ | | assumption |].
      * now destruct (proj1 (proj2 (glossary_disjoint s)) H).
      * now destruct (proj2 (proj2 (glossary_disjoint s)) H).
      * exfalso. apply H. right. now right.
  - intros v. split.
    + intros E [s [Hv Hs]]. now apply (Hnamed v s).
    + intros Hnone.
      destruct (Hcases v) as [[s [Hv [Hs _]]]|[[s [Hv [Hs _]]]|[[s [Hv [Hs _]]]|[_ E]]]];
        try assumption; exfalso; apply Hnone; exists s; split; try assumption.
      * now left.
      * right. now left.
      * right. now right.
  - intros [s|f] H; [discriminate | apply categorize_outcome_float].
  - reflexivity.
  - reflexivity.
Qed.

(** ** Frames *)

Lemma distinct_NoDup (labels : list string) : distinct labels = true -> NoDup labels.
Proof.
  induction labels as [|l ls IH]; simpl; intros H.
  - constructor.
  - apply andb_prop in H. destruct H as [Hl Hls].
    constructor; [|now apply IH].
    apply mem_false. now destruct (mem l ls).
Qed.

Lemma well_formedb_sound (df : DataFrame) : well_formedb df = true -> well_formed df.
Proof.
  unfold well_formedb, well_formed, aligned. intros H.
  apply andb_prop in H. destruct H as [Hcols Hrows]. split.
  - now apply distinct_NoDup.
  - apply Forall_forall. intros r Hin.
    rewrite forallb_forall in Hrows. apply Nat.eqb_eq. now apply Hrows.
Qed.

Lemma aligned_row (df : DataFrame) (r : list value) :
  aligned df -> In r (rows df) -> List.length r = List.length (columns df).
Proof.
  unfold aligned. intros Hrows Hin. rewrite Forall_forall in Hrows. now apply Hrows.
Qed.

Lemma well_formed_row (df : DataFrame) (r : list value) :
  well_formed df -> In r (rows df) -> List.length r = List.length (columns df).
Proof. intros [_ Hrows]. now apply aligned_row. Qed.

(** The rows of [df[l] = vals], row by row. *)
Lemma setitem_rows (df : DataFrame) (l : string) (vals : list value)
      (R : list value -> value -> Prop) :
  Forall2 R (rows df) vals ->
  Forall2 (fun r r' => exists v, R r v /\ r' = row_set (columns df) r l v)
          (rows df) (rows (setitem df l vals)).
Proof.
  intros H. unfold setitem. simpl.
  apply (Forall2_combine_map R
           (fun rv => row_set (columns df) (fst rv) l (snd rv))). assumption.
Qed.

Lemma getitem_Forall2 (df : DataFrame) (l : string) (vals : list value) :
  getitem df l = Ok vals ->
  has_column df l = true /\
  Forall2 (fun r v => row_lookup (columns df) r l = Some v) (rows df) vals.
Proof.
  unfold getitem. destruct (has_column df l); [|discriminate].
  intros H. split; [reflexivity|].
  apply traverse_Forall2 in H.
  apply Forall2_weaken with (2 := H). intros r v _. unfold row_getitem.
  destruct (row_lookup (columns df) r l); [|discriminate]. now intros [= ->].
Qed.

Lemma getitem_total (df : DataFrame) (l : string) :
  well_formed df -> has_column df l = true -> exists vals, getitem df l = Ok vals.
Proof.
  intros Hwf Hl. unfold getitem. rewrite Hl. apply traverse_total.
  apply Forall_forall. intros r Hin. unfold row_getitem.
  destruct (row_lookup_mem (columns df) r l) as [v ->]; [|assumption|now exists v].
  now apply well_formed_row.
Qed.

Lemma setitem_aligned (df : DataFrame) (l : string) (vals : list value) :
  aligned df -> aligned (setitem df l vals).
Proof.
  intros Hrows. unfold aligned. simpl. apply Forall_forall. intros r' Hin.
  apply in_map_iff in Hin. destruct Hin as [[r v] [<- Hin]]. simpl.
  unfold has_column. apply row_set_length.
  apply in_combine_l in Hin. now apply aligned_row.
Qed.

(** ** The derived outcome *)

Lemma final_outcome_of_row_cases (cols : list string) (r : list value) (v : value) :
  final_outcome_of_row cols r = Ok v ->
  exists outcome_type,
    row_lookup cols r "Outcome type" = Some outcome_type /\
    (pd_notnull outcome_type = true -> v = outcome_type) /\
    (pd_notnull outcome_type = false ->
     row_lookup cols r "Last outcome category" = Some v).
Proof.
  unfold final_outcome_of_row, row_getitem.
  destruct (row_lookup cols r "Outcome type") as [ot|]; simpl; [|discriminate].
  intros H. exists ot. split; [reflexivity|].
  destruct (pd_notnull ot).
  - split; [intros _; congruence | discriminate].
  - split; [discriminate | intros _].
    destruct (row_lookup cols r "Last outcome category"); congruence.
Qed.

(** C3: when [finaloutcome] gives a frame, it has one row per row of the
    merged frame, and row by row its [Final Outcome] is the [Outcome type]
    of the row when that is not null, whatever [Last outcome category]
    holds, and otherwise the [Last outcome category] of the row, null or
    not; every other field of the row is as it was. *)
Theorem finaloutcome_row_by_row (df df' : DataFrame) :
  well_formed df ->
  finaloutcome df = Ok df' ->
  Forall2
    (fun r r' =>
       (exists outcome_type,
           row_lookup (columns df) r "Outcome type" = Some outcome_type /\
           (pd_notnull outcome_type = true ->
            row_lookup (columns df') r' "Final Outcome" = Some outcome_type) /\
           (pd_notnull outcome_type = false ->
            exists last,
              row_lookup (columns df) r "Last outcome category" = Some last /\
              row_lookup (columns df') r' "Final Outcome" = Some last)) /\
       (forall l, l <> "Final Outcome" ->
                  row_lookup (columns df') r' l = row_lookup (columns df) r l))
    (rows df) (rows df').
Proof.
  intros Hwf. unfold finaloutcome, apply_rows.
  destruct (traverse (final_outcome_of_row (columns df)) (rows df)) as [vals|e] eqn:Hvals;
    simpl; [|discriminate].
  intros H. injection H as <-.
  apply traverse_Forall2 in Hvals.
  apply (setitem_rows df "Final Outcome") in Hvals.
  apply Forall2_weaken with (2 := Hvals).
  intros r r' Hin [v [Hv ->]].
  pose proof (well_formed_row df r Hwf Hin) as Hlen.
  apply final_outcome_of_row_cases in Hv. destruct Hv as [ot [Hot [Hthen Helse]]].
  split.
  - exists ot. split; [assumption|]. split.
    + intros Hnn. rewrite <- (Hthen Hnn). simpl. now apply row_lookup_set_same.
    + intros Hnull. exists v. split; [now apply Helse|].
      simpl. now apply row_lookup_set_same.
  - intros l Hl. simpl. now apply row_lookup_set_other.
Qed.

Lemma finaloutcome_row_by_row_witness :
  exists df',
    finaloutcome Sample.merged = Ok df' /\
    Forall2
      (fun r r' =>
         (exists outcome_type,
             row_lookup (columns Sample.merged) r "Outcome type" = Some outcome_type /\
             (pd_notnull outcome_type = true ->
              row_lookup (columns df') r' "Final Outcome" = Some outcome_type) /\
             (pd_notnull outcome_type = false ->
              exists last,
                row_lookup (columns Sample.merged) r "Last outcome category" = Some last /\
                row_lookup (columns df') r' "Final Outcome" = Some last)) /\
         (forall l, l <> "Final Outcome" ->
                    row_lookup (columns df') r' l = row_lookup (columns Sample.merged) r l))
      (rows Sample.merged) (rows df').
Proof.
  eexists. split.
  - reflexivity.
  - apply finaloutcome_row_by_row.
    + apply well_formedb_sound. reflexivity.
    + reflexivity.
Defined.

(** On a well-formed frame that has both columns [finaloutcome] does give a
    frame. *)
Lemma finaloutcome_total (df : DataFrame) :
  well_formed df ->
  has_column df "Outcome type" = true ->
  has_column df "Last outcome category" = true ->
  exists df', finaloutcome df = Ok df'.
Proof.
  intros Hwf Hot Hlast. unfold finaloutcome, apply_rows.
  destruct (traverse_total (final_outcome_of_row (columns df)) (rows df)) as [vals ->].
  - apply Forall_forall. intros r Hin.
    pose proof (well_formed_row df r Hwf Hin) as Hlen.
    unfold final_outcome_of_row, row_getitem.
    destruct (row_lookup_mem (columns df) r "Outcome type" Hlen Hot) as [ot ->].
    destruct (row_lookup_mem (columns df) r "Last outcome category" Hlen Hlast) as [last ->].
    simpl. destruct (pd_notnull ot); eauto.
  - simpl. eauto.
Qed.

(** ** The left join *)

Lemma Forall2_filter {A B : Type} (R : A -> B -> Prop) (p : A -> bool) (q : B -> bool)
      (l : list A) (l' : list B) :
  (forall a b, R a b -> p a = q b) ->
  Forall2 R l l' -> Forall2 R (filter p l) (filter q l').
Proof.
  intros Hpq. induction 1 as [|a b l l' Hab _ IH]; simpl.
  - constructor.
  - rewrite <- (Hpq a b Hab). destruct (p a); [constructor|]; assumption.
Qed.

Lemma Forall2_map_r {A B C : Type} (R : A -> C -> Prop) (g : B -> C)
      (l : list A) (l' : list B) :
  Forall2 (fun a b => R a (g b)) l l' -> Forall2 R l (map g l').
Proof. induction 1; simpl; constructor; assumption. Qed.

Lemma concat_nonempty_length {A B : Type} (l : list A) (blocks : list (list B)) :
  Forall2 (fun _ block => block <> []) l blocks ->
  List.length l <= List.length (List.concat blocks).
Proof.
  induction 1 as [|a block l blocks Hne _ IH]; simpl.
  - lia.
  - rewrite length_app. destruct block; [contradiction | simpl; lia].
Qed.

(** What [df_outcomes[['Crime ID', 'Outcome type']]] holds, row by row. *)
Lemma select_outcomes (df_outcomes picked : DataFrame) :
  select_columns df_outcomes ["Crime ID"; "Outcome type"] = Ok picked ->
  columns picked = ["Crime ID"; "Outcome type"] /\
  Forall2 (fun o p => exists id ot,
               row_lookup (columns df_outcomes) o "Crime ID" = Some id /\
               row_lookup (columns df_outcomes) o "Outcome type" = Some ot /\
               p = [id; ot])
          (rows df_outcomes) (rows picked).
Proof.
  unfold select_columns.
  destruct (filter _ _); [|discriminate].
  destruct (traverse _ (rows df_outcomes)) as [rs|e] eqn:Hrs; simpl; [|discriminate].
  intros H. injection H as <-. simpl. split; [reflexivity|].
  apply traverse_Forall2 in Hrs.
  apply Forall2_weaken with (2 := Hrs). intros o p _. simpl. unfold row_getitem.
  destruct (row_lookup (columns df_outcomes) o "Crime ID") as [id|]; simpl; [|discriminate].
  destruct (row_lookup (columns df_outcomes) o "Outcome type") as [ot|]; simpl; [|discriminate].
  intros H. injection H as <-. now exists id, ot.
Qed.

Lemma merge_row_block (df df_outcomes picked : DataFrame) (l : list value)
      (block : list (list value)) :
  select_columns df_outcomes ["Crime ID"; "Outcome type"] = Ok picked ->
  merge_row (columns df) (columns picked) (rows picked) "Crime ID" l = Ok block ->
  block_of df df_outcomes l block.
Proof.
  intros Hsel. apply select_outcomes in Hsel. destruct Hsel as [Hcols Hrows].
  rewrite Hcols. unfold merge_row, row_getitem.
  destruct (row_lookup (columns df) l "Crime ID") as [k|] eqn:Hk; cbn [bind];
    [|discriminate].
  assert (Hm : Forall2 (fun o p => exists id ot,
                           row_lookup (columns df_outcomes) o "Crime ID" = Some id /\
                           row_lookup (columns df_outcomes) o "Outcome type" = Some ot /\
                           p = [id; ot])
                       (outcome_matches df_outcomes k)
                       (matching ["Crime ID"; "Outcome type"] (rows picked) "Crime ID" k)).
  { unfold outcome_matches, matching. apply Forall2_filter with (2 := Hrows).
    intros o p [id [ot [Hid [_ ->]]]]. now rewrite Hid. }
  intros H. exists k. split; [assumption|].
  destruct (matching ["Crime ID"; "Outcome type"] (rows picked) "Crime ID" k)
    as [|p ps] eqn:Hmatch.
  - injection H as <-. split; [reflexivity|].
    intros Hne. inversion Hm as [Hnil|]. now rewrite <- Hnil in Hne.
  - injection H as <-. split.
    + intros Hnil. rewrite Hnil in Hm. inversion Hm.
    + intros _.
      change (Forall2
                (fun o merged_row =>
                   exists outcome_type,
                     row_lookup (columns df_outcomes) o "Outcome type" = Some outcome_type /\
                     merged_row = l ++ [outcome_type])
                (outcome_matches df_outcomes k)
                (map (fun m => l ++ row_drop ["Crime ID"; "Outcome type"] m ["Crime ID"])
                     (p :: ps))).
      apply Forall2_map_r.
      apply Forall2_weaken with (2 := Hm).
      intros o q _ [id [ot [_ [Hot ->]]]]. now exists ot.
Qed.

Lemma block_of_nonempty (df df_outcomes : DataFrame) (l : list value)
      (block : list (list value)) :
  block_of df df_outcomes l block -> block <> [].
Proof.
  intros [k [_ [Hnone Hsome]]].
  destruct (outcome_matches df_outcomes k) as [|o os] eqn:Hm.
  - rewrite Hnone by reflexivity. discriminate.
  - specialize (Hsome ltac:(discriminate)). inversion Hsome. discriminate.
Qed.

Lemma no_overlap (cols : list string) (label key : string) :
  ~ In label cols ->
  filter (fun c => mem c [label]) (filter (fun c => negb (String.eqb c key)) cols) = [].
Proof.
  induction cols as [|c cs IH]; intros Hno; [reflexivity|]. simpl.
  assert (Hc : String.eqb c label = false).
  { apply String.eqb_neq. intros ->. apply Hno. now left. }
  assert (Hcs : ~ In label cs) by (intros Hin; apply Hno; now right).
  destruct (negb (String.eqb c key)); simpl; [rewrite Hc; simpl|]; now apply IH.
Qed.

Lemma suffixed_none (cols : list string) (suffix : string) :
  map (suffixed [] suffix) cols = cols.
Proof. induction cols as [|c cs IH]; simpl; [reflexivity | now rewrite IH]. Qed.

(** Under a new label the value goes to the end of the row. *)
Lemma row_set_new (cols : list string) (r : list value) (l : string) (v : value) :
  ~ In l cols -> List.length r = List.length cols -> row_set cols r l v = r ++ [v].
Proof.
  revert r. induction cols as [|c cs IH]; intros r Hno Hlen.
  - destruct r; [reflexivity | discriminate].
  - destruct r as [|x xs]; [discriminate|]. simpl.
    destruct (String.eqb_spec c l) as [->|_].
    + exfalso. apply Hno. now left.
    + f_equal. apply IH; [intros Hin; apply Hno; now right | now injection Hlen].
Qed.

(** The merged frame as blocks of rows, one block per incident row. *)
Lemma merge_data_blocks (df df_outcomes m : DataFrame) :
  merge_data df df_outcomes = Ok m ->
  exists blocks,
    rows m = List.concat blocks /\
    Forall2 (block_of df df_outcomes) (rows df) blocks /\
    (has_column df "Outcome type" = false ->
     columns m = columns df ++ ["Outcome type"]).
Proof.
  unfold merge_data.
  destruct (select_columns df_outcomes ["Crime ID"; "Outcome type"]) as [picked|e] eqn:Hsel;
    simpl; [|discriminate].
  unfold pd_merge_left.
  destruct (negb (has_column df "Crime ID") || negb (has_column picked "Crime ID"));
    [discriminate|].
  destruct (traverse _ (rows df)) as [blocks|e] eqn:Hblocks; simpl; [|discriminate].
  intros H. injection H as <-. exists blocks. simpl. split; [reflexivity|]. split.
  - apply traverse_Forall2 in Hblocks.
    apply Forall2_weaken with (2 := Hblocks). intros l block _.
    now apply merge_row_block.
  - intros Hno. destruct (select_outcomes _ _ Hsel) as [-> _]. simpl.
    pose proof (no_overlap (columns df) "Outcome type" "Crime ID"
                           (proj1 (mem_false _ _) Hno)) as Hover.
    simpl in Hover. rewrite Hover. simpl.
    now rewrite suffixed_none.
Qed.

Lemma staged_table_steps (df df_outcomes s : DataFrame) :
  staged_table df df_outcomes = Ok s ->
  exists m a b,
    merge_data df df_outcomes = Ok m /\ finaloutcome m = Ok a /\
    apply_categorization a = Ok b /\ del_values_street b = Ok s.
Proof.
  unfold staged_table.
  destruct (merge_data df df_outcomes) as [m|e] eqn:Hm; cbn [bind]; [|discriminate].
  destruct (finaloutcome m) as [a|e] eqn:Ha; cbn [bind]; [|discriminate].
  destruct (apply_categorization a) as [b|e] eqn:Hb; cbn [bind]; [|discriminate].
  intros H. exists m, a, b. repeat split; assumption.
Qed.

(** The steps after the merge keep the number of rows. *)
Lemma after_merge_row_count (m a b s : DataFrame) :
  finaloutcome m = Ok a ->
  apply_categorization a = Ok b ->
  del_values_street b = Ok s ->
  List.length (rows s) = List.length (rows m).
Proof.
  intros Ha Hb Hs.
  unfold finaloutcome, apply_rows in Ha.
  destruct (traverse (final_outcome_of_row (columns m)) (rows m)) as [vals|e] eqn:Hvals;
    cbn [bind] in Ha; [|discriminate].
  injection Ha as <-. apply traverse_Forall2 in Hvals.
  pose proof (Forall2_length (setitem_rows m "Final Outcome" vals _ Hvals)) as L1.
  unfold apply_categorization in Hb.
  destruct (getitem (setitem m "Final Outcome" vals) "Final Outcome") as [finals|e] eqn:Hf;
    cbn [bind] in Hb; [|discriminate].
  injection Hb as <-. apply getitem_Forall2 in Hf. destruct Hf as [_ Hf].
  assert (Hf' : Forall2 (fun (_ : list value) (_ : value) => True)
                        (rows (setitem m "Final Outcome" vals))
                        (map (fun v => VStr (categorize_outcome v)) finals)).
  { apply Forall2_map_r. apply Forall2_weaken with (2 := Hf). trivial. }
  pose proof (Forall2_length
                (setitem_rows _ "Broad Outcome Category" _ _ Hf')) as L2.
  unfold del_values_street, drop_columns in Hs.
  destruct (filter _ cols_to_delete); [|discriminate].
  injection Hs as <-.
  etransitivity; [apply length_map|].
  transitivity (List.length (rows (setitem m "Final Outcome" vals)));
    symmetry; assumption.
Qed.

(** C5: when the merge gives a frame, its rows are the incident rows in
    their order, each one in a block of its own: an incident whose
    [Crime ID] matches no outcome row appears once, with the missing value
    in the place of [Outcome type]; an incident whose [Crime ID] matches k
    outcome rows appears k times, once with the [Outcome type] of each of
    them.  So the merged frame, and the staged table made of it, have at
    least as many rows as the incidents.  The value of the outcome side is
    found under the label [Outcome type] when the incidents carry no column
    of that name. *)
Theorem merge_data_preserves_incidents (df df_outcomes m : DataFrame) :
  merge_data df df_outcomes = Ok m ->
  List.length (rows df) <= List.length (rows m) /\
  (forall s, staged_table df df_outcomes = Ok s ->
             List.length (rows df) <= List.length (rows s)) /\
  exists blocks,
    rows m = List.concat blocks /\
    Forall2
      (fun l block =>
         exists k,
           row_lookup (columns df) l "Crime ID" = Some k /\
           (outcome_matches df_outcomes k = [] -> block = [l ++ [NaN]]) /\
           (outcome_matches df_outcomes k <> [] ->
            List.length block = List.length (outcome_matches df_outcomes k) /\
            Forall2 (fun o merged_row =>
                       exists outcome_type,
                         row_lookup (columns df_outcomes) o "Outcome type"
                         = Some outcome_type /\
                         merged_row = l ++ [outcome_type])
                    (outcome_matches df_outcomes k) block) /\
           (well_formed df -> has_column df "Outcome type" = false ->
            In l (rows df) ->
            forall merged_row, In merged_row block ->
              exists outcome_type,
                merged_row = l ++ [outcome_type] /\
                row_lookup (columns m) merged_row "Outcome type" = Some outcome_type))
      (rows df) blocks.
Proof.
  intros Hm. destruct (merge_data_blocks df df_outcomes m Hm) as [blocks [Hrows [Hblocks Hcols]]].
  assert (Hcount : List.length (rows df) <= List.length (rows m)).
  { rewrite Hrows. apply concat_nonempty_length.
    apply Forall2_weaken with (2 := Hblocks). intros l block _.
    apply block_of_nonempty. }
  split; [assumption|]. split.
  - intros s Hs. destruct (staged_table_steps _ _ _ Hs) as [m' [a [b [Hm' [Ha [Hb Hdrop]]]]]].
    assert (m' = m) as -> by congruence.
    now rewrite (after_merge_row_count m a b s Ha Hb Hdrop).
  - exists blocks. split; [assumption|].
    apply Forall2_weaken with (2 := Hblocks).
    intros l block _ [k [Hk [Hnone Hsome]]]. exists k.
    split; [assumption|]. split; [assumption|]. split.
    + intros Hne. specialize (Hsome Hne). split; [|assumption].
      symmetry. eapply Forall2_length. eassumption.
    + intros Hwf Hno Hin merged_row Hmr.
      assert (Hex : exists outcome_type, merged_row = l ++ [outcome_type]).
      { destruct (outcome_matches df_outcomes k) as [|o os] eqn:Hmatch.
        - rewrite Hnone in Hmr by reflexivity. destruct Hmr as [<-|[]]. now exists NaN.
        - specialize (Hsome ltac:(discriminate)).
          clear - Hsome Hmr. induction Hsome as [|o' mr os' block [ot [_ ->]] _ IH].
          + destruct Hmr.
          + destruct Hmr as [<-|Hmr]; [now exists ot | now apply IH]. }
      destruct Hex as [ot ->]. exists ot. split; [reflexivity|].
      rewrite (Hcols Hno).
      pose proof (well_formed_row df l Hwf Hin) as Hlen.
      pose proof (row_lookup_set_same (columns df) l "Outcome type" ot Hlen) as Hset.
      unfold has_column in Hno. rewrite Hno in Hset.
      assert (Happ : row_set (columns df) l "Outcome type" ot = l ++ [ot]).
      { apply row_set_new; [now apply mem_false | assumption]. }
      now rewrite <- Happ.
Qed.

Lemma merge_data_preserves_incidents_witness :
  merge_data Sample.incidents Sample.outcomes = Ok Sample.merged /\
  List.length (rows Sample.incidents) <= List.length (rows Sample.merged).
Proof.
  split.
  - reflexivity.
  - apply (proj1 (merge_data_preserves_incidents Sample.incidents Sample.outcomes
                                                 Sample.merged eq_refl)).
Defined.

Lemma block_of_rows (df df_outcomes : DataFrame) (l : list value)
      (block : list (list value)) (merged_row : list value) :
  block_of df df_outcomes l block -> In merged_row block ->
  exists outcome_type, merged_row = l ++ [outcome_type].
Proof.
  intros [k [_ [Hnone Hsome]]] Hin.
  destruct (outcome_matches df_outcomes k) as [|o os] eqn:Hmatch.
  - rewrite Hnone in Hin by reflexivity. destruct Hin as [<-|[]]. now exists NaN.
  - specialize (Hsome ltac:(discriminate)).
    clear - Hsome Hin. induction Hsome as [|o' mr os' block [ot [_ ->]] _ IH].
    + destruct Hin.
    + destruct Hin as [<-|Hin]; [now exists ot | now apply IH].
Qed.

Lemma merge_data_columns_length (df df_outcomes m : DataFrame) :
  merge_data df df_outcomes = Ok m ->
  List.length (columns m) = S (List.length (columns df)).
Proof.
  unfold merge_data.
  destruct (select_columns df_outcomes ["Crime ID"; "Outcome type"]) as [picked|e] eqn:Hsel;
    simpl; [|discriminate].
  destruct (select_outcomes _ _ Hsel) as [Hcols _].
  unfold pd_merge_left. rewrite Hcols.
  destruct (negb (has_column df "Crime ID") || negb (has_column picked "Crime ID"));
    [discriminate|].
  destruct (traverse _ (rows df)) as [blocks|e]; simpl; [|discriminate].
  intros H. injection H as <-. simpl.
  rewrite length_app, length_map. simpl. lia.
Qed.

(** A merge of aligned incidents is aligned. *)
Lemma merge_data_aligned (df df_outcomes m : DataFrame) :
  aligned df -> merge_data df df_outcomes = Ok m -> aligned m.
Proof.
  intros Hal Hm. unfold aligned. rewrite (merge_data_columns_length _ _ _ Hm).
  destruct (merge_data_blocks _ _ _ Hm) as [blocks [-> [Hblocks _]]].
  apply Forall_forall. intros mr Hin. apply in_concat in Hin.
  destruct Hin as [block [Hblock Hmr]].
  assert (Hl : exists l, In l (rows df) /\ block_of df df_outcomes l block).
  { clear - Hblocks Hblock. induction Hblocks as [|l b ls bs Hlb _ IH].
    - destruct Hblock.
    - destruct Hblock as [<-|Hblock].
      + exists l. split; [now left | assumption].
      + destruct (IH Hblock) as [l' [Hin' Hb']]. exists l'. split; [now right | assumption]. }
  destruct Hl as [l [Hin Hb]].
  destruct (block_of_rows _ _ _ _ _ Hb Hmr) as [ot ->].
  rewrite length_app, (aligned_row df l Hal Hin). simpl. lia.
Qed.


(** ** The staged table *)

Lemma Forall2_compose {A B C : Type} (P : A -> B -> Prop) (Q : B -> C -> Prop)
      (l1 : list A) (l2 : list B) (l3 : list C) :
  Forall2 P l1 l2 -> Forall2 Q l2 l3 ->
  Forall2 (fun a c => exists b, P a b /\ Q b c) l1 l3.
Proof.
  intros H. revert l3. induction H as [|a b l1 l2 Hab _ IH]; intros l3 HQ.
  - inversion HQ. constructor.
  - inversion HQ as [|b' c l2' l3' Hbc Hrest]; subst. constructor.
    + now exists b.
    + now apply IH.
Qed.

Lemma Forall2_map_self {A B : Type} (f : A -> B) (l : list A) :
  Forall2 (fun a b => b = f a) l (map f l).
Proof. induction l; simpl; constructor; [reflexivity | assumption]. Qed.

Lemma mem_filter (c : string) (p : string -> bool) (cols : list string) :
  mem c (filter p cols) = mem c cols && p c.
Proof.
  induction cols as [|x xs IH]; [reflexivity|]. simpl.
  destruct (p x) eqn:Hx; simpl; rewrite IH.
  - destruct (String.eqb_spec c x) as [->|_]; simpl; [now rewrite Hx | reflexivity].
  - destruct (String.eqb_spec c x) as [->|_]; simpl; [|reflexivity].
    rewrite Hx. now rewrite andb_false_r.
Qed.

Lemma has_column_setitem (df : DataFrame) (l c : string) (vals : list value) :
  has_column (setitem df l vals) c = has_column df c || String.eqb c l.
Proof.
  unfold has_column. simpl. unfold has_column.
  destruct (mem l (columns df)) eqn:Hl.
  - destruct (String.eqb_spec c l) as [->|_]; [|now rewrite orb_false_r].
    now rewrite Hl.
  - unfold mem. rewrite existsb_app. simpl. now rewrite orb_false_r.
Qed.

(** The three steps of staging that follow the merge, row by row: the
    staged row holds the category of the final outcome of the merged row
    under [Broad Outcome Category], nothing under the six dropped labels,
    and under every other label what the merged row held. *)
Lemma after_merge_rows (m a b s : DataFrame) :
  aligned m ->
  finaloutcome m = Ok a ->
  apply_categorization a = Ok b ->
  del_values_street b = Ok s ->
  Forall2
    (fun r r' =>
       exists final,
         final_outcome_of_row (columns m) r = Ok final /\
         row_lookup (columns s) r' "Broad Outcome Category"
         = Some (VStr (categorize_outcome final)) /\
         (forall l, l <> "Broad Outcome Category" ->
                    row_lookup (columns s) r' l
                    = if mem l cols_to_delete then None
                      else row_lookup (columns m) r l))
    (rows m) (rows s).
Proof.
  intros Hal Ha Hb Hs.
  unfold finaloutcome, apply_rows in Ha.
  destruct (traverse (final_outcome_of_row (columns m)) (rows m)) as [vals|e] eqn:Hvals;
    simpl in Ha; [|discriminate].
  injection Ha as <-.
  apply traverse_Forall2 in Hvals.
  pose proof (setitem_rows m "Final Outcome" vals _ Hvals) as F1.
  set (a := setitem m "Final Outcome" vals) in *.
  assert (Hala : aligned a) by now apply setitem_aligned.
  unfold apply_categorization in Hb.
  destruct (getitem a "Final Outcome") as [finals|e] eqn:Hfinals; simpl in Hb; [|discriminate].
  injection Hb as <-.
  apply getitem_Forall2 in Hfinals. destruct Hfinals as [_ F2].
  assert (F2' : Forall2 (fun ra v => exists f, row_lookup (columns a) ra "Final Outcome" = Some f
                                               /\ v = VStr (categorize_outcome f))
                        (rows a) (map (fun v => VStr (categorize_outcome v)) finals)).
  { apply Forall2_map_r. apply Forall2_weaken with (2 := F2).
    intros ra f _ Hf. now exists f. }
  pose proof (setitem_rows a "Broad Outcome Category" _ _ F2') as F3.
  set (b := setitem a "Broad Outcome Category" _) in *.
  unfold del_values_street, drop_columns in Hs.
  destruct (filter _ cols_to_delete); [|discriminate].
  injection Hs as <-. cbn [columns rows].
  pose proof (Forall2_map_self (fun r => row_drop (columns b) r cols_to_delete) (rows b)) as F4.
  pose proof (Forall2_compose _ _ _ _ _ (Forall2_compose _ _ _ _ _ F1 F3) F4) as F.
  apply Forall2_weaken with (2 := F).
  intros r rs Hin [rb [[ra [[v [Hv ->]] [v' [[f [Hf ->]] ->]]]] ->]].
  pose proof (aligned_row m r Hal Hin) as Hlen.
  assert (Hlena : List.length (row_set (columns m) r "Final Outcome" v)
                  = List.length (columns a)).
  { unfold a. simpl. unfold has_column. now apply row_set_length. }
  assert (f = v).
  { unfold a in Hf. simpl in Hf. unfold has_column in Hf.
    rewrite row_lookup_set_same in Hf by assumption. congruence. }
  subst f. exists v. split; [assumption|]. split.
  - etransitivity; [apply (row_lookup_drop (columns b) _ cols_to_delete)|].
    change (mem "Broad Outcome Category" cols_to_delete) with false. cbv iota.
    now apply (row_lookup_set_same (columns a)).
  - intros l Hl.
    etransitivity; [apply (row_lookup_drop (columns b) _ cols_to_delete)|].
    destruct (mem l cols_to_delete) eqn:Hdel; [reflexivity|].
    etransitivity; [apply (row_lookup_set_other (columns a)); assumption|].
    apply (row_lookup_set_other (columns m)); [assumption|].
    intros ->. discriminate.
Qed.

(** C7: a staged table has none of the six dropped columns, whatever the
    input, and it has the [Broad Outcome Category] column.  Row by row it
    holds the merged row without the six fields and with the category of
    its final outcome: nothing else of the dropped fields is left in it. *)
Theorem staged_table_drops_columns (df df_outcomes s : DataFrame) :
  staged_table df df_outcomes = Ok s ->
  (forall c, In c ["Reported by"; "Context"; "Location"; "Last outcome category";
                   "Outcome type"; "Final Outcome"] ->
             has_column s c = false) /\
  has_column s "Broad Outcome Category" = true /\
  (aligned df ->
   exists m,
     merge_data df df_outcomes = Ok m /\
     Forall2
       (fun r r' =>
          exists final,
            final_outcome_of_row (columns m) r = Ok final /\
            row_lookup (columns s) r' "Broad Outcome Category"
            = Some (VStr (categorize_outcome final)) /\
            (forall l, l <> "Broad Outcome Category" ->
                       row_lookup (columns s) r' l
                       = if mem l cols_to_delete then None
                         else row_lookup (columns m) r l))
       (rows m) (rows s)).
Proof.
  intros Hs. destruct (staged_table_steps _ _ _ Hs) as [m [a [b [Hm [Ha [Hb Hdrop]]]]]].
  assert (Hcols : columns s = filter (fun c => negb (mem c cols_to_delete)) (columns b)).
  { unfold del_values_street, drop_columns in Hdrop.
    destruct (filter _ cols_to_delete); [|discriminate]. now injection Hdrop as <-. }
  split; [|split].
  - intros c Hc. unfold has_column. rewrite Hcols, mem_filter.
    apply mem_In in Hc. unfold cols_to_delete. rewrite Hc. apply andb_false_r.
  - unfold has_column. rewrite Hcols, mem_filter.
    unfold apply_categorization in Hb.
    destruct (getitem a "Final Outcome") as [finals|e]; simpl in Hb; [|discriminate].
    injection Hb as <-.
    pose proof (has_column_setitem a "Broad Outcome Category" "Broad Outcome Category"
                                   (map (fun v => VStr (categorize_outcome v)) finals)) as H.
    unfold has_column in H. rewrite H, String.eqb_refl, orb_true_r. reflexivity.
  - intros Hal. exists m. split; [assumption|].
    apply (after_merge_rows m a b s); try assumption.
    now apply (merge_data_aligned df df_outcomes).
Qed.

Lemma staged_table_drops_columns_witness :
  staged_table Sample.incidents Sample.outcomes = Ok Sample.staged /\
  has_column Sample.staged "Broad Outcome Category" = true.
Proof.
  split.
  - reflexivity.
  - apply (staged_table_drops_columns Sample.incidents Sample.outcomes Sample.staged).
    reflexivity.
Defined.

(** ** The staging step *)

(** [stage_data] never raises: it writes the staged table and logs the
    completion, or it writes nothing and logs the error. *)
Lemma stage_data_spec (to_csv : DataFrame -> string) (df df_outcomes : DataFrame)
      (output_file : string) (w : World) :
  stage_data to_csv df df_outcomes output_file w
  = match staged_table df df_outcomes with
    | Ok s =>
        (Ok tt,
         {| files := fun p => if String.eqb p output_file then Some (to_csv s)
                              else files w p;
            log := (log w ++ [(INFO, "Starting data staging")])
                   ++ [(INFO, "Data staging completed successfully")] |})
    | Raise e =>
        (Ok tt,
         {| files := files w;
            log := (log w ++ [(INFO, "Starting data staging")])
                   ++ [(ERROR, ("Error during data staging: " ++ message e)%string)] |})
    end.
Proof.
  unfold stage_data, staged_table, io_bind, try_except, lift, logging, write_file.
  cbn [files log].
  destruct (merge_data df df_outcomes) as [m|e]; cbn [bind]; [|reflexivity].
  destruct (finaloutcome m) as [a|e]; cbn [bind]; [|reflexivity].
  destruct (apply_categorization a) as [b|e]; cbn [bind]; [|reflexivity].
  destruct (del_values_street b) as [s|e]; reflexivity.
Qed.

(** Where the labels of a merged frame come from. *)
Lemma merge_data_columns_origin (df df_outcomes m : DataFrame) (c : string) :
  merge_data df df_outcomes = Ok m ->
  has_column m c = true ->
  has_column df c = true \/ c = "Outcome type" \/ c = "Outcome type_x"
  \/ c = "Outcome type_y".
Proof.
  unfold merge_data.
  destruct (select_columns df_outcomes ["Crime ID"; "Outcome type"]) as [picked|e] eqn:Hsel;
    cbn [bind]; [|discriminate].
  destruct (select_outcomes _ _ Hsel) as [Hcols _].
  unfold pd_merge_left. rewrite Hcols.
  destruct (negb (has_column df "Crime ID") || negb (has_column picked "Crime ID"));
    [discriminate|].
  destruct (traverse _ (rows df)) as [blocks|e]; cbn [bind]; [|discriminate].
  intros H. injection H as <-. unfold has_column. cbn [columns].
  set (overlap := filter _ (filter _ (columns df))).
  assert (Hover : forall x, mem x overlap = true -> x = "Outcome type").
  { intros x Hx. apply mem_In in Hx. unfold overlap in Hx.
    apply filter_In in Hx. destruct Hx as [_ Hx].
    change (mem x ["Outcome type"] = true) in Hx.
    apply mem_In in Hx. destruct Hx as [<-|[]]. reflexivity. }
  intros Hc. apply mem_In in Hc. apply in_app_or in Hc. destruct Hc as [Hc|Hc].
  - apply in_map_iff in Hc. destruct Hc as [c0 [<- Hc0]]. unfold suffixed.
    destruct (mem c0 overlap) eqn:Hc0o.
    + rewrite (Hover c0 Hc0o). right; right; left. reflexivity.
    + left. now apply mem_In.
  - destruct Hc as [<-|[]].
    unfold suffixed. destruct (mem "Outcome type" overlap); tauto.
Qed.

Lemma drop_columns_missing (df : DataFrame) (labels : list string) (l : string) :
  In l labels -> has_column df l = false -> exists e, drop_columns df labels = Raise e.
Proof.
  intros Hin Hno. unfold drop_columns.
  destruct (filter (fun x => negb (has_column df x)) labels) as [|missing rest] eqn:Hf.
  - assert (H : In l (filter (fun x => negb (has_column df x)) labels)).
    { apply filter_In. split; [assumption | now rewrite Hno]. }
    rewrite Hf in H. destruct H.
  - eauto.
Qed.

(** The four labels that only the incidents can bring. *)
Lemma staged_table_missing_column (df df_outcomes : DataFrame) (label : string) :
  In label ["Reported by"; "Context"; "Location"; "Last outcome category"] ->
  has_column df label = false ->
  exists e, staged_table df df_outcomes = Raise e.
Proof.
  intros Hlabel Hno. unfold staged_table.
  destruct (merge_data df df_outcomes) as [m|e] eqn:Hm; cbn [bind]; [|eauto].
  assert (Hnom : has_column m label = false).
  { destruct (has_column m label) eqn:Hc; [|reflexivity].
    destruct (merge_data_columns_origin _ _ _ _ Hm Hc) as [H|[H|[H|H]]];
      [congruence | | |]; subst label; not_among Hlabel. }
  destruct (finaloutcome m) as [a|e] eqn:Ha; cbn [bind]; [|eauto].
  assert (Hnoa : has_column a label = false).
  { unfold finaloutcome in Ha. destruct (apply_rows m final_outcome_of_row);
      cbn [bind] in Ha; [|discriminate]. injection Ha as <-.
    rewrite has_column_setitem, Hnom.
    apply String.eqb_neq. intros ->. not_among Hlabel. }
  destruct (apply_categorization a) as [b|e] eqn:Hb; cbn [bind]; [|eauto].
  assert (Hnob : has_column b label = false).
  { unfold apply_categorization in Hb. destruct (getitem a "Final Outcome");
      cbn [bind] in Hb; [|discriminate]. injection Hb as <-.
    rewrite has_column_setitem, Hnoa.
    apply String.eqb_neq. intros ->. not_among Hlabel. }
  apply (drop_columns_missing b cols_to_delete label); [|assumption].
  unfold cols_to_delete. simpl in *. tauto.
Qed.

(** C10, as the code has it: when the incidents lack one of [Reported by],
    [Context], [Location] and [Last outcome category], [stage_data] returns
    normally, leaves every file as it was and logs the error after the
    start of the staging.  ([Outcome type] and [Final Outcome] are made by
    the staging itself and are not expected in the incidents.) *)
Theorem stage_data_missing_column (to_csv : DataFrame -> string)
        (df df_outcomes : DataFrame) (output_file label : string) (w : World) :
  In label ["Reported by"; "Context"; "Location"; "Last outcome category"] ->
  has_column df label = false ->
  exists e,
    staged_table df df_outcomes = Raise e /\
    stage_data to_csv df df_outcomes output_file w
    = (Ok tt,
       {| files := files w;
          log := (log w ++ [(INFO, "Starting data staging")])
                 ++ [(ERROR, ("Error during data staging: " ++ message e)%string)] |}).
Proof.
  intros Hlabel Hno.
  destruct (staged_table_missing_column df df_outcomes label Hlabel Hno) as [e He].
  exists e. split; [assumption|].
  rewrite stage_data_spec, He. reflexivity.
Qed.

Lemma stage_data_missing_column_witness :
  exists e,
    staged_table Sample.incidents_without_context Sample.outcomes = Raise e /\
    stage_data Sample.to_csv Sample.incidents_without_context Sample.outcomes
               STAGED_DATA_FILE Sample.empty_directory
    = (Ok tt,
       {| files := files Sample.empty_directory;
          log := (log Sample.empty_directory ++ [(INFO, "Starting data staging")])
                 ++ [(ERROR, ("Error during data staging: " ++ message e)%string)] |}).
Proof.
  apply (stage_data_missing_column Sample.to_csv Sample.incidents_without_context
                                   Sample.outcomes STAGED_DATA_FILE "Context").
  - simpl. tauto.
  - reflexivity.
Defined.

(** C10 as stated fails: the sample incidents have neither an
    [Outcome type] nor a [Final Outcome] column, two of the six that staging
    drops, and [stage_data] writes the staged file and logs no error. *)
Lemma stage_data_writes_without_outcome_type :
  In "Outcome type" cols_to_delete /\
  In "Final Outcome" cols_to_delete /\
  has_column Sample.incidents "Outcome type" = false /\
  has_column Sample.incidents "Final Outcome" = false /\
  stage_data Sample.to_csv Sample.incidents Sample.outcomes STAGED_DATA_FILE
             Sample.empty_directory
  = (Ok tt,
     {| files := fun p => if String.eqb p STAGED_DATA_FILE
                          then Some (Sample.to_csv Sample.staged) else None;
        log := [(INFO, "Starting data staging");
                (INFO, "Data staging completed successfully")] |}).
Proof.
  repeat split; try reflexivity; simpl; tauto.
Qed.

(** ** Missing values and sums of doubles *)

Lemma SFeqb_refl_not_nan (x : spec_float) :
  x <> S754_nan -> SFeqb x x = true.
Proof.
  unfold SFeqb. destruct x as [s|s| |s m e]; simpl; intros H.
  - reflexivity.
  - now destruct s.
  - contradiction.
  - rewrite Z.compare_refl.
    assert (Hm : Pos.compare_cont Eq m m = Eq) by apply Pos.compare_cont_refl.
    destruct s; rewrite Hm; reflexivity.
Qed.

Lemma is_nan_spec (x : float) : is_nan x = true <-> Prim2SF x = S754_nan.
Proof.
  unfold is_nan. rewrite eqb_spec. split.
  - intros H. destruct (Prim2SF x) as [s|s| |s m e] eqn:E; try reflexivity;
      rewrite SFeqb_refl_not_nan in H by discriminate; discriminate.
  - intros ->. reflexivity.
Qed.

(** A sum of doubles is NaN as soon as one of them is. *)
Lemma is_nan_add (x y : float) :
  is_nan x = true \/ is_nan y = true -> is_nan (x + y) = true.
Proof.
  intros H. apply is_nan_spec. rewrite add_spec. unfold SF64add, SFadd.
  destruct H as [H|H]; apply is_nan_spec in H; rewrite H.
  - reflexivity.
  - now destruct (Prim2SF x).
Qed.

Lemma add_values_null (a b total : value) :
  add_values a b = Ok total ->
  pd_notnull a = false \/ pd_notnull b = false ->
  pd_notnull total = false.
Proof.
  destruct a as [s|x], b as [t|y]; simpl.
  - intros _ [H|H]; discriminate.
  - destruct (is_nan y); [|discriminate]. intros [= <-] _. reflexivity.
  - destruct (is_nan x); [|discriminate]. intros [= <-] _. reflexivity.
  - intros [= <-] H. simpl. rewrite is_nan_add; [reflexivity|].
    destruct H as [H|H]; [left | right]; now apply negb_false_iff in H.
Qed.

(** ** The primary transformation *)

Lemma row_set_same_value (cols : list string) (r : list value) (l : string) (v : value) :
  row_lookup cols r l = Some v -> row_set cols r l v = r.
Proof.
  revert r. induction cols as [|c cs IH]; intros r H.
  - destruct r; discriminate.
  - destruct r as [|x xs]; [discriminate|]. simpl in *.
    destruct (String.eqb c l); [congruence | now rewrite IH].
Qed.

(** Writing a column back with its own values leaves the frame as it is:
    the retyping of [Crime type] and [Broad Outcome Category] changes no
    value. *)
Lemma setitem_own_values (df : DataFrame) (l : string) (vals : list value) :
  getitem df l = Ok vals -> setitem df l (astype_category vals) = df.
Proof.
  intros H. apply getitem_Forall2 in H. destruct H as [Hhas H].
  unfold setitem, astype_category. rewrite Hhas. destruct df as [cols rs]. simpl in *.
  f_equal. induction H as [|r v rs vals Hrv _ IH]; simpl; [reflexivity|].
  now rewrite (row_set_same_value _ _ _ _ Hrv), IH.
Qed.

Lemma primary_transformations_cases (df df' : DataFrame) :
  primary_transformations df = Ok df' ->
  has_column df "Crime type" = true /\
  has_column df "Broad Outcome Category" = true /\
  if has_column df "Latitude" && has_column df "Longitude"
  then exists latitude longitude total,
      getitem df "Latitude" = Ok latitude /\
      getitem df "Longitude" = Ok longitude /\
      series_add latitude longitude = Ok total /\
      df' = setitem df "Location Sum" total
  else df' = df.
Proof.
  unfold primary_transformations.
  destruct (getitem df "Crime type") as [ct|e] eqn:Hct; cbn [bind]; [|discriminate].
  rewrite (setitem_own_values _ _ _ Hct).
  destruct (getitem df "Broad Outcome Category") as [broad|e] eqn:Hb; cbn [bind];
    [|discriminate].
  rewrite (setitem_own_values _ _ _ Hb).
  apply getitem_Forall2 in Hct. apply getitem_Forall2 in Hb.
  intros H. split; [apply Hct|]. split; [apply Hb|].
  destruct (has_column df "Latitude" && has_column df "Longitude").
  - destruct (getitem df "Latitude") as [lat|e] eqn:Hlat; cbn [bind] in H; [|discriminate].
    destruct (getitem df "Longitude") as [lon|e] eqn:Hlon; cbn [bind] in H; [|discriminate].
    destruct (series_add lat lon) as [total|e] eqn:Hadd; cbn [bind] in H; [|discriminate].
    exists lat, lon, total. repeat split; congruence.
  - congruence.
Qed.

Lemma Forall2_combine {A B C : Type} (P : A -> B -> Prop) (Q : A -> C -> Prop)
      (l : list A) (xs : list B) (ys : list C) :
  Forall2 P l xs -> Forall2 Q l ys ->
  Forall2 (fun a p => P a (fst p) /\ Q a (snd p)) l (combine xs ys).
Proof.
  intros HP. revert ys. induction HP as [|a x l xs Hax _ IH]; intros ys HQ.
  - inversion HQ. constructor.
  - inversion HQ as [|a' y l' ys' Hay Hrest]; subst. simpl. constructor.
    + now split.
    + now apply IH.
Qed.

(** The column of sums, row by row. *)
Lemma series_add_rows (df : DataFrame) (latitude longitude total : list value) :
  getitem df "Latitude" = Ok latitude ->
  getitem df "Longitude" = Ok longitude ->
  series_add latitude longitude = Ok total ->
  Forall2 (fun r v => exists lat lon,
               row_lookup (columns df) r "Latitude" = Some lat /\
               row_lookup (columns df) r "Longitude" = Some lon /\
               add_values lat lon = Ok v)
          (rows df) total.
Proof.
  intros Hlat Hlon Htotal.
  apply getitem_Forall2 in Hlat. apply getitem_Forall2 in Hlon.
  destruct Hlat as [_ Hlat]. destruct Hlon as [_ Hlon].
  pose proof (Forall2_combine _ _ _ _ _ Hlat Hlon) as Hboth.
  apply traverse_Forall2 in Htotal.
  pose proof (Forall2_compose _ _ _ _ _ Hboth Htotal) as H.
  apply Forall2_weaken with (2 := H).
  intros r v _ [[lat lon] [[H1 H2] H3]]. now exists lat, lon.
Qed.

(** C6, as the code has it: on a staged table that has no [Location Sum]
    column of its own, the primary table has one exactly when the staged
    table has both [Latitude] and [Longitude].  When both are there, every
    row holds under [Location Sum] the sum of its latitude and longitude:
    the sum of the two doubles, and the missing value as soon as one of the
    two is missing; every other field is as it was.  When one of them is
    not there, the primary table is the staged table, with no column
    added. *)
Theorem primary_transformations_location_sum (df df' : DataFrame) :
  aligned df ->
  primary_transformations df = Ok df' ->
  (has_column df "Location Sum" = false ->
   (has_column df' "Location Sum" = true
    <-> has_column df "Latitude" = true /\ has_column df "Longitude" = true)) /\
  (has_column df "Latitude" = true -> has_column df "Longitude" = true ->
   Forall2
     (fun r r' =>
        exists lat lon total,
          row_lookup (columns df) r "Latitude" = Some lat /\
          row_lookup (columns df) r "Longitude" = Some lon /\
          add_values lat lon = Ok total /\
          row_lookup (columns df') r' "Location Sum" = Some total /\
          (forall x y, lat = VFloat x -> lon = VFloat y -> total = VFloat (x + y)) /\
          (pd_notnull lat = false \/ pd_notnull lon = false -> pd_notnull total = false) /\
          (forall l, l <> "Location Sum" ->
                     row_lookup (columns df') r' l = row_lookup (columns df) r l))
     (rows df) (rows df')) /\
  (has_column df "Latitude" = false \/ has_column df "Longitude" = false -> df' = df).
Proof.
  intros Hal H. apply primary_transformations_cases in H.
  destruct H as [_ [_ H]].
  destruct (has_column df "Latitude") eqn:Hlat, (has_column df "Longitude") eqn:Hlon;
    simpl in H.
  - destruct H as [latitude [longitude [total [Hla [Hlo [Hadd ->]]]]]].
    split; [|split].
    + intros _. rewrite has_column_setitem, String.eqb_refl, orb_true_r. tauto.
    + intros _ _.
      pose proof (series_add_rows df _ _ _ Hla Hlo Hadd) as Hrows.
      apply (setitem_rows df "Location Sum") in Hrows.
      apply Forall2_weaken with (2 := Hrows).
      intros r r' Hin [v [[lat [lon [H1 [H2 H3]]]] ->]].
      pose proof (aligned_row df r Hal Hin) as Hlen.
      exists lat, lon, v. repeat split; try assumption.
      * now apply row_lookup_set_same.
      * intros x y -> ->. simpl in H3. congruence.
      * now apply add_values_null.
      * intros l Hl. now apply row_lookup_set_other.
    + intros [Hf|Hf]; discriminate.
  - subst df'. split; [|split].
    + intros ->. split; [discriminate | intros [_ Hf]; discriminate].
    + discriminate.
    + reflexivity.
  - subst df'. split; [|split].
    + intros ->. split; [discriminate | intros [Hf _]; discriminate].
    + discriminate.
    + reflexivity.
  - subst df'. split; [|split].
    + intros ->. split; [discriminate | intros [Hf _]; discriminate].
    + discriminate.
    + reflexivity.
Qed.

Lemma primary_transformations_location_sum_witness :
  exists df',
    primary_transformations Sample.staged = Ok df' /\
    (has_column df' "Location Sum" = true
     <-> has_column Sample.staged "Latitude" = true
         /\ has_column Sample.staged "Longitude" = true).
Proof.
  eexists. split.
  - reflexivity.
  - apply (primary_transformations_location_sum Sample.staged).
    + apply well_formedb_sound. reflexivity.
    + reflexivity.
    + reflexivity.
Defined.

(** C6 as stated fails on a staged table that brings a [Location Sum]
    column and no [Latitude]: the column is in the primary table although
    one of the two coordinates is missing. *)
Lemma location_sum_kept_without_latitude :
  has_column Sample.staged_with_location_sum "Latitude" = false /\
  primary_transformations Sample.staged_with_location_sum
  = Ok Sample.staged_with_location_sum /\
  has_column Sample.staged_with_location_sum "Location Sum" = true.
Proof. repeat split; reflexivity. Qed.

(** The transformation gives a table on every aligned staged table that has
    the two retyped columns and whose coordinates are numbers or missing. *)
Lemma primary_transformations_total (df : DataFrame) :
  well_formed df ->
  has_column df "Crime type" = true ->
  has_column df "Broad Outcome Category" = true ->
  (forall r lat lon, In r (rows df) ->
                     row_lookup (columns df) r "Latitude" = Some lat ->
                     row_lookup (columns df) r "Longitude" = Some lon ->
                     exists total, add_values lat lon = Ok total) ->
  exists df', primary_transformations df = Ok df'.
Proof.
  intros Hwf Hct Hb Hnum. unfold primary_transformations.
  destruct (getitem_total df "Crime type" Hwf Hct) as [ct Hgct].
  rewrite Hgct. cbn [bind]. rewrite (setitem_own_values _ _ _ Hgct).
  destruct (getitem_total df "Broad Outcome Category" Hwf Hb) as [broad Hgb].
  rewrite Hgb. cbn [bind]. rewrite (setitem_own_values _ _ _ Hgb).
  destruct (has_column df "Latitude") eqn:Hlat; [|simpl; eauto].
  destruct (has_column df "Longitude") eqn:Hlon; [|simpl; eauto].
  simpl.
  destruct (getitem_total df "Latitude" Hwf Hlat) as [lat Hglat].
  destruct (getitem_total df "Longitude" Hwf Hlon) as [lon Hglon].
  rewrite Hglat, Hglon. cbn [bind].
  apply getitem_Forall2 in Hglat. apply getitem_Forall2 in Hglon.
  destruct Hglat as [_ Hglat]. destruct Hglon as [_ Hglon].
  pose proof (Forall2_combine _ _ _ _ _ Hglat Hglon) as Hboth.
  destruct (traverse_total (fun xy => add_values (fst xy) (snd xy)) (combine lat lon))
    as [total Htotal].
  { clear - Hboth Hnum. induction Hboth as [|r p rs ps [H1 H2] _ IH]; constructor.
    - apply (Hnum r); [now left | assumption | assumption].
    - apply IH. intros r' la lo Hin. apply Hnum. now right. }
  unfold series_add. rewrite Htotal. cbn [bind]. eauto.
Qed.

(** ** The reporting aggregation *)

Lemma total_count_count_key (k : value * value) (groups : list ReportRow) :
  total_count (count_key k groups) = S (total_count groups).
Proof.
  induction groups as [|g rest IH]; simpl; [reflexivity|].
  destruct (group_eqb k (crime_type g, broad_outcome_category g)); simpl; [lia|].
  destruct (group_ltb k (crime_type g, broad_outcome_category g)); simpl; [lia|].
  rewrite IH. lia.
Qed.

Lemma count_key_positive (k : value * value) (groups : list ReportRow) :
  Forall (fun g => Count g <> 0) groups ->
  Forall (fun g => Count g <> 0) (count_key k groups).
Proof.
  induction 1 as [|g rest Hg Hrest IH]; simpl.
  - constructor; [discriminate | constructor].
  - destruct (group_eqb k (crime_type g, broad_outcome_category g)).
    + constructor; [discriminate | assumption].
    + destruct (group_ltb k (crime_type g, broad_outcome_category g)).
      * constructor; [discriminate|]. now constructor.
      * now constructor.
Qed.

Lemma count_keys (keys : list (value * value)) (groups : list ReportRow) :
  Forall (fun g => Count g <> 0) groups ->
  total_count (fold_left (fun gs k => count_key k gs) keys groups)
  = List.length keys + total_count groups /\
  Forall (fun g => Count g <> 0) (fold_left (fun gs k => count_key k gs) keys groups).
Proof.
  revert groups. induction keys as [|k keys IH]; intros groups Hpos; simpl.
  - now split.
  - destruct (IH (count_key k groups) (count_key_positive k groups Hpos)) as [Hsum Hall].
    split; [|assumption]. rewrite Hsum, total_count_count_key. lia.
Qed.

(** The keys a group-by counts are those of the rows where both are
    present. *)
Lemma grouped_keys_keyed_rows (df : DataFrame) (a b : string) (ka kb : list value) :
  getitem df a = Ok ka -> getitem df b = Ok kb ->
  List.length (grouped_keys (combine ka kb)) = List.length (keyed_rows df a b).
Proof.
  intros Ha Hb. apply getitem_Forall2 in Ha. apply getitem_Forall2 in Hb.
  destruct Ha as [_ Ha]. destruct Hb as [_ Hb].
  pose proof (Forall2_combine _ _ _ _ _ Ha Hb) as H.
  symmetry. unfold grouped_keys, keyed_rows.
  eapply Forall2_length. eapply Forall2_filter; [|exact H].
  intros r k [H1 H2]. simpl in H1, H2. now rewrite H1, H2.
Qed.

(** C4, as the code has it: the counts of the reporting rows add up to the
    number of primary rows whose [Crime type] and [Broad Outcome Category]
    are both present, a row with a missing key being left out of every
    group; no reporting row has a count of zero.  So the counts add up to
    the number of rows of the primary table when no row has a missing
    key. *)
Theorem reporting_aggregation_counts (df : DataFrame) (agg : list ReportRow) :
  reporting_aggregation df = Ok agg ->
  total_count agg
  = List.length (keyed_rows df "Crime type" "Broad Outcome Category") /\
  Forall (fun g => Count g <> 0) agg /\
  (Forall (fun r => exists x y,
               row_lookup (columns df) r "Crime type" = Some x /\
               row_lookup (columns df) r "Broad Outcome Category" = Some y /\
               pd_notnull x = true /\ pd_notnull y = true) (rows df) ->
   total_count agg = List.length (rows df)).
Proof.
  unfold reporting_aggregation, groupby_size.
  destruct (getitem df "Crime type") as [ka|e] eqn:Ha; cbn [bind]; [|discriminate].
  destruct (getitem df "Broad Outcome Category") as [kb|e] eqn:Hb; cbn [bind];
    [|discriminate].
  intros H. injection H as <-.
  destruct (count_keys (grouped_keys (combine ka kb)) []) as [Hsum Hpos]; [constructor|].
  assert (Htotal : total_count
                     (fold_left (fun gs k => count_key k gs)
                                (grouped_keys (combine ka kb)) [])
                   = List.length (keyed_rows df "Crime type" "Broad Outcome Category")).
  { rewrite Hsum. simpl. rewrite Nat.add_0_r. now apply grouped_keys_keyed_rows. }
  split; [assumption|]. split; [assumption|].
  intros Hall. rewrite Htotal. unfold keyed_rows. f_equal.
  clear - Hall. induction Hall as [|r rs [x [y [Hx [Hy [Hnx Hny]]]]] _ IH]; simpl.
  - reflexivity.
  - rewrite Hx, Hy, Hnx, Hny. simpl. now rewrite IH.
Qed.

Lemma reporting_aggregation_counts_witness :
  exists agg,
    reporting_aggregation Sample.staged = Ok agg /\
    total_count agg
    = List.length (keyed_rows Sample.staged "Crime type" "Broad Outcome Category").
Proof.
  eexists. split.
  - reflexivity.
  - apply (reporting_aggregation_counts Sample.staged). reflexivity.
Defined.

(** C4 as stated fails on a primary table with a row whose crime type is
    missing: the aggregation emits no row for it, and the counts add up to
    zero for a table of one row. *)
Lemma reporting_aggregation_loses_missing_key :
  well_formed Sample.primary_without_crime_type /\
  reporting_aggregation Sample.primary_without_crime_type = Ok [] /\
  total_count [] <> List.length (rows Sample.primary_without_crime_type).
Proof.
  split; [apply well_formedb_sound; reflexivity|].
  split; [reflexivity|]. simpl. discriminate.
Qed.

(** The aggregation gives a table on every well-formed primary table that
    has the two key columns. *)
Lemma reporting_aggregation_total (df : DataFrame) :
  well_formed df ->
  has_column df "Crime type" = true ->
  has_column df "Broad Outcome Category" = true ->
  exists agg, reporting_aggregation df = Ok agg.
Proof.
  intros Hwf Ha Hb. unfold reporting_aggregation, groupby_size.
  destruct (getitem_total df "Crime type" Hwf Ha) as [ka ->].
  destruct (getitem_total df "Broad Outcome Category" Hwf Hb) as [kb ->].
  cbn [bind]. eauto.
Qed.

(** The scenario of the specification: three thefts without further action
    and one of unknown outcome. *)
Example reporting_scenario :
  reporting_aggregation
    {| columns := ["Crime type"; "Broad Outcome Category"];
       rows := [[VStr "Theft"; VStr "No Further Action"];
                [VStr "Theft"; VStr "Unknown"];
                [VStr "Theft"; VStr "No Further Action"];
                [VStr "Theft"; VStr "No Further Action"]] |}
  = Ok [mkReportRow (VStr "Theft") (VStr "No Further Action") 3;
        mkReportRow (VStr "Theft") (VStr "Unknown") 1].
Proof. reflexivity. Qed.

(** ** Ingestion *)

Section Ingestion.

Variable read_csv : string -> result DataFrame.

(** An ingestion reads and logs; it writes no file. *)
Lemma ingest_data_files (file_path : string) (w : World) :
  files (snd (ingest_data read_csv file_path w)) = files w.
Proof.
  unfold ingest_data, io_bind, os_path_exists, read_file, logging, ret, raise.
  simpl.
  destruct (files w file_path) as [text|] eqn:E; simpl; rewrite ?E; [|reflexivity].
  destruct (read_csv text) as [df|e]; [reflexivity|].
  destruct (is_value_error e); reflexivity.
Qed.

(** C9: [ingest_data] on a path with no file logs the error and returns
    [None]; on a file whose content the parser rejects with a [ValueError]
    it logs the error and returns [None]; on a file that parses it returns
    the parsed table.  In the three cases it returns and does not raise, and
    changes no file. *)
Theorem ingest_data_contract (file_path : string) (w : World) :
  (files w file_path = None ->
   ingest_data read_csv file_path w
   = (Ok None,
      {| files := files w;
         log := (log w ++ [(INFO, ("Starting data ingestion from " ++ file_path)%string)])
                ++ [(ERROR, ("File not found: " ++ file_path)%string)] |})) /\
  (forall text e,
      files w file_path = Some text ->
      read_csv text = Raise e ->
      kind e = ValueError ->
      ingest_data read_csv file_path w
      = (Ok None,
         {| files := files w;
            log := (log w ++ [(INFO, ("Starting data ingestion from " ++ file_path)%string)])
                   ++ [(ERROR, ("Error reading the CSV file " ++ file_path ++ ": "
                                ++ message e)%string)] |})) /\
  (forall text df,
      files w file_path = Some text ->
      read_csv text = Ok df ->
      ingest_data read_csv file_path w
      = (Ok (Some df),
         {| files := files w;
            log := (log w ++ [(INFO, ("Starting data ingestion from " ++ file_path)%string)])
                   ++ [(INFO, ("Data ingestion from " ++ file_path
                               ++ " completed successfully")%string)] |})).
Proof.
  unfold ingest_data, io_bind, os_path_exists, read_file, logging, ret.
  simpl. split; [|split].
  - intros E. rewrite E. reflexivity.
  - intros text e E Hr He. rewrite E. simpl. rewrite E, Hr.
    unfold is_value_error. rewrite He. reflexivity.
  - intros text df E Hr. rewrite E. simpl. rewrite E, Hr. reflexivity.
Qed.

(** An error of the parser that is not a [ValueError] is not handled: it
    leaves [ingest_data]. *)
Lemma ingest_data_raises (file_path text : string) (e : exn) (w : World) :
  files w file_path = Some text ->
  read_csv text = Raise e ->
  is_value_error e = false ->
  fst (ingest_data read_csv file_path w) = Raise e.
Proof.
  unfold ingest_data, io_bind, os_path_exists, read_file, logging, raise.
  simpl. intros E Hr He. rewrite E. simpl. rewrite E, Hr, He. reflexivity.
Qed.

End Ingestion.

Lemma ingest_data_contract_witness :
  ingest_data Sample.read_csv RAW_DATA_FILE Sample.empty_directory
  = (Ok None,
     {| files := files Sample.empty_directory;
        log := (log Sample.empty_directory
                ++ [(INFO, ("Starting data ingestion from " ++ RAW_DATA_FILE)%string)])
               ++ [(ERROR, ("File not found: " ++ RAW_DATA_FILE)%string)] |}) /\
  ingest_data Sample.read_csv RAW_DATA_FILE Sample.ragged_raw
  = (Ok None,
     {| files := files Sample.ragged_raw;
        log := (log Sample.ragged_raw
                ++ [(INFO, ("Starting data ingestion from " ++ RAW_DATA_FILE)%string)])
               ++ [(ERROR, ("Error reading the CSV file " ++ RAW_DATA_FILE ++ ": "
                            ++ "Error tokenizing data")%string)] |}) /\
  ingest_data Sample.read_csv OUTCOMES_DATA_FILE Sample.ragged_raw
  = (Ok (Some Sample.staged),
     {| files := files Sample.ragged_raw;
        log := (log Sample.ragged_raw
                ++ [(INFO, ("Starting data ingestion from " ++ OUTCOMES_DATA_FILE)%string)])
               ++ [(INFO, ("Data ingestion from " ++ OUTCOMES_DATA_FILE
                           ++ " completed successfully")%string)] |}).
Proof.
  split; [|split].
  - apply (ingest_data_contract Sample.read_csv RAW_DATA_FILE Sample.empty_directory).
    reflexivity.
  - apply (proj1 (proj2 (ingest_data_contract Sample.read_csv RAW_DATA_FILE
                                              Sample.ragged_raw))
                 "ragged" (mkExn ValueError "Error tokenizing data"));
      reflexivity.
  - apply (proj2 (proj2 (ingest_data_contract Sample.read_csv OUTCOMES_DATA_FILE
                                              Sample.ragged_raw))
                 "frame" Sample.staged);
      reflexivity.
Defined.

(** ** The orchestrator *)

Section Orchestrator.

Variable read_csv : string -> result DataFrame.
Variable to_csv : DataFrame -> string.
Variable agg_to_csv : list ReportRow -> string.

(** C8, as the code has it: when the two initial ingestions return and one
    of them returns [None], [main] returns normally, every file is as it
    was, and its log is the log of the two ingestions followed by the
    successful completion: no stage has run. *)
Theorem main_skips_stages (w w1 w2 : World) (df df_outcomes : option DataFrame) :
  ingest_data read_csv RAW_DATA_FILE
              {| files := files w;
                 log := log w ++ [(INFO, "Pipeline execution started")] |}
  = (Ok df, w1) ->
  ingest_data read_csv OUTCOMES_DATA_FILE w1 = (Ok df_outcomes, w2) ->
  df = None \/ df_outcomes = None ->
  main read_csv to_csv agg_to_csv w
  = (Ok tt,
     {| files := files w;
        log := log w2 ++ [(INFO, "Pipeline execution completed successfully")] |}).
Proof.
  intros H1 H2 Hnone.
  assert (Hfiles : files w2 = files w).
  { pose proof (ingest_data_files read_csv OUTCOMES_DATA_FILE w1) as F2.
    pose proof (ingest_data_files read_csv RAW_DATA_FILE
                  {| files := files w;
                     log := log w ++ [(INFO, "Pipeline execution started")] |}) as F1.
    rewrite H2 in F2. rewrite H1 in F1. simpl in F1, F2. congruence. }
  unfold main, io_bind at 1, try_except, logging at 1.
  unfold io_bind at 1. rewrite H1. unfold io_bind at 1. rewrite H2.
  unfold io_bind, ret, logging. rewrite <- Hfiles.
  destruct Hnone as [-> | ->]; [reflexivity|].
  destruct df; reflexivity.
Qed.

(** When the first ingestion returns [None] and the second one raises, the
    stages are skipped as well and [main] still returns, but it logs the
    failure and not the completion. *)
Lemma main_logs_failure_of_ingestion (w w1 w2 : World) (e : exn) :
  ingest_data read_csv RAW_DATA_FILE
              {| files := files w;
                 log := log w ++ [(INFO, "Pipeline execution started")] |}
  = (Ok None, w1) ->
  ingest_data read_csv OUTCOMES_DATA_FILE w1 = (Raise e, w2) ->
  main read_csv to_csv agg_to_csv w
  = (Ok tt,
     {| files := files w2;
        log := log w2 ++ [(CRITICAL, ("Pipeline execution failed: " ++ message e)%string)] |}).
Proof.
  intros H1 H2.
  unfold main, io_bind at 1, try_except, logging at 1.
  unfold io_bind at 1. rewrite H1. unfold io_bind at 1. rewrite H2.
  reflexivity.
Qed.

(** C1: the last line of the file is not a statement, and it is the only
    one that is not; so whether the file is run as a script or imported,
    the run ends with a syntax error before any statement is run: the files
    and the log are as they were, and [main] has not been called. *)
Theorem pipeline_py_syntax_error (is_main : bool) (w : World) :
  compiles (Text last_line) = false /\
  forallb compiles (pipeline_py_without_last_line read_csv to_csv agg_to_csv) = true /\
  run_module (pipeline_py read_csv to_csv agg_to_csv) is_main w
  = (Raise (mkExn SyntaxError "invalid syntax"), w).
Proof.
  split; [|split].
  - vm_compute. reflexivity.
  - reflexivity.
  - unfold run_module, pipeline_py.
    assert (H : forallb compiles [definitions; main_guard read_csv to_csv agg_to_csv;
                                  Text last_line] = false) by (vm_compute; reflexivity).
    rewrite H. reflexivity.
Qed.

(** Without its last line the file, run as a script, is a run of [main]. *)
Lemma pipeline_py_without_last_line_runs_main (w : World) :
  run_module (pipeline_py_without_last_line read_csv to_csv agg_to_csv) true w
  = main read_csv to_csv agg_to_csv w.
Proof.
  unfold run_module.
  change (forallb compiles (pipeline_py_without_last_line read_csv to_csv agg_to_csv))
    with true.
  cbv iota.
  unfold pipeline_py_without_last_line, run_statements, run_statement, definitions,
    main_guard, io_bind, ret.
  destruct (main read_csv to_csv agg_to_csv w) as [[[]|e] w']; reflexivity.
Qed.

End Orchestrator.

Lemma main_skips_stages_witness :
  main Sample.read_csv Sample.to_csv Sample.agg_to_csv Sample.ragged_raw
  = (Ok tt,
     {| files := files Sample.ragged_raw;
        log := [(INFO, "Pipeline execution started");
                (INFO, "Starting data ingestion from ./2022-01-cheshire-street.csv");
                (ERROR, "Error reading the CSV file ./2022-01-cheshire-street.csv: Error tokenizing data");
                (INFO, "Starting data ingestion from ./2022-01-cheshire-outcomes.csv");
                (INFO, "Data ingestion from ./2022-01-cheshire-outcomes.csv completed successfully");
                (INFO, "Pipeline execution completed successfully")] |}).
Proof.
  apply (main_skips_stages Sample.read_csv Sample.to_csv Sample.agg_to_csv
           Sample.ragged_raw
           {| files := files Sample.ragged_raw;
              log := [(INFO, "Pipeline execution started");
                      (INFO, "Starting data ingestion from ./2022-01-cheshire-street.csv");
                      (ERROR, "Error reading the CSV file ./2022-01-cheshire-street.csv: Error tokenizing data")] |}
           {| files := files Sample.ragged_raw;
              log := [(INFO, "Pipeline execution started");
                      (INFO, "Starting data ingestion from ./2022-01-cheshire-street.csv");
                      (ERROR, "Error reading the CSV file ./2022-01-cheshire-street.csv: Error tokenizing data");
                      (INFO, "Starting data ingestion from ./2022-01-cheshire-outcomes.csv");
                      (INFO, "Data ingestion from ./2022-01-cheshire-outcomes.csv completed successfully")] |}
           None (Some Sample.staged)).
  - reflexivity.
  - reflexivity.
  - left. reflexivity.
Defined.

(** C8 as stated fails when the raw file is missing and the outcomes file
    is there and cannot be read (a directory of that name, or a file
    without read permission, for which the parser raises an [OSError]): the
    first ingestion returns [None], the stages are skipped and [main]
    returns, but its log ends with the failure and does not hold the
    completion. *)
Lemma main_logs_critical_on_unreadable_outcomes :
  fst (ingest_data Sample.read_csv RAW_DATA_FILE
                   {| files := files Sample.unreadable_outcomes;
                      log := [(INFO, "Pipeline execution started")] |})
  = Ok None /\
  fst (main Sample.read_csv Sample.to_csv Sample.agg_to_csv Sample.unreadable_outcomes)
  = Ok tt /\
  log (snd (main Sample.read_csv Sample.to_csv Sample.agg_to_csv
                 Sample.unreadable_outcomes))
  = [(INFO, "Pipeline execution started");
     (INFO, "Starting data ingestion from ./2022-01-cheshire-street.csv");
     (ERROR, "File not found: ./2022-01-cheshire-street.csv");
     (INFO, "Starting data ingestion from ./2022-01-cheshire-outcomes.csv");
     (CRITICAL, "Pipeline execution failed: Permission denied")] /\
  ~ In (INFO, "Pipeline execution completed successfully")
       (log (snd (main Sample.read_csv Sample.to_csv Sample.agg_to_csv
                       Sample.unreadable_outcomes))).
Proof.
  repeat split; try reflexivity.
  vm_compute. intros H. not_among H.
Qed.

(** * Further properties of the stages *)

(** ** What a stage writes and logs *)

Lemma writes_only_refl (paths : list string) (w : World) : writes_only paths w w.
Proof. split; [reflexivity | exists []; now rewrite app_nil_r]. Qed.

Lemma writes_only_trans (paths : list string) (w w1 w2 : World) :
  writes_only paths w w1 -> writes_only paths w1 w2 -> writes_only paths w w2.
Proof.
  intros [F1 [e1 L1]] [F2 [e2 L2]]. split.
  - intros p Hp. now rewrite F2, F1.
  - exists (e1 ++ e2). now rewrite L2, L1, app_assoc.
Qed.

Lemma writes_only_more (paths paths' : list string) (w w' : World) :
  incl paths paths' -> writes_only paths w w' -> writes_only paths' w w'.
Proof.
  intros Hincl [F L]. split; [|assumption].
  intros p Hp. apply F. intros Hin. apply Hp. now apply Hincl.
Qed.

Lemma io_bind_writes_only {A B : Type} (paths : list string) (c : io A) (k : A -> io B) :
  (forall w, writes_only paths w (snd (c w))) ->
  (forall a w, writes_only paths w (snd (k a w))) ->
  forall w, writes_only paths w (snd (io_bind c k w)).
Proof.
  intros Hc Hk w. unfold io_bind. specialize (Hc w).
  destruct (c w) as [[a|e] w1]; simpl in *; [|assumption].
  apply writes_only_trans with w1; [assumption | apply Hk].
Qed.

Lemma try_except_writes_only {A : Type} (paths : list string) (body : io A)
      (handler : exn -> io A) :
  (forall w, writes_only paths w (snd (body w))) ->
  (forall e w, writes_only paths w (snd (handler e w))) ->
  forall w, writes_only paths w (snd (try_except body handler w)).
Proof.
  intros Hb Hh w. unfold try_except. specialize (Hb w).
  destruct (body w) as [[a|e] w1]; simpl in *; [assumption|].
  apply writes_only_trans with w1; [assumption | apply Hh].
Qed.

Lemma logging_writes_only (paths : list string) (l : level) (msg : string) (w : World) :
  writes_only paths w (snd (logging l msg w)).
Proof. split; [reflexivity | now exists [(l, msg)]]. Qed.

Lemma write_file_writes_only (path text : string) (w : World) :
  writes_only [path] w (snd (write_file path text w)).
Proof.
  split; [|exists []; simpl; now rewrite app_nil_r].
  intros p Hp. simpl. destruct (String.eqb_spec p path) as [->|_]; [|reflexivity].
  exfalso. apply Hp. now left.
Qed.

Lemma lift_writes_only {A : Type} (paths : list string) (r : result A) (w : World) :
  writes_only paths w (snd (lift r w)).
Proof. apply writes_only_refl. Qed.

Section StageEffects.

Variable read_csv : string -> result DataFrame.
Variable to_csv : DataFrame -> string.
Variable agg_to_csv : list ReportRow -> string.

(** An ingestion of a file that is not there. *)
Lemma ingest_data_missing (file_path : string) (w : World) :
  files w file_path = None ->
  ingest_data read_csv file_path w
  = (Ok None,
     {| files := files w;
        log := (log w ++ [(INFO, ("Starting data ingestion from " ++ file_path)%string)])
               ++ [(ERROR, ("File not found: " ++ file_path)%string)] |}).
Proof.
  unfold ingest_data, io_bind, os_path_exists, read_file, logging, ret. simpl.
  intros E. rewrite E. reflexivity.
Qed.

(** An ingestion of a file that parses. *)
Lemma ingest_data_parsed (file_path text : string) (df : DataFrame) (w : World) :
  files w file_path = Some text ->
  read_csv text = Ok df ->
  ingest_data read_csv file_path w
  = (Ok (Some df),
     {| files := files w;
        log := (log w ++ [(INFO, ("Starting data ingestion from " ++ file_path)%string)])
               ++ [(INFO, ("Data ingestion from " ++ file_path
                           ++ " completed successfully")%string)] |}).
Proof.
  unfold ingest_data, io_bind, os_path_exists, read_file, logging, ret. simpl.
  intros E Hr. rewrite E. simpl. rewrite E, Hr. reflexivity.
Qed.

(** An ingestion of a file that the parser rejects. *)
Lemma ingest_data_rejected (file_path text : string) (e : exn) (w : World) :
  files w file_path = Some text ->
  read_csv text = Raise e ->
  ingest_data read_csv file_path w
  = if is_value_error e
    then (Ok None,
          {| files := files w;
             log := (log w ++ [(INFO, ("Starting data ingestion from "
                                       ++ file_path)%string)])
                    ++ [(ERROR, ("Error reading the CSV file " ++ file_path ++ ": "
                                 ++ message e)%string)] |})
    else (Raise e,
          {| files := files w;
             log := log w ++ [(INFO, ("Starting data ingestion from "
                                      ++ file_path)%string)] |}).
Proof.
  unfold ingest_data, io_bind, os_path_exists, read_file, logging, ret, raise. simpl.
  intros E Hr. rewrite E. simpl. rewrite E, Hr.
  destruct (is_value_error e); reflexivity.
Qed.

Lemma is_value_error_kind (e : exn) : is_value_error e = true <-> kind e = ValueError.
Proof. unfold is_value_error. destruct (kind e); split; congruence. Qed.

(** X1: what [ingest_data] returns tells what it found.  It returns [None]
    exactly when the file is missing or the parser raises a [ValueError];
    it returns a table exactly when the parser gives that table; and it
    raises exactly the errors of the parser that are not [ValueError]s.  In
    every case no file is changed and the log grows, first by the entry that
    the ingestion starts. *)
Theorem ingest_data_outcomes (file_path : string) (w : World) :
  (fst (ingest_data read_csv file_path w) = Ok None
   <-> files w file_path = None
       \/ exists text e, files w file_path = Some text /\ read_csv text = Raise e
                         /\ kind e = ValueError) /\
  (forall df, fst (ingest_data read_csv file_path w) = Ok (Some df)
              <-> exists text, files w file_path = Some text /\ read_csv text = Ok df) /\
  (forall e, fst (ingest_data read_csv file_path w) = Raise e
             <-> exists text, files w file_path = Some text /\ read_csv text = Raise e
                              /\ kind e <> ValueError) /\
  files (snd (ingest_data read_csv file_path w)) = files w /\
  exists entries,
    log (snd (ingest_data read_csv file_path w))
    = log w ++ (INFO, ("Starting data ingestion from " ++ file_path)%string) :: entries.
Proof.
  destruct (files w file_path) as [text|] eqn:E.
  - destruct (read_csv text) as [df|e] eqn:Hr.
    + rewrite (ingest_data_parsed _ _ _ _ E Hr). simpl.
      split; [|split; [|split; [|split]]].
      * split; [discriminate|]. intros [H|[t [e [Ht [He _]]]]]; [discriminate|].
        congruence.
      * intros df'. split.
        -- intros [= <-]. now exists text.
        -- intros [t [Ht Hdf]]. congruence.
      * intros e. split; [discriminate|]. intros [t [Ht [He _]]]. congruence.
      * reflexivity.
      * eexists. rewrite <- app_assoc. reflexivity.
    + rewrite (ingest_data_rejected _ _ _ _ E Hr).
      destruct (is_value_error e) eqn:Hv; simpl.
      * apply is_value_error_kind in Hv.
        split; [|split; [|split; [|split]]].
        -- split; [|reflexivity]. intros _. right. now exists text, e.
        -- intros df. split; [discriminate|]. intros [t [Ht Hdf]]. congruence.
        -- intros e'. split; [discriminate|]. intros [t [Ht [He Hk]]].
           assert (e' = e) by congruence. subst e'. contradiction.
        -- reflexivity.
        -- eexists. rewrite <- app_assoc. reflexivity.
      * assert (Hk : kind e <> ValueError).
        { intros Hk. apply is_value_error_kind in Hk. congruence. }
        split; [|split; [|split; [|split]]].
        -- split; [discriminate|]. intros [H|[t [e' [Ht [He Hk']]]]]; [discriminate|].
           assert (e' = e) by congruence. subst e'. contradiction.
        -- intros df. split; [discriminate|]. intros [t [Ht Hdf]]. congruence.
        -- intros e'. split.
           ++ intros [= <-]. now exists text.
           ++ intros [t [Ht [He _]]]. congruence.
        -- reflexivity.
        -- now exists [].
  - rewrite (ingest_data_missing _ _ E). simpl.
    split; [|split; [|split; [|split]]].
    + split; [now left | reflexivity].
    + intros df. split; [discriminate|]. intros [t [Ht _]]. discriminate.
    + intros e. split; [discriminate|]. intros [t [Ht _]]. discriminate.
    + reflexivity.
    + eexists. rewrite <- app_assoc. reflexivity.
Qed.

Lemma ingest_data_writes_only (paths : list string) (file_path : string) (w : World) :
  writes_only paths w (snd (ingest_data read_csv file_path w)).
Proof.
  destruct (files w file_path) as [text|] eqn:E.
  - destruct (read_csv text) as [df|e] eqn:Hr.
    + rewrite (ingest_data_parsed _ _ _ _ E Hr). split; [reflexivity|].
      simpl. eexists. rewrite <- app_assoc. reflexivity.
    + rewrite (ingest_data_rejected _ _ _ _ E Hr).
      destruct (is_value_error e); (split; [reflexivity|]); simpl.
      * eexists. rewrite <- app_assoc. reflexivity.
      * eexists. reflexivity.
  - rewrite (ingest_data_missing _ _ E). split; [reflexivity|].
    simpl. eexists. rewrite <- app_assoc. reflexivity.
Qed.

(** [primary_data] never raises: it writes the primary table and logs the
    completion, or it writes nothing and logs the error. *)
Lemma primary_data_spec (df : option DataFrame) (output_file : string) (w : World) :
  primary_data to_csv df output_file w
  = match (let! d := subscript df in primary_transformations d) with
    | Ok p =>
        (Ok tt,
         {| files := fun path => if String.eqb path output_file then Some (to_csv p)
                                 else files w path;
            log := (log w ++ [(INFO, "Starting primary data transformation")])
                   ++ [(INFO, "Primary data transformation completed successfully")] |})
    | Raise e =>
        (Ok tt,
         {| files := files w;
            log := (log w ++ [(INFO, "Starting primary data transformation")])
                   ++ [(ERROR, ("Error during primary data transformation: "
                                ++ message e)%string)] |})
    end.
Proof.
  unfold primary_data, io_bind, try_except, lift, logging, write_file.
  cbn [files log].
  destruct (let! d := subscript df in primary_transformations d) as [p|e]; reflexivity.
Qed.

Lemma reporting_data_spec (df : option DataFrame) (output_file : string) (w : World) :
  reporting_data agg_to_csv df output_file w
  = match (let! d := attribute df in reporting_aggregation d) with
    | Ok agg =>
        (Ok tt,
         {| files := fun path => if String.eqb path output_file
                                 then Some (agg_to_csv agg) else files w path;
            log := (log w ++ [(INFO, "Starting reporting data aggregation")])
                   ++ [(INFO, "Reporting data aggregation completed successfully")] |})
    | Raise e =>
        (Ok tt,
         {| files := files w;
            log := (log w ++ [(INFO, "Starting reporting data aggregation")])
                   ++ [(ERROR, ("Error during reporting data aggregation: "
                                ++ message e)%string)] |})
    end.
Proof.
  unfold reporting_data, io_bind, try_except, lift, logging, write_file.
  cbn [files log].
  destruct (let! d := attribute df in reporting_aggregation d) as [agg|e]; reflexivity.
Qed.




End StageEffects.

(** ** Runs of the orchestrator *)

Lemma io_bind_ok {A B : Type} (c : io A) (k : A -> io B) (w w1 : World) (a : A) :
  c w = (Ok a, w1) -> io_bind c k w = k a w1.
Proof. intros H. unfold io_bind. now rewrite H. Qed.

Lemma io_bind_ok_inv {A B : Type} (c : io A) (k : A -> io B) (w w' : World) (b : B) :
  io_bind c k w = (Ok b, w') ->
  exists a w1, c w = (Ok a, w1) /\ k a w1 = (Ok b, w').
Proof.
  unfold io_bind. destruct (c w) as [[a|e] w1]; [|discriminate].
  intros H. now exists a, w1.
Qed.

Section Runs.

Variable read_csv : string -> result DataFrame.
Variable to_csv : DataFrame -> string.
Variable agg_to_csv : list ReportRow -> string.

Local Open Scope io_scope.

Lemma stage_data_writes_only (df df_outcomes : DataFrame) (output_file : string)
      (w : World) :
  writes_only [output_file] w (snd (stage_data to_csv df df_outcomes output_file w)).
Proof.
  rewrite stage_data_spec. destruct (staged_table df df_outcomes); split; simpl.
  - intros p Hp. destruct (String.eqb_spec p output_file) as [->|_]; [|reflexivity].
    exfalso. apply Hp. now left.
  - eexists. rewrite <- app_assoc. reflexivity.
  - reflexivity.
  - eexists. rewrite <- app_assoc. reflexivity.
Qed.

Lemma primary_data_writes_only (df : option DataFrame) (output_file : string)
      (w : World) :
  writes_only [output_file] w (snd (primary_data to_csv df output_file w)).
Proof.
  rewrite primary_data_spec.
  destruct (let! d := subscript df in primary_transformations d); split; simpl.
  - intros p Hp. destruct (String.eqb_spec p output_file) as [->|_]; [|reflexivity].
    exfalso. apply Hp. now left.
  - eexists. rewrite <- app_assoc. reflexivity.
  - reflexivity.
  - eexists. rewrite <- app_assoc. reflexivity.
Qed.

Lemma reporting_data_writes_only (df : option DataFrame) (output_file : string)
      (w : World) :
  writes_only [output_file] w (snd (reporting_data agg_to_csv df output_file w)).
Proof.
  rewrite reporting_data_spec.
  destruct (let! d := attribute df in reporting_aggregation d); split; simpl.
  - intros p Hp. destruct (String.eqb_spec p output_file) as [->|_]; [|reflexivity].
    exfalso. apply Hp. now left.
  - eexists. rewrite <- app_assoc. reflexivity.
  - reflexivity.
  - eexists. rewrite <- app_assoc. reflexivity.
Qed.

(** The stages that follow the two initial ingestions. *)
Lemma stages_write_only (df df_outcomes : DataFrame) (w : World) :
  writes_only output_files w
    (snd ((stage_data to_csv df df_outcomes STAGED_DATA_FILE ;;
           df_staged <- ingest_data read_csv STAGED_DATA_FILE ;;
           primary_data to_csv df_staged PRIMARY_DATA_FILE ;;
           df_primary <- ingest_data read_csv PRIMARY_DATA_FILE ;;
           reporting_data agg_to_csv df_primary REPORTING_DATA_FILE) w)).
Proof.
  revert w. apply io_bind_writes_only.
  { intros w. apply (writes_only_more [STAGED_DATA_FILE]);
      [|apply stage_data_writes_only].
    intros p [<-|[]]. now left. }
  intros _. apply io_bind_writes_only; [intros w; apply ingest_data_writes_only|].
  intros df_staged. apply io_bind_writes_only.
  { intros w. apply (writes_only_more [PRIMARY_DATA_FILE]);
      [|apply primary_data_writes_only].
    intros p [<-|[]]. right. now left. }
  intros _. apply io_bind_writes_only; [intros w; apply ingest_data_writes_only|].
  intros df_primary w. apply (writes_only_more [REPORTING_DATA_FILE]);
    [|apply reporting_data_writes_only].
  intros p [<-|[]]. right. right. now left.
Qed.

(** The guarded part of [main]. *)
Lemma guarded_stages_write_only (df df_outcomes : option DataFrame) (w : World) :
  writes_only output_files w
    (snd (match df, df_outcomes with
          | Some df, Some df_outcomes =>
              stage_data to_csv df df_outcomes STAGED_DATA_FILE ;;
              df_staged <- ingest_data read_csv STAGED_DATA_FILE ;;
              primary_data to_csv df_staged PRIMARY_DATA_FILE ;;
              df_primary <- ingest_data read_csv PRIMARY_DATA_FILE ;;
              reporting_data agg_to_csv df_primary REPORTING_DATA_FILE
          | _, _ => ret tt
          end w)).
Proof.
  destruct df as [df|]; [destruct df_outcomes as [df_outcomes|]|].
  - apply stages_write_only.
  - apply writes_only_refl.
  - apply writes_only_refl.
Qed.

Lemma main_writes_only (w : World) :
  writes_only output_files w (snd (main read_csv to_csv agg_to_csv w)).
Proof.
  revert w. unfold main. apply io_bind_writes_only.
  { intros w. apply logging_writes_only. }
  intros _. apply try_except_writes_only.
  - apply io_bind_writes_only; [intros w; apply ingest_data_writes_only|].
    intros df. apply io_bind_writes_only; [intros w; apply ingest_data_writes_only|].
    intros df_outcomes. apply io_bind_writes_only.
    + intros w. apply guarded_stages_write_only.
    + intros _ w. apply logging_writes_only.
  - intros e w. apply logging_writes_only.
Qed.

(** X5: [main] never raises, whatever the files hold and whatever the
    parser does, and the only files it can change are the staged, the
    primary and the reporting file: the two input files, like every other
    file, are after the run as they were before. *)
Theorem main_never_raises (w : World) :
  fst (main read_csv to_csv agg_to_csv w) = Ok tt /\
  (forall p, p <> STAGED_DATA_FILE -> p <> PRIMARY_DATA_FILE ->
             p <> REPORTING_DATA_FILE ->
             files (snd (main read_csv to_csv agg_to_csv w)) p = files w p) /\
  files (snd (main read_csv to_csv agg_to_csv w)) RAW_DATA_FILE
  = files w RAW_DATA_FILE /\
  files (snd (main read_csv to_csv agg_to_csv w)) OUTCOMES_DATA_FILE
  = files w OUTCOMES_DATA_FILE.
Proof.
  destruct (main_writes_only w) as [Hfiles _].
  assert (Hout : forall p, p <> STAGED_DATA_FILE -> p <> PRIMARY_DATA_FILE ->
                           p <> REPORTING_DATA_FILE ->
                           files (snd (main read_csv to_csv agg_to_csv w)) p = files w p).
  { intros p H1 H2 H3. apply Hfiles. intros [H|[H|[H|[]]]]; congruence. }
  split; [|split; [assumption|split]].
  - unfold main, io_bind at 1, try_except, logging at 1.
    match goal with |- context [let (r, w') := ?b in _] => destruct b as [[[]|e] w1] end;
      reflexivity.
  - apply Hout; discriminate.
  - apply Hout; discriminate.
Qed.

(** X6: the log of a run of [main] is the log before it, the entry that
    the pipeline has started, the entries of the stages, and one last
    entry: the successful completion, or the critical failure that reports
    an error no stage has handled. *)
Theorem main_log_shape (w : World) :
  exists middle last,
    log (snd (main read_csv to_csv agg_to_csv w))
    = log w ++ (INFO, "Pipeline execution started") :: middle ++ [last] /\
    (last = (INFO, "Pipeline execution completed successfully")
     \/ exists e, last = (CRITICAL, ("Pipeline execution failed: " ++ message e)%string)).
Proof.
  unfold main, io_bind at 1, try_except, logging at 1.
  set (w0 := {| files := files w;
                log := log w ++ [(INFO, "Pipeline execution started")] |}).
  match goal with |- context [let (r, w') := ?b in _] => destruct b as [r w1] eqn:Hbody end.
  destruct r as [[]|e].
  - apply io_bind_ok_inv in Hbody. destruct Hbody as [df [wa [Ha Hbody]]].
    apply io_bind_ok_inv in Hbody. destruct Hbody as [dfo [wb [Hb Hbody]]].
    apply io_bind_ok_inv in Hbody. destruct Hbody as [u [wc [Hc Hlog]]].
    pose proof (ingest_data_writes_only read_csv [] RAW_DATA_FILE w0) as [_ [ea La]].
    rewrite Ha in La. simpl in La.
    pose proof (ingest_data_writes_only read_csv [] OUTCOMES_DATA_FILE wa) as [_ [eb Lb]].
    rewrite Hb in Lb. simpl in Lb.
    pose proof (guarded_stages_write_only df dfo wb) as [_ [ec Lc]].
    rewrite Hc in Lc. simpl in Lc.
    unfold logging in Hlog. injection Hlog as <-. simpl.
    exists (ea ++ eb ++ ec), (INFO, "Pipeline execution completed successfully").
    split; [|now left].
    rewrite Lc, Lb, La. unfold w0. simpl.
    rewrite <- !app_assoc. reflexivity.
  - assert (Hw : writes_only output_files w0 w1).
    { pose proof (try_except_writes_only output_files
                    (df <- ingest_data read_csv RAW_DATA_FILE ;;
                     df_outcomes <- ingest_data read_csv OUTCOMES_DATA_FILE ;;
                     match df, df_outcomes with
                     | Some df, Some df_outcomes =>
                         stage_data to_csv df df_outcomes STAGED_DATA_FILE ;;
                         df_staged <- ingest_data read_csv STAGED_DATA_FILE ;;
                         primary_data to_csv df_staged PRIMARY_DATA_FILE ;;
                         df_primary <- ingest_data read_csv PRIMARY_DATA_FILE ;;
                         reporting_data agg_to_csv df_primary REPORTING_DATA_FILE
                     | _, _ => ret tt
                     end ;;
                     logging INFO "Pipeline execution completed successfully")
                    (fun _ => ret tt)) as H.
      unfold try_except in H. specialize (H ltac:(
        apply io_bind_writes_only; [intros w'; apply ingest_data_writes_only|];
        intros df; apply io_bind_writes_only; [intros w'; apply ingest_data_writes_only|];
        intros dfo; apply io_bind_writes_only;
        [intros w'; apply guarded_stages_write_only
        |intros _ w'; apply logging_writes_only])
        ltac:(intros e' w'; apply writes_only_refl) w0).
      rewrite Hbody in H. exact H. }
    destruct Hw as [_ [entries Hentries]]. simpl.
    exists entries, (CRITICAL, ("Pipeline execution failed: " ++ message e)%string).
    split; [|right; now exists e].
    rewrite Hentries. unfold w0. simpl. rewrite <- !app_assoc. reflexivity.
Qed.

End Runs.

(** ** Complete runs *)

Section CompleteRuns.

Variable read_csv : string -> result DataFrame.
Variable to_csv : DataFrame -> string.
Variable agg_to_csv : list ReportRow -> string.


(** X8: a failure of the staging does not stop the run.  When the two
    inputs parse, the staging raises and no staged or primary file is
    there, every later step fails in its turn (the staged file is not
    found, the primary stage gets [None], the primary file is not found,
    the reporting stage gets [None]), [main] writes no file, and it still
    logs the successful completion. *)
Theorem main_after_failed_staging (w : World) (raw outcomes : string)
        (df df_outcomes : DataFrame) (e : exn) :
  files w RAW_DATA_FILE = Some raw ->
  read_csv raw = Ok df ->
  files w OUTCOMES_DATA_FILE = Some outcomes ->
  read_csv outcomes = Ok df_outcomes ->
  staged_table df df_outcomes = Raise e ->
  files w STAGED_DATA_FILE = None ->
  files w PRIMARY_DATA_FILE = None ->
  main read_csv to_csv agg_to_csv w
  = (Ok tt,
     {| files := files w;
        log := log w ++
               [(INFO, "Pipeline execution started");
                (INFO, "Starting data ingestion from ./2022-01-cheshire-street.csv");
                (INFO, "Data ingestion from ./2022-01-cheshire-street.csv completed successfully");
                (INFO, "Starting data ingestion from ./2022-01-cheshire-outcomes.csv");
                (INFO, "Data ingestion from ./2022-01-cheshire-outcomes.csv completed successfully");
                (INFO, "Starting data staging");
                (ERROR, ("Error during data staging: " ++ message e)%string);
                (INFO, "Starting data ingestion from ./staged_cheshire_street.csv");
                (ERROR, "File not found: ./staged_cheshire_street.csv");
                (INFO, "Starting primary data transformation");
                (ERROR, "Error during primary data transformation: 'NoneType' object is not subscriptable");
                (INFO, "Starting data ingestion from ./primary_cheshire_street.csv");
                (ERROR, "File not found: ./primary_cheshire_street.csv");
                (INFO, "Starting reporting data aggregation");
                (ERROR, "Error during reporting data aggregation: 'NoneType' object has no attribute 'groupby'");
                (INFO, "Pipeline execution completed successfully")] |}).
Proof.
  intros Hraw Hdf Hout Hdfo Hs Hstaged Hprimary.
  unfold main, io_bind at 1, try_except, logging at 1.
  erewrite io_bind_ok
    by (apply (ingest_data_parsed read_csv RAW_DATA_FILE raw df); [exact Hraw | exact Hdf]).
  erewrite io_bind_ok
    by (apply (ingest_data_parsed read_csv OUTCOMES_DATA_FILE outcomes df_outcomes);
        [exact Hout | exact Hdfo]).
  unfold io_bind at 1.
  erewrite io_bind_ok by (rewrite stage_data_spec, Hs; reflexivity).
  erewrite io_bind_ok
    by (apply (ingest_data_missing read_csv STAGED_DATA_FILE); exact Hstaged).
  erewrite io_bind_ok by (rewrite primary_data_spec; reflexivity).
  erewrite io_bind_ok
    by (apply (ingest_data_missing read_csv PRIMARY_DATA_FILE); exact Hprimary).
  rewrite reporting_data_spec.
  unfold logging. cbn [attribute bind files log]. f_equal. f_equal.
  rewrite <- !app_assoc. reflexivity.
Qed.


End CompleteRuns.


Lemma main_after_failed_staging_witness :
  fst (main Scenario.read_csv Sample.to_csv Sample.agg_to_csv Scenario.swapped_inputs)
  = Ok tt /\
  files (snd (main Scenario.read_csv Sample.to_csv Sample.agg_to_csv
                   Scenario.swapped_inputs))
  = files Scenario.swapped_inputs.
Proof.
  rewrite (main_after_failed_staging Scenario.read_csv Sample.to_csv Sample.agg_to_csv
             Scenario.swapped_inputs "outcomes" "outcomes"
             Sample.outcomes Sample.outcomes (mkExn KeyError "Outcome type")
             eq_refl eq_refl eq_refl eq_refl eq_refl eq_refl eq_refl).
  split; reflexivity.
Defined.


(** ** More on the staging layer *)

Lemma Forall2_traverse {A B : Type} (f : A -> result B) (l : list A) (bs : list B) :
  Forall2 (fun a b => f a = Ok b) l bs -> traverse f l = Ok bs.
Proof.
  induction 1 as [|a b l bs Hab _ IH]; simpl.
  - reflexivity.
  - now rewrite Hab, IH.
Qed.


Lemma categorize_outcome_in_categories (v : value) :
  In (categorize_outcome v) Glossary.categories.
Proof.
  destruct v as [s|f].
  - destruct (categorize_outcome_str s) as [[_ E]|[[_ E]|[[_ E]|[_ E]]]];
      rewrite E; simpl; tauto.
  - rewrite categorize_outcome_float. simpl. tauto.
Qed.

Lemma del_values_street_columns (b s : DataFrame) (c : string) :
  del_values_street b = Ok s -> In c cols_to_delete -> has_column s c = false.
Proof.
  unfold del_values_street, drop_columns.
  destruct (filter _ cols_to_delete); [|discriminate].
  intros H Hc. injection H as <-. unfold has_column. cbn [columns].
  rewrite mem_filter. apply mem_In in Hc. simpl in Hc. rewrite Hc. apply andb_false_r.
Qed.

(** X10: [apply_categorization] needs the [Final Outcome] column and
    raises a [KeyError] without it.  With it, the frame it gives has a
    [Broad Outcome Category] column that holds in every row one of the four
    labels, as text and so never a missing value, namely the category of
    the row's [Final Outcome]; every other field of the row is as it was. *)
Theorem apply_categorization_labels (df : DataFrame) :
  (has_column df "Final Outcome" = false ->
   apply_categorization df = Raise (mkExn KeyError "Final Outcome")) /\
  (aligned df ->
   forall df', apply_categorization df = Ok df' ->
     has_column df' "Broad Outcome Category" = true /\
     Forall2
       (fun r r' =>
          (exists final,
              row_lookup (columns df) r "Final Outcome" = Some final /\
              row_lookup (columns df') r' "Broad Outcome Category"
              = Some (VStr (categorize_outcome final)) /\
              In (categorize_outcome final) Glossary.categories /\
              pd_notnull (VStr (categorize_outcome final)) = true) /\
          (forall l, l <> "Broad Outcome Category" ->
                     row_lookup (columns df') r' l = row_lookup (columns df) r l))
       (rows df) (rows df')).
Proof.
  split.
  - intros Hno. unfold apply_categorization, getitem. now rewrite Hno.
  - intros Hal df'. unfold apply_categorization.
    destruct (getitem df "Final Outcome") as [finals|e] eqn:Hf; cbn [bind];
      [|discriminate].
    intros H. injection H as <-. split.
    { rewrite has_column_setitem, String.eqb_refl. apply orb_true_r. }
    apply getitem_Forall2 in Hf. destruct Hf as [_ Hf].
    assert (Hf' : Forall2 (fun r v => exists f,
                               row_lookup (columns df) r "Final Outcome" = Some f
                               /\ v = VStr (categorize_outcome f))
                          (rows df) (map (fun v => VStr (categorize_outcome v)) finals)).
    { apply Forall2_map_r. apply Forall2_weaken with (2 := Hf).
      intros r f _ Hrf. now exists f. }
    pose proof (setitem_rows df "Broad Outcome Category" _ _ Hf') as Hrows.
    apply Forall2_weaken with (2 := Hrows).
    intros r r' Hin [v [[f [Hrf ->]] ->]].
    pose proof (aligned_row df r Hal Hin) as Hlen. split.
    + exists f. split; [assumption|]. split.
      * now apply (row_lookup_set_same (columns df)).
      * split; [apply categorize_outcome_in_categories | reflexivity].
    + intros l Hl. now apply (row_lookup_set_other (columns df)).
Qed.

Lemma apply_categorization_labels_witness :
  exists df',
    apply_categorization Scenario.with_final_outcome = Ok df' /\
    has_column df' "Broad Outcome Category" = true.
Proof.
  eexists. split; [reflexivity|].
  apply (proj2 (apply_categorization_labels Scenario.with_final_outcome)).
  - apply well_formedb_sound. reflexivity.
  - reflexivity.
Defined.

(** X11: a staged table cannot be staged again.  The staging drops the
    columns it needs from the incidents, so [staged_table] on one of its
    own results raises, whatever the outcomes table is, and [stage_data]
    then writes nothing. *)
Theorem staged_table_not_again (df df_outcomes s : DataFrame) :
  staged_table df df_outcomes = Ok s ->
  forall df_outcomes' (to_csv : DataFrame -> string) (output_file : string) (w : World),
  exists e,
    staged_table s df_outcomes' = Raise e /\
    files (snd (stage_data to_csv s df_outcomes' output_file w)) = files w.
Proof.
  intros Hs df_outcomes' to_csv output_file w.
  destruct (staged_table_steps _ _ _ Hs) as [m [a [b [_ [_ [_ Hdrop]]]]]].
  assert (Hno : has_column s "Context" = false).
  { apply (del_values_street_columns b s); [assumption|]. simpl. tauto. }
  destruct (staged_table_missing_column s df_outcomes' "Context") as [e He];
    [simpl; tauto | assumption |].
  exists e. split; [assumption|]. rewrite stage_data_spec, He. reflexivity.
Qed.

Lemma staged_table_not_again_witness :
  exists e,
    staged_table Sample.staged Sample.outcomes = Raise e /\
    files (snd (stage_data Sample.to_csv Sample.staged Sample.outcomes
                           STAGED_DATA_FILE Sample.empty_directory))
    = files Sample.empty_directory.
Proof.
  apply (staged_table_not_again Sample.incidents Sample.outcomes Sample.staged).
  reflexivity.
Defined.

(** In a merge the [Outcome type] column of the incidents is renamed. *)
Lemma merge_data_renames_outcome_type (df df_outcomes m : DataFrame) :
  has_column df "Outcome type" = true ->
  merge_data df df_outcomes = Ok m ->
  has_column m "Outcome type" = false.
Proof.
  intros Hhas. unfold merge_data.
  destruct (select_columns df_outcomes ["Crime ID"; "Outcome type"]) as [picked|e] eqn:Hsel;
    cbn [bind]; [|discriminate].
  destruct (select_outcomes _ _ Hsel) as [Hcols _].
  unfold pd_merge_left. rewrite Hcols.
  destruct (negb (has_column df "Crime ID") || negb (has_column picked "Crime ID"));
    [discriminate|].
  destruct (traverse _ (rows df)) as [blocks|e]; cbn [bind]; [|discriminate].
  intros H. injection H as <-. unfold has_column. cbn [columns].
  set (overlap := filter _ (filter _ (columns df))).
  assert (Hover : forall x, mem x overlap = true -> x = "Outcome type").
  { intros x Hx. apply mem_In in Hx. unfold overlap in Hx.
    apply filter_In in Hx. destruct Hx as [_ Hx].
    change (mem x ["Outcome type"] = true) in Hx.
    apply mem_In in Hx. destruct Hx as [<-|[]]. reflexivity. }
  assert (Hin : mem "Outcome type" overlap = true).
  { apply mem_In. unfold overlap. apply filter_In. split; [|reflexivity].
    apply filter_In. split; [now apply mem_In | reflexivity]. }
  apply mem_false. intros Hc. apply in_app_or in Hc. destruct Hc as [Hc|Hc].
  - apply in_map_iff in Hc. destruct Hc as [c0 [Hc0 _]]. unfold suffixed in Hc0.
    destruct (mem c0 overlap) eqn:Hc0o.
    + rewrite (Hover c0 Hc0o) in Hc0. discriminate.
    + subst c0. congruence.
  - destruct Hc as [Hc|[]]. unfold suffixed in Hc. rewrite Hin in Hc. discriminate.
Qed.

(** X12: incidents that bring an [Outcome type] column of their own
    cannot be staged.  The merge renames the column on both sides, so the
    frame has no [Outcome type] any more, [staged_table] raises and
    [stage_data] writes nothing. *)
Theorem staged_table_own_outcome_type (df df_outcomes : DataFrame) :
  has_column df "Outcome type" = true ->
  (forall m, merge_data df df_outcomes = Ok m -> has_column m "Outcome type" = false) /\
  (exists e, staged_table df df_outcomes = Raise e) /\
  forall (to_csv : DataFrame -> string) (output_file : string) (w : World),
    files (snd (stage_data to_csv df df_outcomes output_file w)) = files w.
Proof.
  intros Hhas.
  assert (Hraise : exists e, staged_table df df_outcomes = Raise e).
  { unfold staged_table.
    destruct (merge_data df df_outcomes) as [m|e] eqn:Hm; cbn [bind]; [|eauto].
    pose proof (merge_data_renames_outcome_type _ _ _ Hhas Hm) as Hnom.
    destruct (finaloutcome m) as [a|e] eqn:Ha; cbn [bind]; [|eauto].
    assert (Hnoa : has_column a "Outcome type" = false).
    { unfold finaloutcome in Ha. destruct (apply_rows m final_outcome_of_row);
        cbn [bind] in Ha; [|discriminate]. injection Ha as <-.
      rewrite has_column_setitem, Hnom. reflexivity. }
    destruct (apply_categorization a) as [b|e] eqn:Hb; cbn [bind]; [|eauto].
    assert (Hnob : has_column b "Outcome type" = false).
    { unfold apply_categorization in Hb. destruct (getitem a "Final Outcome");
        cbn [bind] in Hb; [|discriminate]. injection Hb as <-.
      rewrite has_column_setitem, Hnoa. reflexivity. }
    apply (drop_columns_missing b cols_to_delete "Outcome type"); [|assumption].
    simpl. tauto. }
  split; [|split; [assumption|]].
  - intros m. now apply merge_data_renames_outcome_type.
  - intros to_csv output_file w. destruct Hraise as [e He].
    rewrite stage_data_spec, He. reflexivity.
Qed.

Lemma staged_table_own_outcome_type_witness :
  exists e, staged_table Scenario.incidents_with_outcome_type Sample.outcomes = Raise e.
Proof.
  apply (staged_table_own_outcome_type Scenario.incidents_with_outcome_type
                                       Sample.outcomes).
  reflexivity.
Defined.

(** ** More on the merge and on the final outcome *)

Lemma row_lookup_not_mem (cols : list string) (r : list value) (l : string) :
  mem l cols = false -> row_lookup cols r l = None.
Proof.
  revert r. induction cols as [|c cs IH]; intros r H.
  - now destruct r.
  - destruct r as [|x xs]; [reflexivity|]. simpl in *.
    rewrite String.eqb_sym in H. apply orb_false_elim in H. destruct H as [-> H].
    now apply IH.
Qed.



Lemma concat_singletons {A B : Type} (R : A -> B -> Prop) (l : list A)
      (blocks : list (list B)) :
  Forall2 (fun a block => exists b, block = [b] /\ R a b) l blocks ->
  Forall2 R l (List.concat blocks).
Proof.
  induction 1 as [|a block l blocks [b [-> Hab]] _ IH]; simpl; constructor; assumption.
Qed.

(** X14: when no [Crime ID] of an incident occurs more than once in the
    outcomes, the merge keeps the incidents row for row: the merged frame
    has as many rows as the incidents, in the same order, each one the
    incident row followed by the [Outcome type] of its one outcome row, or
    by the missing value when it has none.  With an outcomes table that has
    no rows every incident row is followed by the missing value. *)
Theorem merge_data_single_outcomes (df df_outcomes m : DataFrame) :
  merge_data df df_outcomes = Ok m ->
  (forall l k, In l (rows df) -> row_lookup (columns df) l "Crime ID" = Some k ->
               List.length (outcome_matches df_outcomes k) <= 1) ->
  List.length (rows m) = List.length (rows df) /\
  Forall2
    (fun l merged_row =>
       exists k,
         row_lookup (columns df) l "Crime ID" = Some k /\
         ((outcome_matches df_outcomes k = [] /\ merged_row = l ++ [NaN]) \/
          exists o outcome_type,
            outcome_matches df_outcomes k = [o] /\
            row_lookup (columns df_outcomes) o "Outcome type" = Some outcome_type /\
            merged_row = l ++ [outcome_type]))
    (rows df) (rows m) /\
  (rows df_outcomes = [] -> rows m = map (fun l => l ++ [NaN]) (rows df)).
Proof.
  intros Hm Hsingle.
  destruct (merge_data_blocks _ _ _ Hm) as [blocks [Hrows [Hblocks _]]].
  assert (Hone : Forall2
                   (fun l merged_row =>
                      exists k,
                        row_lookup (columns df) l "Crime ID" = Some k /\
                        ((outcome_matches df_outcomes k = [] /\ merged_row = l ++ [NaN]) \/
                         exists o outcome_type,
                           outcome_matches df_outcomes k = [o] /\
                           row_lookup (columns df_outcomes) o "Outcome type"
                           = Some outcome_type /\
                           merged_row = l ++ [outcome_type]))
                   (rows df) (rows m)).
  { rewrite Hrows. apply concat_singletons.
    apply Forall2_weaken with (2 := Hblocks).
    intros l block Hin [k [Hk [Hnone Hsome]]].
    specialize (Hsingle l k Hin Hk).
    destruct (outcome_matches df_outcomes k) as [|o [|o' os]] eqn:Hmatch.
    - exists (l ++ [NaN]). split; [now apply Hnone|].
      exists k. split; [assumption|]. now left.
    - specialize (Hsome ltac:(discriminate)).
      inversion Hsome as [|? mr ? rest [ot [Hot ->]] Hrest]; subst.
      inversion Hrest; subst.
      exists (l ++ [ot]). split; [reflexivity|].
      exists k. split; [assumption|]. right. now exists o, ot.
    - simpl in Hsingle. lia. }
  split; [|split; [assumption|]].
  - symmetry. eapply Forall2_length. eassumption.
  - intros Hempty. clear - Hone Hempty.
    induction Hone as [|l mr ls mrs [k [_ Hcase]] _ IH]; simpl; [reflexivity|].
    rewrite IH. f_equal.
    destruct Hcase as [[_ ->]|[o [ot [Hmatch _]]]]; [reflexivity|].
    unfold outcome_matches, matching in Hmatch. rewrite Hempty in Hmatch. discriminate.
Qed.

Lemma merge_data_single_outcomes_witness :
  exists m,
    merge_data Sample.incidents Scenario.single_outcomes = Ok m /\
    List.length (rows m) = List.length (rows Sample.incidents).
Proof.
  eexists. split; [reflexivity|].
  apply (merge_data_single_outcomes Sample.incidents Scenario.single_outcomes).
  - reflexivity.
  - intros l k Hin Hk. simpl in Hin.
    destruct Hin as [<-|[<-|[<-|[]]]]; injection Hk as <-; vm_compute;
      repeat constructor.
Defined.



(** ** More on the primary transformation *)

Lemma row_lookup_Some_mem (cols : list string) (r : list value) (l : string) (v : value) :
  row_lookup cols r l = Some v -> mem l cols = true.
Proof.
  intros H. destruct (mem l cols) eqn:Hm; [reflexivity|].
  rewrite (row_lookup_not_mem cols r l Hm) in H. discriminate.
Qed.

Lemma Forall2_In_l {A B : Type} (R : A -> B -> Prop) (l : list A) (l' : list B) (a : A) :
  Forall2 R l l' -> In a l -> exists b, In b l' /\ R a b.
Proof.
  induction 1 as [|x y l l' Hxy _ IH]; intros Hin; [destruct Hin|].
  destruct Hin as [<-|Hin].
  - exists y. split; [now left | assumption].
  - destruct (IH Hin) as [b [Hb Hab]]. exists b. split; [now right | assumption].
Qed.

Lemma Forall2_In_r {A B : Type} (R : A -> B -> Prop) (l : list A) (l' : list B) (b : B) :
  Forall2 R l l' -> In b l' -> exists a, In a l /\ R a b.
Proof.
  induction 1 as [|x y l l' Hxy _ IH]; intros Hin; [destruct Hin|].
  destruct Hin as [<-|Hin].
  - exists x. split; [now left | assumption].
  - destruct (IH Hin) as [a [Ha Hab]]. exists a. split; [now right | assumption].
Qed.

(** Reading back the column just assigned. *)
Lemma getitem_setitem_same (df : DataFrame) (l : string) (vals : list value) :
  aligned df -> List.length vals = List.length (rows df) ->
  getitem (setitem df l vals) l = Ok vals.
Proof.
  intros Hal Hlen. unfold getitem.
  rewrite has_column_setitem, String.eqb_refl, orb_true_r.
  apply Forall2_traverse. unfold setitem, has_column. cbn [columns rows].
  unfold aligned in Hal. revert vals Hlen.
  induction Hal as [|r rs Hr _ IH]; intros vals Hlen.
  - destruct vals; [constructor | discriminate].
  - destruct vals as [|v vals]; [discriminate|]. simpl. constructor.
    + unfold row_getitem. now rewrite row_lookup_set_same.
    + apply IH. now injection Hlen.
Qed.

(** Reading another column after an assignment. *)
Lemma getitem_setitem_other (df : DataFrame) (l l' : string) (vals xs : list value) :
  aligned df -> List.length vals = List.length (rows df) -> l' <> l ->
  getitem df l' = Ok xs ->
  getitem (setitem df l vals) l' = Ok xs.
Proof.
  intros Hal Hlen Hne Hget. apply getitem_Forall2 in Hget. destruct Hget as [Hhas Hxs].
  unfold getitem. rewrite has_column_setitem, Hhas. cbn [orb].
  apply Forall2_traverse. unfold setitem, has_column. cbn [columns rows].
  unfold aligned in Hal. revert vals Hlen xs Hxs.
  induction Hal as [|r rs Hr _ IH]; intros vals Hlen xs Hxs.
  - inversion Hxs. destruct vals; [constructor | discriminate].
  - destruct vals as [|v vals]; [discriminate|].
    inversion Hxs as [|? x ? xs' Hrx Hrest]; subst. simpl. constructor.
    + unfold row_getitem. rewrite row_lookup_set_other by assumption. now rewrite Hrx.
    + apply IH; [now injection Hlen | assumption].
Qed.

(** X16: running the primary transformation on its own result changes
    nothing: when it gives a table, it gives the same table on that table.
    The retyping changes no value and the sum is recomputed from the same
    coordinates. *)
Theorem primary_transformations_idempotent (df df' : DataFrame) :
  aligned df ->
  primary_transformations df = Ok df' ->
  primary_transformations df' = Ok df'.
Proof.
  intros Hal H. pose proof H as Hcases.
  apply primary_transformations_cases in Hcases.
  destruct Hcases as [_ [_ Hcases]].
  destruct (has_column df "Latitude" && has_column df "Longitude") eqn:Hboth.
  - destruct Hcases as [lat [lon [total [Hlat [Hlon [Hadd ->]]]]]].
    assert (Hlen : List.length total = List.length (rows df)).
    { symmetry. eapply Forall2_length. eapply series_add_rows; eassumption. }
    unfold primary_transformations in H.
    destruct (getitem df "Crime type") as [ct|e] eqn:Hct; cbn [bind] in H; [|discriminate].
    rewrite (setitem_own_values _ _ _ Hct) in H.
    destruct (getitem df "Broad Outcome Category") as [broad|e] eqn:Hb; cbn [bind] in H;
      [|discriminate].
    clear H. unfold primary_transformations.
    rewrite (getitem_setitem_other df "Location Sum" "Crime type" total ct Hal Hlen
                                   ltac:(discriminate) Hct).
    cbn [bind].
    rewrite (setitem_own_values (setitem df "Location Sum" total) "Crime type" ct)
      by (apply getitem_setitem_other; [assumption | assumption | discriminate | assumption]).
    rewrite (getitem_setitem_other df "Location Sum" "Broad Outcome Category" total broad
                                   Hal Hlen ltac:(discriminate) Hb).
    cbn [bind].
    rewrite (setitem_own_values (setitem df "Location Sum" total)
                                "Broad Outcome Category" broad)
      by (apply getitem_setitem_other; [assumption | assumption | discriminate | assumption]).
    rewrite !has_column_setitem.
    apply andb_prop in Hboth. destruct Hboth as [-> ->]. cbn [orb andb].
    rewrite (getitem_setitem_other df "Location Sum" "Latitude" total lat Hal Hlen
                                   ltac:(discriminate) Hlat).
    rewrite (getitem_setitem_other df "Location Sum" "Longitude" total lon Hal Hlen
                                   ltac:(discriminate) Hlon).
    cbn [bind]. rewrite Hadd. cbn [bind]. f_equal.
    apply (setitem_own_values (setitem df "Location Sum" total) "Location Sum" total).
    now apply getitem_setitem_same.
  - now subst df'.
Qed.

Lemma primary_transformations_idempotent_witness :
  primary_transformations Sample.staged = Ok Scenario.primary /\
  primary_transformations Scenario.primary = Ok Scenario.primary.
Proof.
  split; [reflexivity|].
  apply (primary_transformations_idempotent Sample.staged Scenario.primary).
  - apply well_formedb_sound. reflexivity.
  - reflexivity.
Defined.

(** X17: the primary transformation gives a table exactly when the table
    it is given has the [Crime type] and the [Broad Outcome Category]
    column and, if it has both coordinates, they can be added in every row:
    a missing column or a text next to a number makes it raise.  The table
    it gives has as many rows as the one it is given, each with one value
    per column. *)
Theorem primary_transformations_succeeds_iff (df : DataFrame) :
  well_formed df ->
  ((exists df', primary_transformations df = Ok df')
   <-> has_column df "Crime type" = true
       /\ has_column df "Broad Outcome Category" = true
       /\ (forall r lat lon,
              In r (rows df) ->
              row_lookup (columns df) r "Latitude" = Some lat ->
              row_lookup (columns df) r "Longitude" = Some lon ->
              exists total, add_values lat lon = Ok total)) /\
  (forall df', primary_transformations df = Ok df' ->
               List.length (rows df') = List.length (rows df) /\ aligned df').
Proof.
  intros Hwf. split.
  - split.
    + intros [df' H]. apply primary_transformations_cases in H.
      destruct H as [Hct [Hb H]]. split; [assumption|]. split; [assumption|].
      intros r lat lon Hin Hlat Hlon.
      rewrite (row_lookup_Some_mem _ _ _ _ Hlat : has_column df "Latitude" = true) in H.
      rewrite (row_lookup_Some_mem _ _ _ _ Hlon : has_column df "Longitude" = true) in H.
      cbn [andb] in H. destruct H as [la [lo [total [Hla [Hlo [Hadd _]]]]]].
      pose proof (series_add_rows df la lo total Hla Hlo Hadd) as Hrows.
      destruct (Forall2_In_l _ _ _ r Hrows Hin) as [v [_ [lat' [lon' [H1 [H2 H3]]]]]].
      exists v. congruence.
    + intros [Hct [Hb Hadd]]. now apply primary_transformations_total.
  - intros df' H. apply primary_transformations_cases in H.
    destruct H as [_ [_ H]].
    destruct (has_column df "Latitude" && has_column df "Longitude").
    + destruct H as [la [lo [total [Hla [Hlo [Hadd ->]]]]]].
      pose proof (series_add_rows df la lo total Hla Hlo Hadd) as Hrows.
      split.
      * symmetry. eapply Forall2_length.
        apply (setitem_rows df "Location Sum" total _ Hrows).
      * apply setitem_aligned. apply Hwf.
    + subst df'. split; [reflexivity | apply Hwf].
Qed.

Lemma primary_transformations_succeeds_iff_witness :
  (exists df', primary_transformations Sample.staged = Ok df') /\
  List.length (rows Scenario.primary) = List.length (rows Sample.staged).
Proof.
  pose proof (primary_transformations_succeeds_iff
                Sample.staged (well_formedb_sound Sample.staged eq_refl)) as [_ H].
  split.
  - exists Scenario.primary. reflexivity.
  - apply (H Scenario.primary). reflexivity.
Defined.

(** ** More on the reporting aggregation *)

Lemma key_eqb_refl (v : value) : key_eqb v v = true.
Proof.
  destruct v as [s|x]; simpl; [apply String.eqb_refl|].
  unfold is_nan. now destruct (x =? x)%float.
Qed.

Lemma group_eqb_refl (k : value * value) : group_eqb k k = true.
Proof. unfold group_eqb. now rewrite !key_eqb_refl. Qed.

(** Counting a key keeps the keys that are there... *)
Lemma count_key_keeps (k : value * value) (groups : list ReportRow) (g0 : ReportRow) :
  In g0 groups -> exists g, In g (count_key k groups) /\ group_key g = group_key g0.
Proof.
  induction groups as [|h rest IH]; intros Hin; [destruct Hin|]. simpl.
  destruct (group_eqb k (crime_type h, broad_outcome_category h)).
  - destruct Hin as [<-|Hin].
    + eexists. split; [now left | reflexivity].
    + exists g0. split; [now right | reflexivity].
  - destruct (group_ltb k (crime_type h, broad_outcome_category h)).
    + exists g0. split; [now right | reflexivity].
    + destruct Hin as [<-|Hin].
      * exists h. split; [now left | reflexivity].
      * destruct (IH Hin) as [g [Hg Hkey]]. exists g. split; [now right | assumption].
Qed.

(** ... adds no key but the one counted... *)
Lemma count_key_sound (k : value * value) (groups : list ReportRow) (g : ReportRow) :
  In g (count_key k groups) ->
  group_key g = k \/ exists g0, In g0 groups /\ group_key g0 = group_key g.
Proof.
  induction groups as [|h rest IH]; simpl.
  - intros [Hg|[]]. subst g. left. now destruct k.
  - destruct (group_eqb k (crime_type h, broad_outcome_category h)).
    + intros [Hg|Hin].
      * subst g. right. exists h. split; [now left | reflexivity].
      * right. exists g. split; [now right | reflexivity].
    + destruct (group_ltb k (crime_type h, broad_outcome_category h)).
      * intros [Hg|Hin]; [subst g; left; now destruct k|].
        right. exists g. split; [assumption | reflexivity].
      * intros [Hg|Hin].
        -- subst g. right. exists h. split; [now left | reflexivity].
        -- destruct (IH Hin) as [Hk|[g0 [Hg0 Hkey]]]; [now left|].
           right. exists g0. split; [now right | assumption].
Qed.

(** ... and has a group for the key counted. *)
Lemma count_key_complete (k : value * value) (groups : list ReportRow) :
  exists g, In g (count_key k groups) /\ group_eqb k (group_key g) = true.
Proof.
  induction groups as [|h rest IH]; simpl.
  - eexists. split; [now left|]. unfold group_key. simpl.
    destruct k. apply group_eqb_refl.
  - destruct (group_eqb k (crime_type h, broad_outcome_category h)) eqn:Heq.
    + eexists. split; [now left | exact Heq].
    + destruct (group_ltb k (crime_type h, broad_outcome_category h)).
      * eexists. split; [now left|]. unfold group_key. simpl.
        destruct k. apply group_eqb_refl.
      * destruct IH as [g [Hg Hk]]. exists g. split; [now right | assumption].
Qed.

Lemma count_keys_groups (keys : list (value * value)) (groups : list ReportRow) :
  (forall g, In g (fold_left (fun gs k => count_key k gs) keys groups) ->
             In (group_key g) keys
             \/ exists g0, In g0 groups /\ group_key g0 = group_key g) /\
  (forall k, In k keys ->
             exists g, In g (fold_left (fun gs k => count_key k gs) keys groups)
                       /\ group_eqb k (group_key g) = true) /\
  (forall g0, In g0 groups ->
              exists g, In g (fold_left (fun gs k => count_key k gs) keys groups)
                        /\ group_key g = group_key g0).
Proof.
  revert groups. induction keys as [|k keys IH]; intros groups; simpl.
  - split; [|split].
    + intros g Hg. right. now exists g.
    + intros k [].
    + intros g0 Hg0. now exists g0.
  - destruct (IH (count_key k groups)) as [Hsound [Hcomplete Hkeeps]].
    split; [|split].
    + intros g Hg. destruct (Hsound g Hg) as [Hin|[g1 [Hg1 Hkey]]]; [left; now right|].
      destruct (count_key_sound k groups g1 Hg1) as [Hk|[g0 [Hg0 Hkey0]]].
      * left. left. congruence.
      * right. exists g0. split; [assumption | congruence].
    + intros k' [<-|Hin]; [|now apply Hcomplete].
      destruct (count_key_complete k groups) as [g1 [Hg1 Hk]].
      destruct (Hkeeps g1 Hg1) as [g [Hg Hkey]].
      exists g. split; [assumption | now rewrite Hkey].
    + intros g0 Hg0. destruct (count_key_keeps k groups g0 Hg0) as [g1 [Hg1 Hkey1]].
      destruct (Hkeeps g1 Hg1) as [g [Hg Hkey]].
      exists g. split; [assumption | congruence].
Qed.

(** X18: the aggregation emits the pairs of keys that occur and no
    other.  Every reporting row carries the [Crime type] and the
    [Broad Outcome Category] of some row of the primary table, both
    present; and every row of the primary table in which both are present
    has a reporting row with an equal pair of keys. *)
Theorem reporting_aggregation_groups (df : DataFrame) (agg : list ReportRow) :
  reporting_aggregation df = Ok agg ->
  (forall g, In g agg ->
             pd_notnull (crime_type g) = true /\
             pd_notnull (broad_outcome_category g) = true /\
             exists r, In r (rows df) /\
                       row_lookup (columns df) r "Crime type" = Some (crime_type g) /\
                       row_lookup (columns df) r "Broad Outcome Category"
                       = Some (broad_outcome_category g)) /\
  (forall r x y,
      In r (rows df) ->
      row_lookup (columns df) r "Crime type" = Some x ->
      row_lookup (columns df) r "Broad Outcome Category" = Some y ->
      pd_notnull x = true -> pd_notnull y = true ->
      exists g, In g agg /\ key_eqb x (crime_type g) = true
                /\ key_eqb y (broad_outcome_category g) = true).
Proof.
  unfold reporting_aggregation, groupby_size.
  destruct (getitem df "Crime type") as [ka|e] eqn:Ha; cbn [bind]; [|discriminate].
  destruct (getitem df "Broad Outcome Category") as [kb|e] eqn:Hb; cbn [bind];
    [|discriminate].
  intros H. injection H as <-.
  apply getitem_Forall2 in Ha. apply getitem_Forall2 in Hb.
  destruct Ha as [_ Ha]. destruct Hb as [_ Hb].
  pose proof (Forall2_combine _ _ _ _ _ Ha Hb) as Hkeys.
  destruct (count_keys_groups (grouped_keys (combine ka kb)) [])
    as [Hsound [Hcomplete _]].
  split.
  - intros g Hg. destruct (Hsound g Hg) as [Hin|[g0 [[] _]]].
    unfold grouped_keys in Hin. apply filter_In in Hin. destruct Hin as [Hin Hnn].
    apply andb_prop in Hnn. destruct Hnn as [Hx Hy].
    destruct (Forall2_In_r _ _ _ _ Hkeys Hin) as [r [Hr [H1 H2]]].
    split; [exact Hx|]. split; [exact Hy|]. now exists r.
  - intros r x y Hin Hx Hy Hnx Hny.
    destruct (Forall2_In_l _ _ _ r Hkeys Hin) as [k [Hk [H1 H2]]].
    assert (k = (x, y)) as ->.
    { destruct k as [a b]. simpl in H1, H2. congruence. }
    destruct (Hcomplete (x, y)) as [g [Hg Heq]].
    { unfold grouped_keys. apply filter_In. split; [assumption|].
      simpl. now rewrite Hnx, Hny. }
    exists g. split; [assumption|]. unfold group_eqb in Heq.
    apply andb_prop in Heq. exact Heq.
Qed.

Lemma reporting_aggregation_groups_witness :
  reporting_aggregation Sample.staged = Ok Scenario.report /\
  forall g, In g Scenario.report -> pd_notnull (crime_type g) = true.
Proof.
  split; [reflexivity|].
  intros g Hg.
  apply (proj1 (reporting_aggregation_groups Sample.staged Scenario.report eq_refl) g Hg).
Defined.

(** X19: in a staged table the category is never missing, so the
    aggregation of a staged table counts exactly its rows that have a
    crime type: the counts add up to their number. *)
Theorem staged_table_counts (df df_outcomes s : DataFrame) (agg : list ReportRow) :
  aligned df ->
  staged_table df df_outcomes = Ok s ->
  reporting_aggregation s = Ok agg ->
  total_count agg
  = List.length
      (filter (fun r => match row_lookup (columns s) r "Crime type" with
                        | Some x => pd_notnull x
                        | None => false
                        end) (rows s)).
Proof.
  intros Hal Hs Hagg.
  destruct (staged_table_steps _ _ _ Hs) as [m [a [b [Hm [Ha [Hb Hdrop]]]]]].
  pose proof (after_merge_rows m a b s (merge_data_aligned _ _ _ Hal Hm) Ha Hb Hdrop)
    as Hrows.
  unfold reporting_aggregation, groupby_size in Hagg.
  destruct (getitem s "Crime type") as [ka|e] eqn:Hka; cbn [bind] in Hagg; [|discriminate].
  destruct (getitem s "Broad Outcome Category") as [kb|e] eqn:Hkb; cbn [bind] in Hagg;
    [|discriminate].
  injection Hagg as <-.
  destruct (count_keys (grouped_keys (combine ka kb)) []) as [Hsum _]; [constructor|].
  rewrite Hsum. simpl. rewrite Nat.add_0_r.
  rewrite (grouped_keys_keyed_rows s _ _ ka kb Hka Hkb).
  unfold keyed_rows. f_equal. apply filter_ext_in. intros r' Hin.
  destruct (Forall2_In_r _ _ _ r' Hrows Hin) as [r [_ [final [_ [Hcat _]]]]].
  rewrite Hcat. destruct (row_lookup (columns s) r' "Crime type") as [x|]; [|reflexivity].
  simpl. apply andb_true_r.
Qed.

Lemma staged_table_counts_witness :
  total_count Scenario.report = 3.
Proof.
  rewrite (staged_table_counts Sample.incidents Sample.outcomes Sample.staged
             Scenario.report (proj2 (well_formedb_sound Sample.incidents eq_refl))
             eq_refl eq_refl).
  reflexivity.
Defined.

(** ** The order of the reporting rows *)

Lemma string_compare_refl (s : string) : String.compare s s = Eq.
Proof.
  pose proof (String.compare_antisym s s) as H.
  destruct (String.compare s s); simpl in H; congruence.
Qed.

Lemma string_compare_trans (a b c : string) :
  String.compare a b = Lt -> String.compare b c = Lt -> String.compare a c = Lt.
Proof.
  revert b c. induction a as [|x a IH]; intros [|y b] [|z c]; simpl; try congruence.
  unfold Ascii.compare.
  destruct (N.compare_spec (N_of_ascii x) (N_of_ascii y)) as [Hxy|Hxy|Hxy];
    destruct (N.compare_spec (N_of_ascii y) (N_of_ascii z)) as [Hyz|Hyz|Hyz];
    try congruence; intros H1 H2.
  - rewrite Hxy, Hyz, N.compare_refl. now apply (IH b c).
  - rewrite Hxy. now apply N.compare_lt_iff in Hyz as ->.
  - rewrite <- Hyz. now apply N.compare_lt_iff in Hxy as ->.
  - assert (Hxz : (N_of_ascii x < N_of_ascii z)%N) by (eapply N.lt_trans; eassumption).
    now apply N.compare_lt_iff in Hxz as ->.
Qed.

Lemma string_ltb_irrefl (s : string) : String.ltb s s = false.
Proof. unfold String.ltb. now rewrite string_compare_refl. Qed.

Lemma string_ltb_trans (a b c : string) :
  String.ltb a b = true -> String.ltb b c = true -> String.ltb a c = true.
Proof.
  unfold String.ltb. intros H1 H2.
  rewrite (string_compare_trans a b c); [reflexivity | |].
  - now destruct (String.compare a b).
  - now destruct (String.compare b c).
Qed.

(** Two texts are equal or one is before the other. *)
Lemma string_ltb_total (a b : string) :
  String.eqb a b = false -> String.ltb a b = false -> String.ltb b a = true.
Proof.
  unfold String.ltb. intros Hne Hlt. rewrite String.compare_antisym.
  destruct (String.compare a b) eqn:Hc; try discriminate; [|reflexivity].
  apply String.compare_eq_iff in Hc. subst. now rewrite String.eqb_refl in Hne.
Qed.

Lemma group_ltb_text_irrefl (a b : string) :
  group_ltb (VStr a, VStr b) (VStr a, VStr b) = false.
Proof.
  unfold group_ltb. simpl. now rewrite !string_ltb_irrefl, andb_false_r.
Qed.

Lemma group_ltb_text_trans (a1 a2 b1 b2 c1 c2 : string) :
  group_ltb (VStr a1, VStr a2) (VStr b1, VStr b2) = true ->
  group_ltb (VStr b1, VStr b2) (VStr c1, VStr c2) = true ->
  group_ltb (VStr a1, VStr a2) (VStr c1, VStr c2) = true.
Proof.
  unfold group_ltb. simpl. intros H1 H2.
  apply orb_true_iff in H1. apply orb_true_iff in H2. apply orb_true_iff.
  destruct H1 as [H1|H1], H2 as [H2|H2].
  - left. now apply (string_ltb_trans a1 b1 c1).
  - apply andb_prop in H2. destruct H2 as [He _]. apply String.eqb_eq in He.
    subst. now left.
  - apply andb_prop in H1. destruct H1 as [He _]. apply String.eqb_eq in He.
    subst. now left.
  - apply andb_prop in H1. apply andb_prop in H2.
    destruct H1 as [He1 H1], H2 as [He2 H2].
    apply String.eqb_eq in He1. apply String.eqb_eq in He2. subst.
    right. rewrite String.eqb_refl. simpl. now apply (string_ltb_trans a2 b2 c2).
Qed.

Lemma group_ltb_text_total (a1 a2 b1 b2 : string) :
  group_eqb (VStr a1, VStr a2) (VStr b1, VStr b2) = false ->
  group_ltb (VStr a1, VStr a2) (VStr b1, VStr b2) = false ->
  group_ltb (VStr b1, VStr b2) (VStr a1, VStr a2) = true.
Proof.
  unfold group_eqb, group_ltb. simpl. intros Hne Hlt.
  apply orb_false_elim in Hlt. destruct Hlt as [Hlt1 Hlt2].
  destruct (String.eqb a1 b1) eqn:He1; simpl in *.
  - apply String.eqb_eq in He1. subst b1.
    rewrite String.eqb_refl, string_ltb_irrefl. simpl.
    now apply string_ltb_total.
  - rewrite (string_ltb_total a1 b1 He1 Hlt1). reflexivity.
Qed.

Lemma count_key_cons (k : value * value) (h : ReportRow) (rest : list ReportRow) :
  count_key k (h :: rest)
  = if group_eqb k (group_key h)
    then mkReportRow (crime_type h) (broad_outcome_category h) (S (Count h)) :: rest
    else if group_ltb k (group_key h)
         then mkReportRow (fst k) (snd k) 1 :: h :: rest
         else h :: count_key k rest.
Proof. reflexivity. Qed.

Lemma before_same_key (g g' x : ReportRow) :
  group_key g = group_key g' -> before g x -> before g' x.
Proof. unfold before. now intros ->. Qed.

(** Counting a text key in a sorted list of text keys gives one. *)
Lemma count_key_sorted (a b : string) (groups : list ReportRow) :
  Forall text_keys groups ->
  StronglySorted before groups ->
  Forall text_keys (count_key (VStr a, VStr b) groups) /\
  StronglySorted before (count_key (VStr a, VStr b) groups).
Proof.
  intros Htext Hsorted. induction Hsorted as [|h rest Hrest IH Hh].
  - split; repeat constructor. now exists a, b.
  - inversion Htext as [|? ? [h1 [h2 Hkey]] Htext']; subst.
    rewrite count_key_cons, Hkey.
    destruct (group_eqb (VStr a, VStr b) (VStr h1, VStr h2)) eqn:Heq.
    + split.
      * constructor; [|assumption]. now exists h1, h2.
      * constructor; [assumption|].
        apply Forall_impl with (2 := Hh). intros g.
        now apply before_same_key.
    + destruct (group_ltb (VStr a, VStr b) (VStr h1, VStr h2)) eqn:Hlt.
      * assert (Hkh : before (mkReportRow (VStr a) (VStr b) 1) h).
        { unfold before. now rewrite Hkey. }
        split.
        -- constructor; [now exists a, b | assumption].
        -- constructor; [now constructor|]. constructor; [assumption|].
           rewrite Forall_forall in Hh, Htext'. apply Forall_forall. intros g Hg.
           destruct (Htext' g Hg) as [g1 [g2 Hgkey]]. specialize (Hh g Hg).
           unfold before in *. rewrite Hgkey in *. rewrite Hkey in Hh.
           now apply (group_ltb_text_trans a b h1 h2 g1 g2).
      * destruct (IH Htext') as [IHtext IHsorted]. split.
        -- constructor; [now exists h1, h2 | assumption].
        -- constructor; [assumption|].
           apply Forall_forall. intros g Hg. unfold before. rewrite Hkey.
           destruct (count_key_sound _ _ _ Hg) as [Hk|[g0 [Hg0 Hk]]].
           ++ rewrite Hk. now apply group_ltb_text_total.
           ++ rewrite <- Hk. rewrite Forall_forall in Hh. specialize (Hh g0 Hg0).
              unfold before in Hh. now rewrite Hkey in Hh.
Qed.

Lemma count_keys_sorted (keys : list (value * value)) (groups : list ReportRow) :
  Forall (fun k => exists a b, k = (VStr a, VStr b)) keys ->
  Forall text_keys groups ->
  StronglySorted before groups ->
  Forall text_keys (fold_left (fun gs k => count_key k gs) keys groups) /\
  StronglySorted before (fold_left (fun gs k => count_key k gs) keys groups).
Proof.
  intros Hkeys. revert groups.
  induction Hkeys as [|k keys [a [b ->]] _ IH]; intros groups Htext Hsorted; simpl.
  - now split.
  - destruct (count_key_sorted a b groups Htext Hsorted) as [Htext' Hsorted'].
    now apply IH.
Qed.

Lemma sorted_text_keys_distinct (groups : list ReportRow) :
  Forall text_keys groups -> StronglySorted before groups ->
  NoDup (map group_key groups).
Proof.
  intros Htext Hsorted. induction Hsorted as [|h rest Hrest IH Hh]; simpl.
  - constructor.
  - inversion Htext as [|? ? [h1 [h2 Hkey]] Htext']; subst.
    constructor; [|now apply IH].
    intros Hin. apply in_map_iff in Hin. destruct Hin as [g [Hg Hin]].
    rewrite Forall_forall in Hh. specialize (Hh g Hin).
    unfold before in Hh. rewrite Hg, Hkey in Hh.
    now rewrite group_ltb_text_irrefl in Hh.
Qed.

(** X20: one reporting row per pair of keys, in the order of the keys.
    On a primary table whose [Crime type] and [Broad Outcome Category]
    hold text or nothing, the reporting rows are sorted by crime type and
    then by category, each strictly before the ones after it, and no two of
    them have the same pair of keys. *)
Theorem reporting_aggregation_sorted (df : DataFrame) (agg : list ReportRow) :
  reporting_aggregation df = Ok agg ->
  (forall r x, In r (rows df) ->
               row_lookup (columns df) r "Crime type" = Some x
               \/ row_lookup (columns df) r "Broad Outcome Category" = Some x ->
               pd_notnull x = true -> exists s, x = VStr s) ->
  StronglySorted before agg /\
  NoDup (map group_key agg).
Proof.
  unfold reporting_aggregation, groupby_size.
  destruct (getitem df "Crime type") as [ka|e] eqn:Ha; cbn [bind]; [|discriminate].
  destruct (getitem df "Broad Outcome Category") as [kb|e] eqn:Hb; cbn [bind];
    [|discriminate].
  intros H Htext. injection H as <-.
  apply getitem_Forall2 in Ha. apply getitem_Forall2 in Hb.
  destruct Ha as [_ Ha]. destruct Hb as [_ Hb].
  pose proof (Forall2_combine _ _ _ _ _ Ha Hb) as Hkeys.
  assert (Hall : Forall (fun k => exists a b, k = (VStr a, VStr b))
                        (grouped_keys (combine ka kb))).
  { apply Forall_forall. intros [x y] Hin. unfold grouped_keys in Hin.
    apply filter_In in Hin. destruct Hin as [Hin Hnn]. simpl in Hnn.
    apply andb_prop in Hnn. destruct Hnn as [Hx Hy].
    destruct (Forall2_In_r _ _ _ _ Hkeys Hin) as [r [Hr [H1 H2]]]. simpl in H1, H2.
    destruct (Htext r x Hr (or_introl H1) Hx) as [a ->].
    destruct (Htext r y Hr (or_intror H2) Hy) as [b ->].
    now exists a, b. }
  destruct (count_keys_sorted _ [] Hall) as [Htk Hsorted]; [constructor | constructor|].
  split; [assumption | now apply sorted_text_keys_distinct].
Qed.

Lemma reporting_aggregation_sorted_witness :
  NoDup (map group_key Scenario.report).
Proof.
  apply (reporting_aggregation_sorted Sample.staged Scenario.report eq_refl).
  intros r x Hin Hx Hnn. simpl in Hin.
  destruct Hin as [<-|[<-|[<-|[<-|[]]]]];
    destruct Hx as [Hx|Hx]; injection Hx as <-;
    try discriminate Hnn; eexists; reflexivity.
Defined.

(** ** The count of each reporting row *)

Lemma group_eqb_text (a b c d : string) :
  group_eqb (VStr a, VStr b) (VStr c, VStr d) = true <-> a = c /\ b = d.
Proof.
  unfold group_eqb. simpl. rewrite andb_true_iff, !String.eqb_eq. reflexivity.
Qed.

Lemma group_eqb_text_sym (a b c d : string) :
  group_eqb (VStr a, VStr b) (VStr c, VStr d)
  = group_eqb (VStr c, VStr d) (VStr a, VStr b).
Proof.
  unfold group_eqb. simpl. now rewrite (String.eqb_sym a c), (String.eqb_sym b d).
Qed.

Lemma count_of_cons (k : value * value) (h : ReportRow) (rest : list ReportRow) :
  count_of k (h :: rest)
  = if group_eqb k (group_key h) then Count h else count_of k rest.
Proof. unfold count_of. simpl. now destruct (group_eqb k (group_key h)). Qed.

(** A key that is before every group has no group. *)
Lemma count_of_before (a b : string) (groups : list ReportRow) :
  Forall text_keys groups ->
  Forall (fun g => group_ltb (VStr a, VStr b) (group_key g) = true) groups ->
  count_of (VStr a, VStr b) groups = 0.
Proof.
  intros Htext. induction Htext as [|h rest [h1 [h2 Hkey]] _ IH]; intros Hlt.
  - reflexivity.
  - inversion Hlt as [|? ? Hh Hrest]; subst. rewrite count_of_cons, Hkey.
    rewrite Hkey in Hh.
    destruct (group_eqb (VStr a, VStr b) (VStr h1, VStr h2)) eqn:Heq; [|now apply IH].
    apply group_eqb_text in Heq. destruct Heq as [-> ->].
    now rewrite group_ltb_text_irrefl in Hh.
Qed.

(** What counting a key does to the count of every key. *)
Lemma count_of_count_key (a b c d : string) (groups : list ReportRow) :
  Forall text_keys groups ->
  StronglySorted before groups ->
  count_of (VStr c, VStr d) (count_key (VStr a, VStr b) groups)
  = if group_eqb (VStr c, VStr d) (VStr a, VStr b)
    then S (count_of (VStr c, VStr d) groups)
    else count_of (VStr c, VStr d) groups.
Proof.
  intros Htext Hsorted. induction Hsorted as [|h rest Hrest IH Hh].
  - simpl. rewrite count_of_cons. unfold group_key. simpl.
    now destruct (group_eqb (VStr c, VStr d) (VStr a, VStr b)).
  - inversion Htext as [|? ? [h1 [h2 Hkey]] Htext']; subst.
    rewrite count_key_cons, Hkey.
    destruct (group_eqb (VStr a, VStr b) (VStr h1, VStr h2)) eqn:Heq.
    + apply group_eqb_text in Heq. destruct Heq as [-> ->].
      rewrite !count_of_cons, Hkey.
      change (group_key (mkReportRow (crime_type h) (broad_outcome_category h)
                                     (S (Count h))))
        with (group_key h).
      rewrite Hkey.
      now destruct (group_eqb (VStr c, VStr d) (VStr h1, VStr h2)).
    + destruct (group_ltb (VStr a, VStr b) (VStr h1, VStr h2)) eqn:Hlt.
      * rewrite count_of_cons.
        change (group_key (mkReportRow (fst (VStr a, VStr b)) (snd (VStr a, VStr b)) 1))
          with (VStr a, VStr b).
        destruct (group_eqb (VStr c, VStr d) (VStr a, VStr b)) eqn:Hq; [|reflexivity].
        apply group_eqb_text in Hq. destruct Hq as [-> ->].
        rewrite (count_of_before a b (h :: rest)); [reflexivity | assumption |].
        constructor; [now rewrite Hkey|].
        rewrite Forall_forall in Hh, Htext'. apply Forall_forall. intros g Hg.
        destruct (Htext' g Hg) as [g1 [g2 Hgkey]]. specialize (Hh g Hg).
        unfold before in Hh. rewrite Hgkey, Hkey in *.
        now apply (group_ltb_text_trans a b h1 h2 g1 g2).
      * rewrite !count_of_cons, Hkey.
        destruct (group_eqb (VStr c, VStr d) (VStr h1, VStr h2)) eqn:Hq.
        -- apply group_eqb_text in Hq. destruct Hq as [-> ->].
           now rewrite group_eqb_text_sym, Heq.
        -- now apply IH.
Qed.

Lemma count_of_count_keys (c d : string) (keys : list (value * value))
      (groups : list ReportRow) :
  Forall (fun k => exists a b, k = (VStr a, VStr b)) keys ->
  Forall text_keys groups ->
  StronglySorted before groups ->
  count_of (VStr c, VStr d) (fold_left (fun gs k => count_key k gs) keys groups)
  = occurrences (VStr c, VStr d) keys + count_of (VStr c, VStr d) groups.
Proof.
  intros Hkeys. revert groups.
  induction Hkeys as [|k keys [a [b ->]] _ IH]; intros groups Htext Hsorted; simpl.
  - reflexivity.
  - destruct (count_key_sorted a b groups Htext Hsorted) as [Htext' Hsorted'].
    rewrite (IH _ Htext' Hsorted'), (count_of_count_key a b c d groups Htext Hsorted).
    unfold occurrences. simpl.
    destruct (group_eqb (VStr c, VStr d) (VStr a, VStr b)); simpl; lia.
Qed.

(** In a sorted list of text keys the count of the key of a group is the
    count of that group. *)
Lemma count_of_own_key (groups : list ReportRow) (g : ReportRow) :
  Forall text_keys groups ->
  StronglySorted before groups ->
  In g groups ->
  count_of (group_key g) groups = Count g.
Proof.
  intros Htext Hsorted. induction Hsorted as [|h rest Hrest IH Hh]; intros Hin.
  - destruct Hin.
  - inversion Htext as [|? ? [h1 [h2 Hkey]] Htext']; subst.
    rewrite count_of_cons. destruct Hin as [<-|Hin].
    + now rewrite group_eqb_refl.
    + rewrite Forall_forall in Hh, Htext'.
      destruct (Htext' g Hin) as [g1 [g2 Hgkey]]. specialize (Hh g Hin).
      unfold before in Hh. rewrite Hgkey, Hkey in *.
      destruct (group_eqb (VStr g1, VStr g2) (VStr h1, VStr h2)) eqn:Heq.
      * apply group_eqb_text in Heq. destruct Heq as [-> ->].
        now rewrite group_ltb_text_irrefl in Hh.
      * apply IH; [|assumption].
        apply Forall_forall. exact Htext'.
Qed.

(** X21: the count of a reporting row is the number of primary rows of
    its group.  On a primary table whose [Crime type] and
    [Broad Outcome Category] hold text or nothing, every reporting row
    counts the rows of the table that have both keys and have the keys of
    the reporting row. *)
Theorem reporting_aggregation_count_per_group (df : DataFrame) (agg : list ReportRow) :
  reporting_aggregation df = Ok agg ->
  (forall r x, In r (rows df) ->
               row_lookup (columns df) r "Crime type" = Some x
               \/ row_lookup (columns df) r "Broad Outcome Category" = Some x ->
               pd_notnull x = true -> exists s, x = VStr s) ->
  forall g, In g agg -> Count g = List.length (rows_of_group df g).
Proof.
  unfold reporting_aggregation, groupby_size.
  destruct (getitem df "Crime type") as [ka|e] eqn:Ha; cbn [bind]; [|discriminate].
  destruct (getitem df "Broad Outcome Category") as [kb|e] eqn:Hb; cbn [bind];
    [|discriminate].
  intros H Htext g Hg. injection H as H.
  apply getitem_Forall2 in Ha. apply getitem_Forall2 in Hb.
  destruct Ha as [_ Ha]. destruct Hb as [_ Hb].
  pose proof (Forall2_combine _ _ _ _ _ Ha Hb) as Hkeys.
  assert (Hall : Forall (fun k => exists a b, k = (VStr a, VStr b))
                        (grouped_keys (combine ka kb))).
  { apply Forall_forall. intros [x y] Hin. unfold grouped_keys in Hin.
    apply filter_In in Hin. destruct Hin as [Hin Hnn]. simpl in Hnn.
    apply andb_prop in Hnn. destruct Hnn as [Hx Hy].
    destruct (Forall2_In_r _ _ _ _ Hkeys Hin) as [r [Hr [H1 H2]]]. simpl in H1, H2.
    destruct (Htext r x Hr (or_introl H1) Hx) as [a ->].
    destruct (Htext r y Hr (or_intror H2) Hy) as [b ->].
    now exists a, b. }
  destruct (count_keys_sorted _ [] Hall) as [Htk Hsorted]; [constructor | constructor|].
  rewrite H in Htk, Hsorted.
  rewrite <- (count_of_own_key agg g Htk Hsorted Hg).
  rewrite Forall_forall in Htk. destruct (Htk g Hg) as [c [d Hkey]].
  rewrite Hkey, <- H.
  rewrite (count_of_count_keys c d _ [] Hall); [|constructor|constructor].
  unfold count_of. simpl. rewrite Nat.add_0_r.
  unfold occurrences, rows_of_group, grouped_keys, keyed_rows. rewrite Hkey.
  symmetry. eapply Forall2_length.
  apply Forall2_filter with (R := fun r k =>
                                    row_lookup (columns df) r "Crime type" = Some (fst k)
                                    /\ row_lookup (columns df) r "Broad Outcome Category"
                                       = Some (snd k)).
  - intros r [x y] [H1 H2]. simpl in H1, H2. now rewrite H1, H2.
  - apply Forall2_filter with (2 := Hkeys).
    intros r [x y] [H1 H2]. simpl in H1, H2. now rewrite H1, H2.
Qed.

Lemma reporting_aggregation_count_per_group_witness :
  Forall (fun g => Count g = List.length (rows_of_group Sample.staged g))
         Scenario.report.
Proof.
  apply Forall_forall.
  apply (reporting_aggregation_count_per_group Sample.staged Scenario.report eq_refl).
  intros r x Hin Hx Hnn. simpl in Hin.
  destruct Hin as [<-|[<-|[<-|[<-|[]]]]];
    destruct Hx as [Hx|Hx]; injection Hx as <-;
    try discriminate Hnn; eexists; reflexivity.
Defined.

(** ** The column drop *)

Lemma row_drop_length (cols : list string) (r : list value) (labels : list string) :
  List.length r = List.length cols ->
  List.length (row_drop cols r labels)
  = List.length (filter (fun c => negb (mem c labels)) cols).
Proof.
  revert r. induction cols as [|c cs IH]; intros r Hlen.
  - destruct r; [reflexivity | discriminate].
  - destruct r as [|x xs]; [discriminate|]. simpl.
    injection Hlen as Hlen.
    destruct (mem c labels); simpl; now rewrite IH.
Qed.

Lemma filter_nil_iff {A : Type} (p : A -> bool) (l : list A) :
  filter p l = [] <-> forall x, In x l -> p x = false.
Proof.
  induction l as [|a l IH]; simpl.
  - split; [intros _ x [] | reflexivity].
  - destruct (p a) eqn:Ha.
    + split; [discriminate|]. intros H. specialize (H a (or_introl eq_refl)). congruence.
    + rewrite IH. split.
      * intros H x [<-|Hx]; [assumption | now apply H].
      * intros H x Hx. apply H. now right.
Qed.

(** X22: [del_values_street] gives a frame exactly when the frame it is
    given has all six columns, and raises a [KeyError] otherwise.  The
    frame it gives has the other columns in their order and as many rows;
    in every row each of them has the value it had and the six labels have
    none; and its rows have one value per column when those of the given
    frame have. *)
Theorem del_values_street_effects (df : DataFrame) :
  ((exists s, del_values_street df = Ok s)
   <-> forall c, In c ["Reported by"; "Context"; "Location"; "Last outcome category";
                       "Outcome type"; "Final Outcome"] ->
                 has_column df c = true) /\
  (forall e, del_values_street df = Raise e -> kind e = KeyError) /\
  (forall s, del_values_street df = Ok s ->
             columns s = filter (fun c => negb (mem c cols_to_delete)) (columns df) /\
             List.length (rows s) = List.length (rows df) /\
             (aligned df -> aligned s) /\
             Forall2 (fun r r' =>
                        forall l, row_lookup (columns s) r' l
                                  = if mem l cols_to_delete then None
                                    else row_lookup (columns df) r l)
                     (rows df) (rows s)).
Proof.
  unfold del_values_street, drop_columns.
  destruct (filter (fun l => negb (has_column df l)) cols_to_delete)
    as [|missing rest] eqn:Hf.
  - split; [|split].
    + split; [|eauto]. intros _ c Hc.
      pose proof (proj1 (filter_nil_iff _ _) Hf c Hc) as H.
      now apply negb_false_iff in H.
    + discriminate.
    + intros s [= <-]. cbn [columns rows]. split; [reflexivity|].
      split; [apply length_map|]. split.
      * intros Hal. unfold aligned. cbn [columns rows].
        apply Forall_forall. intros r' Hin. apply in_map_iff in Hin.
        destruct Hin as [r [<- Hin]]. apply row_drop_length. now apply aligned_row.
      * apply Forall2_weaken with (2 := Forall2_map_self _ (rows df)).
        intros r r' _ -> l. exact (row_lookup_drop (columns df) r cols_to_delete l).
  - split; [|split].
    + split; [intros [s H]; discriminate|]. intros Hall.
      assert (Hin : In missing (filter (fun l => negb (has_column df l)) cols_to_delete))
        by (rewrite Hf; now left).
      apply filter_In in Hin. destruct Hin as [Hin Hno].
      rewrite (Hall missing Hin) in Hno. discriminate.
    + intros e [= <-]. reflexivity.
    + discriminate.
Qed.

Lemma del_values_street_effects_witness :
  exists s,
    del_values_street Scenario.with_final_outcome = Ok s /\
    columns s = filter (fun c => negb (mem c cols_to_delete))
                       (columns Scenario.with_final_outcome).
Proof.
  eexists. split; [reflexivity|].
  apply (proj2 (proj2 (del_values_street_effects Scenario.with_final_outcome))).
  reflexivity.
Defined.

(** ** Missing identifiers in the merge *)

Lemma eqb_nan_l (x y : float) : is_nan x = true -> (x =? y)%float = false.
Proof.
  intros H. apply is_nan_spec in H. rewrite eqb_spec, H. reflexivity.
Qed.

Lemma eqb_nan_r (x y : float) : is_nan y = true -> (x =? y)%float = false.
Proof.
  intros H. apply is_nan_spec in H. rewrite eqb_spec, H. unfold SFeqb, SFcompare.
  now destruct (Prim2SF x).
Qed.

(** A missing key equals the missing keys and no other. *)
Lemma key_eqb_null (k k' : value) :
  pd_notnull k = false -> key_eqb k k' = negb (pd_notnull k').
Proof.
  destruct k as [s|x]; [discriminate|]. simpl. intros H.
  apply negb_false_iff in H. destruct k' as [t|y]; [reflexivity|]. simpl.
  rewrite (eqb_nan_l x y H), H. simpl. now rewrite negb_involutive.
Qed.

(** A key that is there equals no missing key. *)
Lemma key_eqb_notnull (k k' : value) :
  pd_notnull k = true -> key_eqb k k' = true -> pd_notnull k' = true.
Proof.
  destruct k as [s|x], k' as [t|y]; simpl; try reflexivity; try discriminate.
  intros Hx H. apply negb_true_iff in Hx. rewrite Hx in H. simpl in H.
  rewrite orb_false_r in H.
  destruct (is_nan y) eqn:Hy; [|reflexivity].
  now rewrite (eqb_nan_r x y Hy) in H.
Qed.

(** X23: missing identifiers match each other.  In the merge an incident
    whose [Crime ID] is missing is paired with every outcome row whose
    [Crime ID] is missing, as pandas pairs missing keys, and with no other:
    it appears once for each of them, or once with a missing
    [Outcome type] when there is none.  An incident whose [Crime ID] is
    there is never paired with an outcome row whose [Crime ID] is
    missing. *)
Theorem merge_data_missing_ids (df df_outcomes m : DataFrame) :
  merge_data df df_outcomes = Ok m ->
  exists blocks,
    rows m = List.concat blocks /\
    Forall2
      (fun l block =>
         exists k,
           row_lookup (columns df) l "Crime ID" = Some k /\
           (pd_notnull k = false ->
            outcome_matches df_outcomes k
            = filter (fun o => match row_lookup (columns df_outcomes) o "Crime ID" with
                               | Some k' => negb (pd_notnull k')
                               | None => false
                               end) (rows df_outcomes) /\
            (outcome_matches df_outcomes k = [] -> block = [l ++ [NaN]]) /\
            (outcome_matches df_outcomes k <> [] ->
             List.length block = List.length (outcome_matches df_outcomes k))) /\
           (pd_notnull k = true ->
            forall o, In o (outcome_matches df_outcomes k) ->
                      exists k', row_lookup (columns df_outcomes) o "Crime ID" = Some k'
                                 /\ pd_notnull k' = true))
      (rows df) blocks.
Proof.
  intros Hm. destruct (merge_data_blocks _ _ _ Hm) as [blocks [Hrows [Hblocks _]]].
  exists blocks. split; [assumption|].
  apply Forall2_weaken with (2 := Hblocks).
  intros l block _ [k [Hk [Hnone Hsome]]]. exists k. split; [assumption|]. split.
  - intros Hnull. split; [|split].
    + unfold outcome_matches, matching. apply filter_ext. intros o.
      destruct (row_lookup (columns df_outcomes) o "Crime ID"); [|reflexivity].
      now apply key_eqb_null.
    + assumption.
    + intros Hne. symmetry. eapply Forall2_length. now apply Hsome.
  - intros Hnn o Ho. unfold outcome_matches, matching in Ho.
    apply filter_In in Ho. destruct Ho as [_ Ho].
    destruct (row_lookup (columns df_outcomes) o "Crime ID") as [k'|]; [|discriminate].
    exists k'. split; [reflexivity|]. now apply (key_eqb_notnull k k').
Qed.

Lemma merge_data_missing_ids_witness :
  exists blocks, rows Sample.merged = List.concat blocks.
Proof.
  destruct (merge_data_missing_ids Sample.incidents Sample.outcomes Sample.merged eq_refl)
    as [blocks [H _]].
  now exists blocks.
Defined.
